(** * Trust-Trade: risk controller, position manager, signal composer,
      indicators and backtest engine, embedded and verified.

    Numbers.  JavaScript has one number type (IEEE double).  Most of the
    embedding uses exact arithmetic: [Q] for prices, amounts, scores and
    percentages, [Z] for counters and millisecond timestamps.  There
    [NaN] and the infinities are not represented; a division by zero
    (which JavaScript turns into one of them) is kept away from by an
    explicit hypothesis wherever a statement depends on the value of the
    quotient, and a statement about values holds of the code up to the
    rounding of its doubles.

    Where the answer of a function turns on that rounding (a comparison
    with a cap or a threshold, a printed digit), the function is embedded
    over binary64 itself: the modules [Double], [AdvancedRiskDouble] and
    [RiskAdvancedDouble] use the primitive floats, whose operations are
    those of IEEE 754, [NaN] and the infinities included.

    [null] and a missing property are [None].

    Module-level [let] state of the source is threaded explicitly: a
    function that reads or writes it takes the state and returns the new
    one; [Date.now()] is an argument.  [console.log] lines write to the
    log only and are left out. *)

From Stdlib Require Import ZArith QArith Qround Qminmax Qabs Lia Lqa.
From Stdlib Require Import String Ascii List Bool DecimalString.
From Stdlib Require Floats Uint63.
From stdpp Require Import base option gmap strings.
Import ListNotations.

Local Open Scope string_scope.
Local Open Scope Z_scope.

(* ===================================================================== *)
(** * Part I: the program                                                  *)
(* ===================================================================== *)

(** ** Built-ins of the host language used by the modelled code *)
Module Js.

(** [String(n)] for an integral number. *)
Definition Number_toString (z : Z) : string :=
  NilZero.string_of_int (Z.to_int z).

(** [Math.round]: nearest integer, ties towards +infinity. *)
Definition Math_round (x : Q) : Z := Qfloor (x + (1 # 2))%Q.

(** [Math.ceil] of the quotient of two integers (used on millisecond
    spans, which are integral). *)
Definition Math_ceil (x : Q) : Z := Qceiling x.

Definition Math_max (x y : Q) : Q := if Qle_bool x y then y else x.
Definition Math_min (x y : Q) : Q := if Qle_bool x y then x else y.
Definition Math_abs (x : Q) : Q := if Qle_bool 0 x then x else (- x)%Q.

(** Strict comparisons and [===] on numbers, as booleans. *)
Definition ltb (x y : Q) : bool := negb (Qle_bool y x).
Definition gtb (x y : Q) : bool := negb (Qle_bool x y).
Definition leb (x y : Q) : bool := Qle_bool x y.
Definition geb (x y : Q) : bool := Qle_bool y x.
Definition eqb (x y : Q) : bool := Qeq_bool x y.

(** [x.toFixed(d)].  ECMAScript: for [x < 0] emit "-" and continue with
    [-x]; pick the integer [n] with [n / 10^d] closest to [x], the larger
    one on a tie; print [n] with a decimal point before its last [d]
    digits, left-padded with zeros. *)
Definition scaled (x : Q) (d : nat) : Z :=
  Qfloor (Math_abs x * inject_Z (10 ^ Z.of_nat d) + (1 # 2))%Q.

Fixpoint zeros (k : nat) : string :=
  match k with O => "" | S k' => String "0" (zeros k') end.

Definition pad_left (d : nat) (s : string) : string :=
  zeros (d - String.length s) ++ s.

Definition toFixed (x : Q) (d : nat) : string :=
  let n := scaled x d in
  let p := 10 ^ Z.of_nat d in
  let sign := if ltb x 0 then "-" else "" in
  let int_part := Number_toString (n / p) in
  match d with
  | O => sign ++ int_part
  | _ => sign ++ int_part ++ "." ++ pad_left d (Number_toString (n mod p))
  end.

(** [parseFloat(x.toFixed(d))]: the value the printed decimal denotes. *)
Definition parseFloat_toFixed (x : Q) (d : nat) : Q :=
  let v := (inject_Z (scaled x d) / inject_Z (10 ^ Z.of_nat d))%Q in
  if ltb x 0 then (- v)%Q else v.

(** [hay.includes(needle)]. *)
Fixpoint prefixb (p s : string) : bool :=
  match p, s with
  | EmptyString, _ => true
  | String a p', String b s' => if Ascii.eqb a b then prefixb p' s' else false
  | String _ _, EmptyString => false
  end.

Fixpoint includes (needle hay : string) : bool :=
  prefixb needle hay ||
  match hay with
  | EmptyString => false
  | String _ hay' => includes needle hay'
  end.

(** [String(x)] for a number with a terminating decimal expansion (every
    double has one): the expansion itself, without trailing zeros.  The
    search for the number of fraction digits is bounded by [fuel]. *)
Fixpoint fraction_digits (fuel : nat) (x : Q) (d : nat) : nat :=
  match fuel with
  | O => d
  | S fuel' =>
      let y := (x * inject_Z (10 ^ Z.of_nat d))%Q in
      if Qeq_bool y (inject_Z (Qfloor y)) then d
      else fraction_digits fuel' x (S d)
  end.

Definition Number_toStringQ (x : Q) : string :=
  toFixed x (fraction_digits 20 x 0).

End Js.

(** ** The host's numbers as they are: binary64 *)
Module Double.

Import PrimFloat SpecFloat FloatOps.

(** The rational a finite double stands for; [None] for [NaN] and the
    infinities. *)
Definition value (x : float) : option Q :=
  match Prim2SF x with
  | S754_zero _ => Some 0%Q
  | S754_finite s m e =>
      let a := (inject_Z (Zpos m) * Qpower 2 e)%Q in
      Some (if s then (- a)%Q else a)
  | _ => None
  end.

Definition round_half_even (q : Q) : Z :=
  let fl := Qfloor q in
  match (q - inject_Z fl ?= 1 # 2)%Q with
  | Lt => fl
  | Gt => fl + 1
  | Eq => if Z.even fl then fl else fl + 1
  end.

(** The double nearest to a rational, ties to the even mantissa: what a
    decimal literal of the source, or a parsed decimal string, denotes. *)
Definition of_Q (q : Q) : float :=
  if Qeq_bool q 0 then 0%float
  else
    let a := Qabs q in
    let l := Z.log2 (Qnum a) - Z.log2 (Zpos (Qden a)) in
    let l' := if Qle_bool (Qpower 2 l) a then l else l - 1 in
    let e := Z.max (l' - 52) (-1074) in
    let m := round_half_even (a / Qpower 2 e)%Q in
    let f := Z.ldexp (of_uint63 (Uint63.of_Z m)) e in
    if Qle_bool 0 q then f else (- f)%float.

(** [>], [>=] and the truthiness of a number: neither [NaN] nor a zero. *)
Definition gtb (x y : float) : bool := (y <? x)%float.
Definition geb (x y : float) : bool := (y <=? x)%float.
Definition truthy (x : float) : bool := negb (is_nan x) && negb (x =? 0)%float.

(** [x || 0]. *)
Definition or0 (x : float) : float := if truthy x then x else 0%float.

(** [Math.max] and [Math.min] of two numbers: [NaN] if either is, and
    +0 above -0. *)
Definition Math_max (x y : float) : float :=
  if is_nan x || is_nan y then nan
  else if (x <? y)%float then y
  else if (y <? x)%float then x
  else if get_sign x then y else x.

Definition Math_min (x y : float) : float :=
  if is_nan x || is_nan y then nan
  else if (x <? y)%float then x
  else if (y <? x)%float then y
  else if get_sign x then x else y.

Definition Math_abs (x : float) : float := abs x.

(** *** [String(x)] *)

(** [floor (log10 v)] for a positive [v], raised from an estimate
    below it. *)
Fixpoint raise (fuel : nat) (v : Q) (k : Z) : Z :=
  match fuel with
  | O => k
  | S fuel' =>
      if Qle_bool (Qpower 10 (k + 1)) v then raise fuel' v (k + 1) else k
  end.

Definition floor_log10 (v : Q) : Z :=
  let l := Z.log2 (Qnum v) - Z.log2 (Zpos (Qden v)) in
  raise 4 v ((l - 1) * 30102 / 100000 - 1).

(** The digits of [Number::toString]: for [k] digits, the integers [s]
    next to [v / 10^(n0-k)] whose decimal reads back as [x], the closer
    one if both do.  A carry to [10^k] moves the decimal point. *)
Definition candidate (x : float) (v : Q) (n0 : Z) (k : Z) : option (Z * Z) :=
  let scale := Qpower 10 (n0 - k) in
  let lo := Qfloor (v / scale) in
  let hi := lo + 1 in
  let ok (c : Z) := (of_Q (inject_Z c * scale) =? x)%float in
  let pick :=
    match ok lo, ok hi with
    | true, true =>
        match (v - inject_Z lo * scale ?= inject_Z hi * scale - v)%Q with
        | Lt => Some lo
        | Gt => Some hi
        | Eq => Some (if Z.even lo then lo else hi)
        end
    | true, false => Some lo
    | false, true => Some hi
    | false, false => None
    end in
  match pick with
  | Some s => if s =? 10 ^ k then Some (10 ^ (k - 1), n0 + 1) else Some (s, n0)
  | None => None
  end.

(** The shortest such [s]: at most 17 digits are needed for a double. *)
Fixpoint shortest (fuel : nat) (x : float) (v : Q) (n0 : Z) (k : Z)
  : Z * Z * Z :=
  match fuel with
  | O => (0, n0, k)
  | S fuel' =>
      match candidate x v n0 k with
      | Some (s, n) => (s, n, k)
      | None => shortest fuel' x v n0 (k + 1)
      end
  end.

Definition substring_from (n : nat) (s : string) : string :=
  String.substring n (String.length s - n) s.

Definition positive_toString (x : float) (v : Q) : string :=
  let n0 := floor_log10 v + 1 in
  let '(s, n, k) := shortest 17 x v n0 1 in
  let ds := Js.Number_toString s in
  if (k <=? n) && (n <=? 21) then ds ++ Js.zeros (Z.to_nat (n - k))
  else if (0 <? n) && (n <=? 21) then
    String.substring 0 (Z.to_nat n) ds ++ "." ++ substring_from (Z.to_nat n) ds
  else if (-6 <? n) && (n <=? 0) then
    "0." ++ Js.zeros (Z.to_nat (- n)) ++ ds
  else
    let e := n - 1 in
    let tail := "e" ++ (if e <? 0 then "-" else "+")
                ++ Js.Number_toString (Z.abs e) in
    if k =? 1 then ds ++ tail
    else String.substring 0 1 ds ++ "." ++ substring_from 1 ds ++ tail.

(** [String(x)], that is [Number::toString] in radix 10. *)
Definition toString (x : float) : string :=
  match value x with
  | None =>
      if is_nan x then "NaN"
      else if (x <? 0)%float then "-Infinity" else "Infinity"
  | Some v =>
      if Qeq_bool v 0 then "0"
      else if Qle_bool 0 v then positive_toString x v
      else "-" ++ positive_toString (abs x) (- v)
  end.

(** [x.toFixed(d)]: [String(x)] for a number that is not finite or is
    1e21 or more in size, and otherwise the rounding of [Js.toFixed]
    applied to the exact value of the double. *)
Definition toFixed (x : float) (d : nat) : string :=
  match value x with
  | None => toString x
  | Some v =>
      if Qle_bool (Qpower 10 21) (Qabs v)
      then (if Qle_bool 0 v then "" else "-") ++ toString (abs x)
      else Js.toFixed v d
  end.

(** [parseFloat(x.toFixed(d))]. *)
Definition parseFloat_toFixed (x : float) (d : nat) : float :=
  match value x with
  | None => x
  | Some v =>
      if Qle_bool (Qpower 10 21) (Qabs v) then x
      else
        let f := of_Q (inject_Z (Js.scaled v d) / inject_Z (10 ^ Z.of_nat d)) in
        if Qle_bool 0 v then f else (- f)%float
  end.

End Double.

(** ** lib/advanced-risk.mjs: circuit breaker *)
Module AdvancedRisk.

Record CircuitBreakerState := mkCB {
  isTripped : bool;
  tripTime : option Z;
  consecutiveLosses : Z;
  cooldownPeriod : Z;
  maxConsecutiveLosses : Z
}.

(** The module-level initial value: one hour, three losses. *)
Definition circuitBreakerState0 : CircuitBreakerState :=
  {| isTripped := false;
     tripTime := None;
     consecutiveLosses := 0;
     cooldownPeriod := 60 * 60 * 1000;
     maxConsecutiveLosses := 3 |}.

(** What [checkCircuitBreaker] returns; absent properties are [None]. *)
Record CheckResult := mkCheck {
  halted : bool;
  reason : option string;
  chk_consecutiveLosses : option Z;
  remainingCooldown : option Z;
  chk_tripTime : option Z
}.

(** [now - tripTime]: a [null] operand counts as 0 in a subtraction. *)
Definition timeSince (now : Z) (t : option Z) : Z :=
  now - match t with Some t0 => t0 | None => 0 end.

Definition checkCircuitBreaker (st : CircuitBreakerState) (now : Z)
  : CheckResult * CircuitBreakerState :=
  if isTripped st then
    let timeSinceTrip := timeSince now (tripTime st) in
    if cooldownPeriod st <=? timeSinceTrip then
      ({| halted := false;
          reason := Some "Circuit breaker reset after cooldown";
          chk_consecutiveLosses := Some 0;
          remainingCooldown := None;
          chk_tripTime := None |},
       {| isTripped := false;
          tripTime := None;
          consecutiveLosses := 0;
          cooldownPeriod := cooldownPeriod st;
          maxConsecutiveLosses := maxConsecutiveLosses st |})
    else
      let remaining := cooldownPeriod st - timeSinceTrip in
      ({| halted := true;
          reason := Some ("Circuit breaker tripped: "
                          ++ Js.Number_toString (consecutiveLosses st)
                          ++ " consecutive losses");
          chk_consecutiveLosses := None;
          remainingCooldown :=
            Some (Js.Math_ceil (inject_Z remaining / 1000 / 60));
          chk_tripTime := tripTime st |},
       st)
  else
    ({| halted := false;
        reason := None;
        chk_consecutiveLosses := Some (consecutiveLosses st);
        remainingCooldown := None;
        chk_tripTime := None |},
     st).

Record UpdateResult := mkUpd {
  tripped : bool;
  upd_consecutiveLosses : Z;
  cooldownMinutes : option Q
}.

Definition updateCircuitBreaker (st : CircuitBreakerState) (now : Z)
  (tradePnL : Q) : UpdateResult * CircuitBreakerState :=
  if Js.ltb tradePnL 0 then
    let n := consecutiveLosses st + 1 in
    if maxConsecutiveLosses st <=? n then
      ({| tripped := true;
          upd_consecutiveLosses := n;
          cooldownMinutes := Some (inject_Z (cooldownPeriod st) / 1000 / 60)%Q |},
       {| isTripped := true;
          tripTime := Some now;
          consecutiveLosses := n;
          cooldownPeriod := cooldownPeriod st;
          maxConsecutiveLosses := maxConsecutiveLosses st |})
    else
      ({| tripped := false; upd_consecutiveLosses := n; cooldownMinutes := None |},
       {| isTripped := isTripped st;
          tripTime := tripTime st;
          consecutiveLosses := n;
          cooldownPeriod := cooldownPeriod st;
          maxConsecutiveLosses := maxConsecutiveLosses st |})
  else if Js.gtb tradePnL 0 then
    ({| tripped := false; upd_consecutiveLosses := 0; cooldownMinutes := None |},
     {| isTripped := isTripped st;
        tripTime := tripTime st;
        consecutiveLosses := 0;
        cooldownPeriod := cooldownPeriod st;
        maxConsecutiveLosses := maxConsecutiveLosses st |})
  else
    ({| tripped := false;
        upd_consecutiveLosses := consecutiveLosses st;
        cooldownMinutes := None |},
     st).

Definition resetCircuitBreaker (st : CircuitBreakerState) : CircuitBreakerState :=
  {| isTripped := false;
     tripTime := None;
     consecutiveLosses := 0;
     cooldownPeriod := cooldownPeriod st;
     maxConsecutiveLosses := maxConsecutiveLosses st |}.

(** *** Portfolio limits and exposure *)

(** The exposure code read in exact arithmetic: its sums and quotients
    before any rounding.  What is monotone in the amount is read off
    here; what the doubles decide at a cap, and what they print, is in
    [AdvancedRiskDouble]. *)

Record PortfolioLimits := mkLimits {
  maxExposurePerSymbol : Q;
  maxTotalExposure : Q;
  maxDrawdownPercent : Q;
  maxDailyLossPercent : Q
}.

Definition portfolioLimits0 : PortfolioLimits :=
  {| maxExposurePerSymbol := 25 # 100;
     maxTotalExposure := 75 # 100;
     maxDrawdownPercent := 20 # 100;
     maxDailyLossPercent := 10 # 100 |}.

(** The fields of a stored trade that the exposure code reads.  A missing
    or falsy [amount] counts as 0, a missing or empty [symbol] as
    'UNKNOWN'. *)
Record Trade := mkTrade {
  status : string;
  amount : option Q;
  symbol : option string
}.

Record SymbolExposure := mkSymExp {
  exposure : Q;
  exposurePercent : Q;
  trades : Z
}.

(** [exposureBySymbol] is an object used as a map from symbol to its
    record; the keys are market symbols (names that every object inherits,
    such as 'constructor', are not symbols). *)
Record Exposure := mkExposure {
  totalExposure : Q;
  totalExposurePercent : Q;
  exposureBySymbol : gmap string SymbolExposure;
  withinLimits : bool;
  totalExceeded : option bool;
  symbolExceeded : option bool
}.

Definition amount_or_0 (t : Trade) : Q :=
  match amount t with Some a => a | None => 0%Q end.

Definition symbol_or_unknown (t : Trade) : string :=
  match symbol t with
  | Some s => if String.eqb s "" then "UNKNOWN" else s
  | None => "UNKNOWN"
  end.

(** One iteration of the [for (const trade of openTrades)] loop on the
    pair (totalExposure, exposureBySymbol). *)
Definition exposure_step (acc : Q * gmap string SymbolExposure) (t : Trade)
  : Q * gmap string SymbolExposure :=
  let '(total, by_symbol) := acc in
  if String.eqb (status t) "open" then
    let e := amount_or_0 t in
    let sym := symbol_or_unknown t in
    let cur := match by_symbol !! sym with
               | Some c => c
               | None => {| exposure := 0; exposurePercent := 0; trades := 0 |}
               end in
    ((total + e)%Q,
     <[ sym := {| exposure := (exposure cur + e)%Q;
                  exposurePercent := exposurePercent cur;
                  trades := trades cur + 1 |} ]> by_symbol)
  else acc.

Definition exposure_loop (openTrades : list Trade)
  : Q * gmap string SymbolExposure :=
  fold_left exposure_step openTrades (0%Q, ∅).

Definition calculatePortfolioExposure (limits : PortfolioLimits)
  (openTrades : list Trade) (portfolioValue : Q) : Exposure :=
  match openTrades with
  | [] =>
      {| totalExposure := 0; totalExposurePercent := 0;
         exposureBySymbol := ∅; withinLimits := true;
         totalExceeded := None; symbolExceeded := None |}
  | _ =>
      let '(total, by_symbol0) := exposure_loop openTrades in
      let totalPercent :=
        if Js.gtb portfolioValue 0 then (total / portfolioValue)%Q else 0%Q in
      let by_symbol :=
        fmap (fun e =>
                {| exposure := exposure e;
                   exposurePercent :=
                     if Js.gtb portfolioValue 0
                     then (exposure e / portfolioValue)%Q else 0%Q;
                   trades := trades e |}) by_symbol0 in
      let totalEx := Js.gtb totalPercent (maxTotalExposure limits) in
      let symbolEx :=
        existsb (fun e => Js.gtb (exposurePercent e.2) (maxExposurePerSymbol limits))
                (map_to_list by_symbol) in
      {| totalExposure := Js.parseFloat_toFixed total 2;
         totalExposurePercent := Js.parseFloat_toFixed (totalPercent * 100) 2;
         exposureBySymbol := by_symbol;
         withinLimits := negb totalEx && negb symbolEx;
         totalExceeded := Some totalEx;
         symbolExceeded := Some symbolEx |}
  end.

Record Validation := mkValidation {
  ok : bool;
  v_reason : option string;
  currentExposure : option string;
  limit : option string
}.

Definition validatePortfolioLimits (limits : PortfolioLimits)
  (sym : string) (amt : Q) (openTrades : list Trade) (portfolioValue : Q)
  : Validation :=
  let cur := calculatePortfolioExposure limits openTrades portfolioValue in
  let newTotalExposure := (totalExposure cur + amt)%Q in
  let newTotalPercent := (newTotalExposure / portfolioValue)%Q in
  let currentSymbolExposure :=
    match exposureBySymbol cur !! sym with
    | Some e => exposure e
    | None => 0%Q
    end in
  let newSymbolExposure := (currentSymbolExposure + amt)%Q in
  let newSymbolPercent := (newSymbolExposure / portfolioValue)%Q in
  if Js.gtb newTotalPercent (maxTotalExposure limits) then
    {| ok := false;
       v_reason := Some ("Would exceed max total exposure ("
                         ++ Js.toFixed (newTotalPercent * 100) 1 ++ "% > "
                         ++ Js.Number_toStringQ (maxTotalExposure limits * 100)
                         ++ "%)");
       currentExposure := Some (Js.toFixed (totalExposurePercent cur) 1);
       limit := Some (Js.toFixed (maxTotalExposure limits * 100) 0) |}
  else if Js.gtb newSymbolPercent (maxExposurePerSymbol limits) then
    {| ok := false;
       v_reason := Some ("Would exceed max exposure for " ++ sym ++ " ("
                         ++ Js.toFixed (newSymbolPercent * 100) 1 ++ "% > "
                         ++ Js.Number_toStringQ (maxExposurePerSymbol limits * 100)
                         ++ "%)");
       currentExposure :=
         Some (Js.toFixed (currentSymbolExposure / portfolioValue * 100) 1);
       limit := Some (Js.toFixed (maxExposurePerSymbol limits * 100) 0) |}
  else
    {| ok := true; v_reason := None; currentExposure := None; limit := None |}.

(** *** Circuit breaker configuration *)

(** The request object of [updateCircuitBreakerConfig]; the cooldown is
    taken in whole minutes. *)
Record BreakerConfig := mkBreakerConfig {
  cfg_maxConsecutiveLosses : option Z;
  cfg_cooldownMinutes : option Z
}.

Definition updateCircuitBreakerConfig (st : CircuitBreakerState)
  (config : BreakerConfig) : CircuitBreakerState :=
  {| isTripped := isTripped st;
     tripTime := tripTime st;
     consecutiveLosses := consecutiveLosses st;
     cooldownPeriod :=
       match cfg_cooldownMinutes config with
       | Some m => m * 60 * 1000
       | None => cooldownPeriod st
       end;
     maxConsecutiveLosses :=
       match cfg_maxConsecutiveLosses config with
       | Some n => n
       | None => maxConsecutiveLosses st
       end |}.

(** The [cooldownMinutes] property of [getCircuitBreakerConfig]. *)
Definition getCooldownMinutes (st : CircuitBreakerState) : Q :=
  (inject_Z (cooldownPeriod st) / 1000 / 60)%Q.

(** A run of closes, each with the time it is booked at. *)
Definition after_closes (st : CircuitBreakerState) (events : list (Z * Q))
  : CircuitBreakerState :=
  fold_left (fun s e => (updateCircuitBreaker s e.1 e.2).2) events st.

End AdvancedRisk.

(** ** lib/advanced-risk.mjs over binary64: exposure limits and Kelly *)
Module AdvancedRiskDouble.

Import PrimFloat.
Local Open Scope float_scope.

Record PortfolioLimits := mkLimits {
  maxExposurePerSymbol : float;
  maxTotalExposure : float;
  maxDrawdownPercent : float;
  maxDailyLossPercent : float
}.

(** The module-level value: 0.25, 0.75, 0.20 and 0.10. *)
Definition portfolioLimits0 : PortfolioLimits :=
  {| maxExposurePerSymbol := 0.25;
     maxTotalExposure := 0.75;
     maxDrawdownPercent := Double.of_Q (20 # 100);
     maxDailyLossPercent := Double.of_Q (10 # 100) |}.

(** The fields of a stored trade that the exposure code reads.  A missing
    or falsy [amount] counts as 0, a missing or empty [symbol] as
    'UNKNOWN'. *)
Record Trade := mkTrade {
  status : string;
  amount : option float;
  symbol : option string
}.

Record SymbolExposure := mkSymExp {
  exposure : float;
  exposurePercent : float;
  trades : Z
}.

(** [exposureBySymbol] is an object used as a map from symbol to its
    record; the keys are market symbols (names that every object inherits,
    such as 'constructor', are not symbols). *)
Record Exposure := mkExposure {
  totalExposure : float;
  totalExposurePercent : float;
  exposureBySymbol : gmap string SymbolExposure;
  withinLimits : bool;
  totalExceeded : option bool;
  symbolExceeded : option bool
}.

Definition amount_or_0 (t : Trade) : float :=
  match amount t with Some a => Double.or0 a | None => 0 end.

Definition symbol_or_unknown (t : Trade) : string :=
  match symbol t with
  | Some s => if String.eqb s "" then "UNKNOWN" else s
  | None => "UNKNOWN"
  end.

(** One iteration of the [for (const trade of openTrades)] loop on the
    pair (totalExposure, exposureBySymbol). *)
Definition exposure_step (acc : float * gmap string SymbolExposure) (t : Trade)
  : float * gmap string SymbolExposure :=
  let '(total, by_symbol) := acc in
  if String.eqb (status t) "open" then
    let e := amount_or_0 t in
    let sym := symbol_or_unknown t in
    let cur := match by_symbol !! sym with
               | Some c => c
               | None => {| exposure := 0; exposurePercent := 0; trades := 0 |}
               end in
    (total + e,
     <[ sym := {| exposure := exposure cur + e;
                  exposurePercent := exposurePercent cur;
                  trades := (trades cur + 1)%Z |} ]> by_symbol)
  else acc.

Definition exposure_loop (openTrades : list Trade)
  : float * gmap string SymbolExposure :=
  fold_left exposure_step openTrades (0, ∅).

Definition calculatePortfolioExposure (limits : PortfolioLimits)
  (openTrades : list Trade) (portfolioValue : float) : Exposure :=
  match openTrades with
  | [] =>
      {| totalExposure := 0; totalExposurePercent := 0;
         exposureBySymbol := ∅; withinLimits := true;
         totalExceeded := None; symbolExceeded := None |}
  | _ =>
      let '(total, by_symbol0) := exposure_loop openTrades in
      let totalPercent :=
        if Double.gtb portfolioValue 0 then total / portfolioValue else 0 in
      let by_symbol :=
        fmap (fun e =>
                {| exposure := exposure e;
                   exposurePercent :=
                     if Double.gtb portfolioValue 0
                     then exposure e / portfolioValue else 0;
                   trades := trades e |}) by_symbol0 in
      let totalEx := Double.gtb totalPercent (maxTotalExposure limits) in
      let symbolEx :=
        existsb (fun e => Double.gtb (exposurePercent e.2)
                            (maxExposurePerSymbol limits))
                (map_to_list by_symbol) in
      {| totalExposure := Double.parseFloat_toFixed total 2;
         totalExposurePercent := Double.parseFloat_toFixed (totalPercent * 100) 2;
         exposureBySymbol := by_symbol;
         withinLimits := negb totalEx && negb symbolEx;
         totalExceeded := Some totalEx;
         symbolExceeded := Some symbolEx |}
  end.

Record Validation := mkValidation {
  ok : bool;
  v_reason : option string;
  currentExposure : option string;
  limit : option string
}.

Definition validatePortfolioLimits (limits : PortfolioLimits)
  (sym : string) (amt : float) (openTrades : list Trade) (portfolioValue : float)
  : Validation :=
  let cur := calculatePortfolioExposure limits openTrades portfolioValue in
  let newTotalExposure := totalExposure cur + amt in
  let newTotalPercent := newTotalExposure / portfolioValue in
  let currentSymbolExposure :=
    match exposureBySymbol cur !! sym with
    | Some e => Double.or0 (exposure e)
    | None => 0
    end in
  let newSymbolExposure := currentSymbolExposure + amt in
  let newSymbolPercent := newSymbolExposure / portfolioValue in
  if Double.gtb newTotalPercent (maxTotalExposure limits) then
    {| ok := false;
       v_reason := Some ("Would exceed max total exposure ("
                         ++ Double.toFixed (newTotalPercent * 100) 1 ++ "% > "
                         ++ Double.toString (maxTotalExposure limits * 100)
                         ++ "%)");
       currentExposure := Some (Double.toFixed (totalExposurePercent cur) 1);
       limit := Some (Double.toFixed (maxTotalExposure limits * 100) 0) |}
  else if Double.gtb newSymbolPercent (maxExposurePerSymbol limits) then
    {| ok := false;
       v_reason := Some ("Would exceed max exposure for " ++ sym ++ " ("
                         ++ Double.toFixed (newSymbolPercent * 100) 1 ++ "% > "
                         ++ Double.toString (maxExposurePerSymbol limits * 100)
                         ++ "%)");
       currentExposure :=
         Some (Double.toFixed (currentSymbolExposure / portfolioValue * 100) 1);
       limit := Some (Double.toFixed (maxExposurePerSymbol limits * 100) 0) |}
  else
    {| ok := true; v_reason := None; currentExposure := None; limit := None |}.

(** *** Kelly criterion *)

Record Kelly := mkKelly {
  kellyPercent : float;
  positionSize : float;
  message : option string;
  k_winRate : option float;
  k_avgWin : option float;
  k_avgLoss : option float;
  winLossRatio : option float;
  k_kellyFraction : option float;
  recommendation : option string
}.

(** The fraction of the portfolio before it is rounded for display:
    full Kelly, scaled by the safety fraction, clamped. *)
Definition kelly_clamped (winRate avgWin avgLoss kellyFraction : float) : float :=
  let p := winRate / 100 in
  let q := 1 - p in
  let b := avgWin / Double.Math_abs avgLoss in
  let full := (p * b - q) / b in
  let scaled := full * kellyFraction in
  Double.Math_max 0 (Double.Math_min scaled 0.5).

Definition calculateKellyPositionSize
  (winRate avgWin avgLoss portfolioValue : float)
  (kellyFraction_arg : option float) : Kelly :=
  let kellyFraction :=
    match kellyFraction_arg with Some k => k | None => 0.25 end in
  if (winRate =? 0) || (avgWin =? 0) || (avgLoss =? 0) then
    {| kellyPercent := 0; positionSize := 0;
       message := Some "Insufficient data for Kelly calculation";
       k_winRate := None; k_avgWin := None; k_avgLoss := None;
       winLossRatio := None; k_kellyFraction := None;
       recommendation := None |}
  else
    let b := avgWin / Double.Math_abs avgLoss in
    let kp := kelly_clamped winRate avgWin avgLoss kellyFraction in
    let size := portfolioValue * kp in
    {| kellyPercent := Double.parseFloat_toFixed (kp * 100) 2;
       positionSize := Double.parseFloat_toFixed size 2;
       message := None;
       k_winRate := Some (Double.parseFloat_toFixed winRate 2);
       k_avgWin := Some (Double.parseFloat_toFixed avgWin 2);
       k_avgLoss := Some (Double.parseFloat_toFixed (Double.Math_abs avgLoss) 2);
       winLossRatio := Some (Double.parseFloat_toFixed b 2);
       k_kellyFraction := Some kellyFraction;
       recommendation :=
         Some (if Double.gtb size 0
               then "Optimal position size: $" ++ Double.toFixed size 2
                    ++ " (" ++ Double.toFixed (kp * 100) 1 ++ "% of portfolio)"
               else "Current strategy not profitable - avoid trading") |}.

End AdvancedRiskDouble.

(** ** lib/risk-advanced.mjs: price levels of one position *)
Module RiskAdvanced.

Local Open Scope Q_scope.

(** A side is the string the caller passed; every test in the source is
    [side === 'buy'], so any other string takes the short branch. *)
Definition is_buy (side : string) : bool := String.eqb side "buy".

Definition calculateStopLoss (side : string) (entryPrice stopLossPercent : Q) : Q :=
  if is_buy side
  then entryPrice * (1 - stopLossPercent / 100)
  else entryPrice * (1 + stopLossPercent / 100).

Definition calculateTakeProfit (side : string) (entryPrice takeProfitPercent : Q) : Q :=
  if is_buy side
  then entryPrice * (1 + takeProfitPercent / 100)
  else entryPrice * (1 - takeProfitPercent / 100).

Record TrailingUpdate := mkTrailing {
  newStopLoss : Q;
  trailingActivated : bool;
  profitLocked : Q
}.

Definition updateTrailingStop (side : string)
  (currentPrice entryPrice currentStopLoss trailingPercent : Q) : TrailingUpdate :=
  let unchanged :=
    {| newStopLoss := currentStopLoss; trailingActivated := false;
       profitLocked := 0 |} in
  if is_buy side then
    let profitPercent := ((currentPrice - entryPrice) / entryPrice) * 100 in
    if Js.gtb profitPercent 0 then
      let trailingStopPrice := currentPrice * (1 - trailingPercent / 100) in
      if Js.gtb trailingStopPrice currentStopLoss then
        {| newStopLoss := trailingStopPrice; trailingActivated := true;
           profitLocked := ((trailingStopPrice - entryPrice) / entryPrice) * 100 |}
      else unchanged
    else unchanged
  else
    let profitPercent := ((entryPrice - currentPrice) / entryPrice) * 100 in
    if Js.gtb profitPercent 0 then
      let trailingStopPrice := currentPrice * (1 + trailingPercent / 100) in
      if Js.ltb trailingStopPrice currentStopLoss then
        {| newStopLoss := trailingStopPrice; trailingActivated := true;
           profitLocked := ((entryPrice - trailingStopPrice) / entryPrice) * 100 |}
      else unchanged
    else unchanged.

Definition isStopLossHit (side : string) (currentPrice stopLossPrice : Q) : bool :=
  if is_buy side then Js.leb currentPrice stopLossPrice
  else Js.geb currentPrice stopLossPrice.

Definition isTakeProfitHit (side : string) (currentPrice takeProfitPrice : Q) : bool :=
  if is_buy side then Js.geb currentPrice takeProfitPrice
  else Js.leb currentPrice takeProfitPrice.

Record TakeProfitLevel := mkLevel {
  positionPercent : Q;
  profitTarget : Q;
  price : Q
}.

Definition calculateMultipleTakeProfits (side : string)
  (entryPrice targetPercent : Q) : list TakeProfitLevel :=
  map (fun l : Q * Q =>
         {| positionPercent := l.1;
            profitTarget := l.2;
            price := calculateTakeProfit side entryPrice l.2 |})
      [ (25, targetPercent * (5 # 10));
        (25, targetPercent * (75 # 100));
        (25, targetPercent);
        (25, targetPercent * (15 # 10)) ].

Record RiskConfig := mkRiskConfig {
  stopLossPercent : Q;
  takeProfitPercent : Q;
  trailingStopPercent : Q;
  riskPercentOfPortfolio : Q;
  useTrailingStop : bool;
  useMultipleTakeProfits : bool
}.

Definition DEFAULT_RISK_CONFIG : RiskConfig :=
  {| stopLossPercent := 2;
     takeProfitPercent := 5;
     trailingStopPercent := 15 # 10;
     riskPercentOfPortfolio := 2;
     useTrailingStop := true;
     useMultipleTakeProfits := true |}.

(** *** Position sizing from the risk budget *)

Record PositionSize := mkPositionSize {
  ps_positionSize : Q;
  ps_notional : Q;
  sharesQuantity : Q;
  riskDollar : Q;
  riskPercent : Q;
  capped : bool;
  ps_reason : option string
}.

Definition calculateRiskBasedPositionSize (portfolioValue entryPrice stopLossPrice : Q)
  (riskPercentOfPortfolio_arg : option Q) : PositionSize :=
  let riskPercentOfPortfolio :=
    match riskPercentOfPortfolio_arg with Some r => r | None => 2 end in
  let maxRiskDollar := portfolioValue * (riskPercentOfPortfolio / 100) in
  let riskPerShare := Js.Math_abs (entryPrice - stopLossPrice) in
  let shares := maxRiskDollar / riskPerShare in
  let notional := shares * entryPrice in
  let maxPositionSize := portfolioValue * (25 # 100) in
  if Js.gtb notional maxPositionSize then
    let adjustedShares := maxPositionSize / entryPrice in
    {| ps_positionSize := maxPositionSize;
       ps_notional := maxPositionSize;
       sharesQuantity := adjustedShares;
       riskDollar := adjustedShares * riskPerShare;
       riskPercent := (adjustedShares * riskPerShare / portfolioValue) * 100;
       capped := true;
       ps_reason := Some "Position capped at 25% of portfolio for diversification" |}
  else
    {| ps_positionSize := notional;
       ps_notional := notional;
       sharesQuantity := shares;
       riskDollar := maxRiskDollar;
       riskPercent := riskPercentOfPortfolio;
       capped := false;
       ps_reason := None |}.

End RiskAdvanced.

(** ** lib/risk-advanced.mjs over binary64: validation of risk parameters *)
Module RiskAdvancedDouble.

Import PrimFloat.
Local Open Scope float_scope.

(** The three properties [validateRiskParameters] reads; [None] is a
    missing property. *)
Record RiskParams := mkRiskParams {
  stopLossPercent : option float;
  takeProfitPercent : option float;
  trailingStopPercent : option float
}.

Record RiskValidation := mkRiskValidation {
  valid : bool;
  errors : list string
}.

(** Truthiness of a property: present, and neither [NaN] nor a zero. *)
Definition truthy (x : option float) : bool :=
  match x with Some v => Double.truthy v | None => false end.

(** A comparison with a missing operand is false. *)
Definition cmp (f : float -> float -> bool) (x y : option float) : bool :=
  match x, y with Some a, Some b => f a b | _, _ => false end.

Definition validateRiskParameters (params : RiskParams) : RiskValidation :=
  let sl := stopLossPercent params in
  let tp := takeProfitPercent params in
  let tr := trailingStopPercent params in
  let e1 := if negb (truthy sl) || cmp leb sl (Some 0)
               || cmp Double.gtb sl (Some 50)
            then ["Stop-loss percent must be between 0 and 50"] else [] in
  let e2 := if negb (truthy tp) || cmp leb tp (Some 0)
            then ["Take-profit percent must be positive"] else [] in
  let e3 := match sl, tp with
            | Some s, Some t =>
                if truthy sl && truthy tp then
                  let riskRewardRatio := t / s in
                  if riskRewardRatio <? 1.5
                  then ["Risk/reward ratio " ++ Double.toFixed riskRewardRatio 2
                        ++ " is too low (minimum 1.5:1)"]
                  else []
                else []
            | _, _ => []
            end in
  let e4 := if truthy tr && (cmp leb tr (Some 0) || cmp Double.gtb tr sl)
            then ["Trailing stop percent must be positive and less than stop-loss percent"]
            else [] in
  let errs := (e1 ++ e2 ++ e3 ++ e4)%list in
  {| valid := match errs with [] => true | _ => false end; errors := errs |}.

End RiskAdvancedDouble.

(** ** lib/order-manager.mjs: the table of active positions *)
Module OrderManager.

Import RiskAdvanced.
Local Open Scope Q_scope.

Record Position := mkPosition {
  id : string;
  symbol : string;
  side : string;
  entryPrice : Q;
  quantity : Q;
  notional : Q;
  entryTime : Z;
  stopLossPrice : Q;
  p_stopLossPercent : Q;
  takeProfitPrice : Q;
  p_takeProfitPercent : Q;
  trailingStopEnabled : bool;
  p_trailingStopPercent : Q;
  p_trailingActivated : bool;
  multipleTakeProfits : list TakeProfitLevel;
  takeProfitsHit : list nat;
  highestPrice : Q;
  lowestPrice : Q;
  currentPrice : Q;
  unrealizedPnl : Q;
  unrealizedPnlPercent : Q;
  status : string;
  exitReason : option string;
  exitPrice : option Q;
  exitTime : option Z;
  realizedPnl : option Q;
  realizedPnlPercent : option Q
}.

(** The filled entry order handed to [createPosition]. *)
Record TradeFill := mkFill {
  t_id : string;
  t_symbol : string;
  t_side : string;
  t_price : Q;
  t_quantity : Q;
  t_notional : Q
}.

(** [activePositions], a [Map] from position id to the position object.
    The objects are only reached through the map, so mutating one is
    re-inserting it under its key. *)
Abbreviation Store := (gmap string Position).

Definition createPosition (store : Store) (now : Z) (trade : TradeFill)
  (riskConfig : RiskConfig) : Position * Store :=
  let position :=
    {| id := t_id trade;
       symbol := t_symbol trade;
       side := t_side trade;
       entryPrice := t_price trade;
       quantity := t_quantity trade;
       notional := t_notional trade;
       entryTime := now;
       stopLossPrice :=
         calculateStopLoss (t_side trade) (t_price trade) (stopLossPercent riskConfig);
       p_stopLossPercent := stopLossPercent riskConfig;
       takeProfitPrice :=
         calculateTakeProfit (t_side trade) (t_price trade) (takeProfitPercent riskConfig);
       p_takeProfitPercent := takeProfitPercent riskConfig;
       trailingStopEnabled := useTrailingStop riskConfig;
       p_trailingStopPercent := trailingStopPercent riskConfig;
       p_trailingActivated := false;
       multipleTakeProfits :=
         if useMultipleTakeProfits riskConfig
         then calculateMultipleTakeProfits (t_side trade) (t_price trade)
                (takeProfitPercent riskConfig)
         else [];
       takeProfitsHit := [];
       highestPrice := t_price trade;
       lowestPrice := t_price trade;
       currentPrice := t_price trade;
       unrealizedPnl := 0;
       unrealizedPnlPercent := 0;
       status := "open";
       exitReason := None;
       exitPrice := None;
       exitTime := None;
       realizedPnl := None;
       realizedPnlPercent := None |} in
  (position, <[ t_id trade := position ]> store).

(** Lines 87-101 of [updatePosition]: current price, watermarks and
    unrealized P&L. *)
Definition mark (p : Position) (price : Q) : Position :=
  let buy := is_buy (side p) in
  {| id := id p; symbol := symbol p; side := side p;
     entryPrice := entryPrice p; quantity := quantity p;
     notional := notional p; entryTime := entryTime p;
     stopLossPrice := stopLossPrice p;
     p_stopLossPercent := p_stopLossPercent p;
     takeProfitPrice := takeProfitPrice p;
     p_takeProfitPercent := p_takeProfitPercent p;
     trailingStopEnabled := trailingStopEnabled p;
     p_trailingStopPercent := p_trailingStopPercent p;
     p_trailingActivated := p_trailingActivated p;
     multipleTakeProfits := multipleTakeProfits p;
     takeProfitsHit := takeProfitsHit p;
     highestPrice := Js.Math_max (highestPrice p) price;
     lowestPrice := Js.Math_min (lowestPrice p) price;
     currentPrice := price;
     unrealizedPnl :=
       if buy then (price - entryPrice p) * quantity p
       else (entryPrice p - price) * quantity p;
     unrealizedPnlPercent :=
       if buy then ((price - entryPrice p) / entryPrice p) * 100
       else ((entryPrice p - price) / entryPrice p) * 100;
     status := status p; exitReason := exitReason p;
     exitPrice := exitPrice p; exitTime := exitTime p;
     realizedPnl := realizedPnl p;
     realizedPnlPercent := realizedPnlPercent p |}.

Definition set_stop (p : Position) (stop : Q) : Position :=
  {| id := id p; symbol := symbol p; side := side p;
     entryPrice := entryPrice p; quantity := quantity p;
     notional := notional p; entryTime := entryTime p;
     stopLossPrice := stop;
     p_stopLossPercent := p_stopLossPercent p;
     takeProfitPrice := takeProfitPrice p;
     p_takeProfitPercent := p_takeProfitPercent p;
     trailingStopEnabled := trailingStopEnabled p;
     p_trailingStopPercent := p_trailingStopPercent p;
     p_trailingActivated := true;
     multipleTakeProfits := multipleTakeProfits p;
     takeProfitsHit := takeProfitsHit p;
     highestPrice := highestPrice p; lowestPrice := lowestPrice p;
     currentPrice := currentPrice p;
     unrealizedPnl := unrealizedPnl p;
     unrealizedPnlPercent := unrealizedPnlPercent p;
     status := status p; exitReason := exitReason p;
     exitPrice := exitPrice p; exitTime := exitTime p;
     realizedPnl := realizedPnl p;
     realizedPnlPercent := realizedPnlPercent p |}.

Definition push_hit (p : Position) (index : nat) : Position :=
  {| id := id p; symbol := symbol p; side := side p;
     entryPrice := entryPrice p; quantity := quantity p;
     notional := notional p; entryTime := entryTime p;
     stopLossPrice := stopLossPrice p;
     p_stopLossPercent := p_stopLossPercent p;
     takeProfitPrice := takeProfitPrice p;
     p_takeProfitPercent := p_takeProfitPercent p;
     trailingStopEnabled := trailingStopEnabled p;
     p_trailingStopPercent := p_trailingStopPercent p;
     p_trailingActivated := p_trailingActivated p;
     multipleTakeProfits := multipleTakeProfits p;
     takeProfitsHit := (takeProfitsHit p ++ [index])%list;
     highestPrice := highestPrice p; lowestPrice := lowestPrice p;
     currentPrice := currentPrice p;
     unrealizedPnl := unrealizedPnl p;
     unrealizedPnlPercent := unrealizedPnlPercent p;
     status := status p; exitReason := exitReason p;
     exitPrice := exitPrice p; exitTime := exitTime p;
     realizedPnl := realizedPnl p;
     realizedPnlPercent := realizedPnlPercent p |}.

(** Lines 103-121: the trailing-stop update on the marked position. *)
Definition trail (p : Position) (price : Q) : Position :=
  if trailingStopEnabled p && Js.gtb (unrealizedPnlPercent p) 0 then
    let u := updateTrailingStop (side p) price (entryPrice p)
               (stopLossPrice p) (p_trailingStopPercent p) in
    if trailingActivated u then set_stop p (newStopLoss u) else p
  else p.

(** The position as it stands when the exit checks start. *)
Definition refresh (p : Position) (price : Q) : Position :=
  trail (mark p price) price.

(** The [for (const [index, tp] of ...entries())] loop: the first rung,
    in ladder order, that is not yet hit and whose price is touched. *)
Fixpoint first_rung (side : string) (price : Q) (hit : list nat)
  (index : nat) (rungs : list TakeProfitLevel) : option (nat * TakeProfitLevel) :=
  match rungs with
  | [] => None
  | tp :: rest =>
      if existsb (Nat.eqb index) hit then first_rung side price hit (S index) rest
      else if isTakeProfitHit side price (RiskAdvanced.price tp)
           then Some (index, tp)
           else first_rung side price hit (S index) rest
  end.

Record UpdateResult := mkResult {
  position : option Position;
  triggered : bool;
  action : option string;
  level : option nat;
  percentToClose : option Q;
  r_exitPrice : option Q;
  pnl : option Q;
  pnlPercent : option Q
}.

(** Exit checks of lines 123-186 on one refreshed position: the result
    and the position as the function leaves it. *)
Definition check_exits (p : Position) (price : Q) : UpdateResult * Position :=
  if isStopLossHit (side p) price (stopLossPrice p) then
    ({| position := Some p; triggered := true; action := Some "stop-loss";
        level := None; percentToClose := None;
        r_exitPrice := Some price;
        pnl := Some (unrealizedPnl p);
        pnlPercent := Some (unrealizedPnlPercent p) |}, p)
  else if isTakeProfitHit (side p) price (takeProfitPrice p) then
    ({| position := Some p; triggered := true; action := Some "take-profit";
        level := None; percentToClose := None;
        r_exitPrice := Some price;
        pnl := Some (unrealizedPnl p);
        pnlPercent := Some (unrealizedPnlPercent p) |}, p)
  else
    match first_rung (side p) price (takeProfitsHit p) 0 (multipleTakeProfits p) with
    | Some (index, tp) =>
        let p' := push_hit p index in
        ({| position := Some p'; triggered := true;
            action := Some "partial-take-profit";
            level := Some (index + 1)%nat;
            percentToClose := Some (positionPercent tp);
            r_exitPrice := Some price;
            pnl := Some (unrealizedPnl p * (positionPercent tp / 100));
            pnlPercent := Some (unrealizedPnlPercent p) |}, p')
    | None =>
        ({| position := Some p; triggered := false; action := None;
            level := None; percentToClose := None; r_exitPrice := None;
            pnl := None; pnlPercent := None |}, p)
    end.

Definition updatePosition (store : Store) (positionId : string) (price : Q)
  : UpdateResult * Store :=
  match store !! positionId with
  | None =>
      ({| position := None; triggered := false; action := None;
          level := None; percentToClose := None; r_exitPrice := None;
          pnl := None; pnlPercent := None |}, store)
  | Some p =>
      let '(r, p') := check_exits (refresh p price) price in
      (r, <[ positionId := p' ]> store)
  end.

(** A run of price updates for one position id; the results are dropped,
    the store is threaded. *)
Definition updates (store : Store) (positionId : string) (prices : list Q) : Store :=
  fold_left (fun st price => (updatePosition st positionId price).2) prices store.

Definition stop_of (store : Store) (positionId : string) : option Q :=
  stopLossPrice <$> store !! positionId.

(** [closePosition]: the closed position (or [null]) and the map without
    it. *)
Definition closePosition (store : Store) (now : Z) (positionId : string)
  (exit : Q) (why : string) : option Position * Store :=
  match store !! positionId with
  | None => (None, store)
  | Some p =>
      let buy := is_buy (side p) in
      let closed :=
        {| id := id p; symbol := symbol p; side := side p;
           entryPrice := entryPrice p; quantity := quantity p;
           notional := notional p; entryTime := entryTime p;
           stopLossPrice := stopLossPrice p;
           p_stopLossPercent := p_stopLossPercent p;
           takeProfitPrice := takeProfitPrice p;
           p_takeProfitPercent := p_takeProfitPercent p;
           trailingStopEnabled := trailingStopEnabled p;
           p_trailingStopPercent := p_trailingStopPercent p;
           p_trailingActivated := p_trailingActivated p;
           multipleTakeProfits := multipleTakeProfits p;
           takeProfitsHit := takeProfitsHit p;
           highestPrice := highestPrice p; lowestPrice := lowestPrice p;
           currentPrice := currentPrice p;
           unrealizedPnl := unrealizedPnl p;
           unrealizedPnlPercent := unrealizedPnlPercent p;
           status := "closed";
           exitReason := Some why;
           exitPrice := Some exit;
           exitTime := Some now;
           realizedPnl :=
             Some (if buy then (exit - entryPrice p) * quantity p
                   else (entryPrice p - exit) * quantity p);
           realizedPnlPercent :=
             Some (if buy then ((exit - entryPrice p) / entryPrice p) * 100
                   else ((entryPrice p - exit) / entryPrice p) * 100) |} in
      (Some closed, delete positionId store)
  end.

Definition getPosition (store : Store) (positionId : string) : option Position :=
  store !! positionId.

(** The body of the monitor loop for one trigger (automation, lines
    458-470): every triggered result, whatever its action, is followed by
    [closePosition(trigger.position.id, trigger.exitPrice, trigger.action)]. *)
Definition exit_on_trigger (store : Store) (now : Z) (trigger : UpdateResult)
  : option Position * Store :=
  if triggered trigger then
    match position trigger, r_exitPrice trigger, action trigger with
    | Some p, Some x, Some a => closePosition store now (id p) x a
    | _, _, _ => (None, store)
    end
  else (None, store).

End OrderManager.

(** ** Candles *)

(** The adapter produces [time, open, high, low, close, volume]; the
    volume analysis reads a property [v], which is kept as an optional
    field of its own. *)
Record Candle := mkCandle {
  time : Z;
  open : Q;
  high : Q;
  low : Q;
  close : Q;
  volume : Q;
  v : option Q
}.

(** ** lib/indicators.mjs *)
Module Indicators.

Local Open Scope Q_scope.

(** [arr[i]] for an index inside the array. *)
Definition at_ (values : list Q) (i : nat) : Q := nth i values 0.
Definition opt_at (values : list (option Q)) (i : nat) : option Q :=
  nth i values None.

Definition of_nat (n : nat) : Q := inject_Z (Z.of_nat n).

(** [sma]: one pass with a running sum; the loop state is the sum and
    the output written so far. *)
Definition sma_step (values : list Q) (n : nat)
  (acc : Q * list (option Q)) (i : nat) : Q * list (option Q) :=
  let '(sum, out) := acc in
  let sum1 := sum + at_ values i in
  let sum2 := if (n <=? i)%nat then sum1 - at_ values (i - n) else sum1 in
  (sum2,
   (out ++ [if (n <=? i + 1)%nat then Some (sum2 / of_nat n) else None])%list).

Definition sma (values : list Q) (n : nat) : list (option Q) :=
  (fold_left (sma_step values n) (seq 0 (length values)) (0, [])).2.

Definition momentum (values : list Q) (period : nat) : list (option Q) :=
  map (fun i =>
         if (i <? period)%nat then None
         else Some (((at_ values i - at_ values (i - period))
                     / at_ values (i - period)) * 100))
      (seq 0 (length values)).

Record SmaSignal := mkSmaSignal {
  signal : string;
  a : list (option Q);
  b : list (option Q);
  lastIdx : Z
}.

Definition cross_step (a b : list (option Q)) (acc : string * Z) (i : nat)
  : string * Z :=
  match opt_at a (i - 1), opt_at b (i - 1), opt_at a i, opt_at b i with
  | Some a0, Some b0, Some a1, Some b1 =>
      let prev := a0 - b0 in
      let cur := a1 - b1 in
      let acc1 := if Js.leb prev 0 && Js.gtb cur 0
                  then ("buy", Z.of_nat i) else acc in
      if Js.geb prev 0 && Js.ltb cur 0 then ("sell", Z.of_nat i) else acc1
  | _, _, _, _ => acc
  end.

Definition lastSmaSignal (closes : list Q) (shortN longN : nat) : SmaSignal :=
  let a := sma closes shortN in
  let b := sma closes longN in
  let '(sig, idx) :=
    fold_left (cross_step a b) (seq 1 (length closes - 1)) ("hold", (-1)%Z) in
  {| signal := sig; a := a; b := b; lastIdx := idx |}.

(** The boolean [profitOpportunity] of [assessProfitOpportunity]; the
    other properties of its result are display strings. *)
Record Thresholds := mkThresholds {
  momentumThreshold : Q;
  smaDiffThreshold : Q;
  pricePositionPercent : Q
}.

Definition default_thresholds : Thresholds :=
  {| momentumThreshold := 8 # 10;
     smaDiffThreshold := 25 # 100;
     pricePositionPercent := 5 # 100 |}.

(** A [null] last momentum compares as 0. *)
Definition or0 (x : option Q) : Q := match x with Some q => q | None => 0 end.

Definition truthy (x : option Q) : bool :=
  match x with Some q => negb (Js.eqb q 0) | None => false end.

Definition profitOpportunity (closes : list Q) (shortN longN : nat)
  (th : Thresholds) : bool :=
  let n := length closes in
  let currentPrice := at_ closes (n - 1) in
  let a := sma closes shortN in
  let b := sma closes longN in
  let mom := momentum closes 14 in
  let currentMomentum := or0 (opt_at mom (length mom - 1)) in
  let avgPrice := fold_left Qplus (skipn (n - 20) closes) 0 / 20 in
  let shortSMA := opt_at a (length a - 1) in
  let longSMA := opt_at b (length b - 1) in
  let smaDiff :=
    if truthy shortSMA && truthy longSMA
    then ((or0 shortSMA - or0 longSMA) / or0 longSMA) * 100 else 0 in
  if Js.gtb currentMomentum (momentumThreshold th)
     && Js.gtb smaDiff (smaDiffThreshold th)
     && Js.ltb currentPrice (avgPrice * (1 + pricePositionPercent th))
  then true
  else if Js.ltb currentMomentum (- momentumThreshold th)
          && Js.ltb smaDiff (- smaDiffThreshold th)
          && Js.gtb currentPrice (avgPrice * (1 - pricePositionPercent th))
       then true
       else false.

End Indicators.

(** ** lib/indicators-advanced.mjs *)
Module IndicatorsAdvanced.

Import Indicators.
Local Open Scope Q_scope.

(** *** RSI *)

(** The price change at index [i] (at least 1). *)
Definition change (closes : list Q) (i : nat) : Q :=
  at_ closes i - at_ closes (i - 1).

(** First loop: sums of gains and of losses over changes 1..period. *)
Definition seed_step (closes : list Q) (acc : Q * Q) (i : nat) : Q * Q :=
  let '(gains, losses) := acc in
  let c := change closes i in
  if Js.gtb c 0 then (gains + c, losses) else (gains, losses + Js.Math_abs c).

Definition seed (closes : list Q) (period : nat) : Q * Q :=
  let '(gains, losses) := fold_left (seed_step closes) (seq 1 period) (0, 0) in
  (gains / of_nat period, losses / of_nat period).

(** One round of the second loop on (avgGain, avgLoss). *)
Definition smooth (closes : list Q) (period : nat) (avg : Q * Q) (i : nat) : Q * Q :=
  let '(avgGain, avgLoss) := avg in
  let c := change closes i in
  let gain := if Js.gtb c 0 then c else 0 in
  let loss := if Js.ltb c 0 then Js.Math_abs c else 0 in
  ((avgGain * (of_nat period - 1) + gain) / of_nat period,
   (avgLoss * (of_nat period - 1) + loss) / of_nat period).

(** The value stored from the current averages. *)
Definition rsi_value (avg : Q * Q) : Q :=
  let '(avgGain, avgLoss) := avg in
  let rs := if Js.eqb avgLoss 0 then 100 else avgGain / avgLoss in
  100 - 100 / (1 + rs).

(** [averages closes period k]: (avgGain, avgLoss) when index
    [period + k] is written. *)
Fixpoint averages (closes : list Q) (period k : nat) : Q * Q :=
  match k with
  | O => seed closes period
  | S k' => smooth closes period (averages closes period k') (period + S k')
  end.

Definition rsi (closes : list Q) (period : nat) : list (option Q) :=
  let n := length closes in
  if (n <? period + 1)%nat then repeat None n
  else
    (repeat None period
     ++ map (fun k => Some (rsi_value (averages closes period k)))
            (seq 0 (n - period)))%list.

(** *** Volume *)

Record VolumeAnalysis := mkVolume {
  currentVolume : Q;
  avgVolume : Q;
  volumeRatio : Q;
  increasing : bool;
  aboveAverage : bool
}.

Definition v_or_0 (c : Candle) : Q := or0 (v c).

Definition analyzeVolume (candles : list Candle) (period : nat) : VolumeAnalysis :=
  let n := length candles in
  if (n <? period)%nat then
    {| currentVolume := match last candles with
                        | Some c => v_or_0 c | None => 0 end;
       avgVolume := 0; volumeRatio := 0; increasing := false;
       aboveAverage := false |}
  else
    let volumes := map v_or_0 candles in
    let cur := at_ volumes (n - 1) in
    let recent := if (period =? 0)%nat then volumes else skipn (n - period) volumes in
    let avg := fold_left Qplus recent 0 / of_nat period in
    let ratio := if Js.gtb avg 0 then cur / avg else 0 in
    let last3 := skipn (n - 3) volumes in
    let inc :=
      match last3 with
      | [x0; x1; x2] => Js.gtb x2 x1 && Js.gtb x1 x0
      | _ => false
      end in
    {| currentVolume := cur; avgVolume := avg; volumeRatio := ratio;
       increasing := inc; aboveAverage := Js.gtb ratio (12 # 10) |}.

(** *** Interpretations *)

Record Interpretation := mkInterp {
  i_signal : string;
  strength : Q;
  condition : string
}.

Definition interpretRSI (rsiValue : option Q) : Interpretation :=
  match rsiValue with
  | None => {| i_signal := "neutral"; strength := 0; condition := "calculating" |}
  | Some r =>
      if Js.gtb r 70 then
        {| i_signal := "sell"; strength := Js.Math_min ((r - 70) / 30) 1;
           condition := "overbought" |}
      else if Js.ltb r 30 then
        {| i_signal := "buy"; strength := Js.Math_min ((30 - r) / 30) 1;
           condition := "oversold" |}
      else if Js.gtb r 60 then
        {| i_signal := "sell"; strength := 3 # 10; condition := "strong" |}
      else if Js.ltb r 40 then
        {| i_signal := "buy"; strength := 3 # 10; condition := "weak" |}
      else
        {| i_signal := "neutral"; strength := 0; condition := "neutral" |}
  end.

Record MacdPoint := mkMacdPoint {
  m_macd : option Q;
  m_signal : option Q;
  m_histogram : option Q
}.

Definition interpretMACD (macdData : MacdPoint) (prevHistogram : option Q)
  : Interpretation :=
  match m_macd macdData, m_signal macdData, m_histogram macdData with
  | Some _, Some _, Some h =>
      let prev := or0 prevHistogram in
      if Js.gtb h 0 && Js.leb prev 0 then
        {| i_signal := "buy"; strength := 8 # 10; condition := "bullish_crossover" |}
      else if Js.ltb h 0 && Js.geb prev 0 then
        {| i_signal := "sell"; strength := 8 # 10; condition := "bearish_crossover" |}
      else if Js.gtb h 0 then
        {| i_signal := "buy";
           strength := Js.Math_min (Js.Math_abs h / 100) (5 # 10);
           condition := "bullish" |}
      else if Js.ltb h 0 then
        {| i_signal := "sell";
           strength := Js.Math_min (Js.Math_abs h / 100) (5 # 10);
           condition := "bearish" |}
      else
        {| i_signal := "neutral"; strength := 0; condition := "neutral" |}
  | _, _, _ =>
      {| i_signal := "neutral"; strength := 0; condition := "calculating" |}
  end.

Record BandPoint := mkBandPoint {
  upper : option Q;
  middle : option Q;
  lower : option Q
}.

Definition interpretBollingerBands (currentPrice : Q) (bbData : BandPoint)
  : Interpretation :=
  match upper bbData, middle bbData, lower bbData with
  | Some up, Some _, Some lo =>
      let bandwidth := up - lo in
      if Js.eqb bandwidth 0 then
        (* Bands of no width: the quotient is an infinity with the sign of
           the numerator, which the first two tests sort, or [NaN], which
           fails every test. *)
        if Js.ltb (currentPrice - lo) 0 then
          {| i_signal := "buy"; strength := 7 # 10; condition := "oversold" |}
        else if Js.gtb (currentPrice - lo) 0 then
          {| i_signal := "sell"; strength := 7 # 10; condition := "overbought" |}
        else
          {| i_signal := "buy"; strength := 3 # 10; condition := "normal" |}
      else
      let percentB := (currentPrice - lo) / bandwidth in
      if Js.leb percentB (1 # 10) then
        {| i_signal := "buy"; strength := 7 # 10; condition := "oversold" |}
      else if Js.geb percentB (9 # 10) then
        {| i_signal := "sell"; strength := 7 # 10; condition := "overbought" |}
      else if Js.geb percentB (4 # 10) && Js.leb percentB (6 # 10) then
        {| i_signal := "neutral"; strength := 0; condition := "neutral" |}
      else
        {| i_signal := if Js.gtb percentB (5 # 10) then "sell" else "buy";
           strength := 3 # 10; condition := "normal" |}
  | _, _, _ =>
      {| i_signal := "neutral"; strength := 0; condition := "calculating" |}
  end.

(** The series returned by [macd] and [bollingerBands]: arrays of the
    length of their input. *)
Record MacdSeries := mkMacdSeries {
  s_macd : list (option Q);
  s_signal : list (option Q);
  s_histogram : list (option Q)
}.

Record BandSeries := mkBandSeries {
  s_upper : list (option Q);
  s_middle : list (option Q);
  s_lower : list (option Q)
}.

End IndicatorsAdvanced.

(** ** lib/signal-composer.mjs *)
Module SignalComposer.

Import Indicators IndicatorsAdvanced.
Local Open Scope Q_scope.

(** The configuration after the destructuring defaults are filled in. *)
Record Config := mkConfig {
  useSMA : bool;
  useRSI : bool;
  useMACD : bool;
  useBollingerBands : bool;
  useVolume : bool;
  rsiPeriod : nat;
  macdFast : nat;
  macdSlow : nat;
  macdSignal : nat;
  bbPeriod : nat;
  bbStdDev : Q
}.

Definition default_config : Config :=
  {| useSMA := true; useRSI := true; useMACD := true;
     useBollingerBands := true; useVolume := true;
     rsiPeriod := 14; macdFast := 12; macdSlow := 26; macdSignal := 9;
     bbPeriod := 20; bbStdDev := 2 |}.

(** An element of the [signals] array. *)
Record Vote := mkVote {
  vote : string;
  weight : Q;
  source : string
}.

(** The returned record.  Its [indicators] property, a per-indicator
    record of the readings for display, is not among the fields kept. *)
Record Composite := mkComposite {
  c_signal : string;
  confidence : Z;
  c_reason : string;
  buyScore : option string;
  sellScore : option string;
  c_signals : list (string * string * string);
  c_price : option Q;
  timestamp : option Z
}.

Definition is_vote (side : string) (s : Vote) : bool := String.eqb (vote s) side.

(** The weighted vote of lines 180-190. *)
Definition tally (signals : list Vote) : Q * Q :=
  fold_left
    (fun (acc : Q * Q) (sig : Vote) =>
       if is_vote "buy" sig then (acc.1 + weight sig, acc.2)
       else if is_vote "sell" sig then (acc.1, acc.2 + weight sig)
       else acc)
    signals (0, 0).

(** Lines 192-207: the final signal and the confidence before rounding. *)
Definition decide_vote (buy sell : Q) : string * Q :=
  let totalWeight := buy + sell in
  if Js.eqb totalWeight 0 then ("hold", 0)
  else if Js.gtb buy sell then ("buy", buy / totalWeight)
  else if Js.gtb sell buy then ("sell", sell / totalWeight)
  else ("hold", 0).

Definition join (sep : string) (l : list string) : string := String.concat sep l.

Definition reason_of (finalSignal : string) (signals : list Vote) : string :=
  let buys := filter (fun s => is_vote "buy" s = true) signals in
  let sells := filter (fun s => is_vote "sell" s = true) signals in
  if String.eqb finalSignal "buy" then
    Js.Number_toString (Z.of_nat (length buys)) ++ " bullish indicators: "
    ++ join ", " (map source buys)
  else if String.eqb finalSignal "sell" then
    Js.Number_toString (Z.of_nat (length sells)) ++ " bearish indicators: "
    ++ join ", " (map source sells)
  else "Mixed signals, no clear direction".

Section Composer.

(** [macd] and [bollingerBands] (an EMA recursion and [Math.sqrt]) enter
    as the series they return, arrays as long as the closes they are
    given, so that the reads at [length - 1] and [length - 2] below are
    inside the array on the path that makes them (100 closes or more). *)
Variable macd : list Q -> nat -> nat -> nat -> MacdSeries.
Variable bollingerBands : list Q -> nat -> Q -> BandSeries.

Definition last_of (l : list (option Q)) : option Q := opt_at l (length l - 1).

Definition sma_votes (closes : list Q) : list Vote :=
  let r := lastSmaSignal closes 12 26 in
  if String.eqb (signal r) "buy" then
    [ {| vote := "buy"; weight := 1; source := "SMA" |} ]
  else if String.eqb (signal r) "sell" then
    [ {| vote := "sell"; weight := 1; source := "SMA" |} ]
  else [].

Definition interp_votes (w : Q) (src : string) (it : Interpretation) : list Vote :=
  if String.eqb (i_signal it) "neutral" then []
  else [ {| vote := i_signal it; weight := w * strength it; source := src |} ].

Definition rsi_votes (closes : list Q) (cfg : Config) : list Vote :=
  interp_votes (9 # 10) "RSI" (interpretRSI (last_of (rsi closes (rsiPeriod cfg)))).

Definition macd_votes (closes : list Q) (cfg : Config) : list Vote :=
  let r := macd closes (macdFast cfg) (macdSlow cfg) (macdSignal cfg) in
  let cur := {| m_macd := last_of (s_macd r);
                m_signal := last_of (s_signal r);
                m_histogram := last_of (s_histogram r) |} in
  let prevHistogram := opt_at (s_histogram r) (length (s_histogram r) - 2) in
  interp_votes 1 "MACD" (interpretMACD cur prevHistogram).

Definition bb_votes (closes : list Q) (cfg : Config) : list Vote :=
  let bb := bollingerBands closes (bbPeriod cfg) (bbStdDev cfg) in
  let cur := {| upper := last_of (s_upper bb);
                middle := last_of (s_middle bb);
                lower := last_of (s_lower bb) |} in
  interp_votes (8 # 10) "BB"
    (interpretBollingerBands (at_ closes (length closes - 1)) cur).

(** The volume block appends to the votes collected so far. *)
Definition volume_votes (candles : list Candle) (signals : list Vote) : list Vote :=
  if aboveAverage (analyzeVolume candles 20) then
    let s1 := if existsb (is_vote "buy") signals
              then (signals ++ [ {| vote := "buy"; weight := 5 # 10;
                                    source := "Volume" |} ])%list
              else signals in
    if existsb (is_vote "sell") s1
    then (s1 ++ [ {| vote := "sell"; weight := 5 # 10; source := "Volume" |} ])%list
    else s1
  else signals.

(** The [signals] array as it stands at line 180. *)
Definition collect (candles : list Candle) (cfg : Config) : list Vote :=
  let closes := map close candles in
  let s1 := if useSMA cfg then sma_votes closes else [] in
  let s2 := if useRSI cfg then (s1 ++ rsi_votes closes cfg)%list else s1 in
  let s3 := if useMACD cfg then (s2 ++ macd_votes closes cfg)%list else s2 in
  let s4 := if useBollingerBands cfg then (s3 ++ bb_votes closes cfg)%list else s3 in
  if useVolume cfg then volume_votes candles s4 else s4.

Definition composeSignal (now : Z) (candles : list Candle) (cfg : Config)
  : Composite :=
  if (length candles <? 100)%nat then
    {| c_signal := "hold"; confidence := 0;
       c_reason := "Insufficient data for analysis";
       buyScore := None; sellScore := None; c_signals := [];
       c_price := None; timestamp := None |}
  else
    let closes := map close candles in
    let signals := collect candles cfg in
    let '(buy, sell) := tally signals in
    let '(finalSignal, conf) := decide_vote buy sell in
    {| c_signal := finalSignal;
       confidence := Js.Math_round (conf * 100);
       c_reason := reason_of finalSignal signals;
       buyScore := Some (Js.toFixed buy 2);
       sellScore := Some (Js.toFixed sell 2);
       c_signals :=
         map (fun s => (source s, vote s, Js.toFixed (weight s) 2)) signals;
       c_price := Some (at_ closes (length closes - 1));
       timestamp := Some now |}.

End Composer.

Definition isSignalStrong (composedSignal : Composite) (minConfidence : option Z)
  : bool :=
  let m := match minConfidence with Some x => x | None => 60%Z end in
  negb (String.eqb (c_signal composedSignal) "hold")
  && (m <=? confidence composedSignal)%Z.

Definition getSignalStrength (conf : Z) : string :=
  if (80 <=? conf)%Z then "Very Strong"
  else if (70 <=? conf)%Z then "Strong"
  else if (60 <=? conf)%Z then "Moderate"
  else if (50 <=? conf)%Z then "Weak"
  else "Very Weak".

End SignalComposer.

(** ** lib/market-regime.mjs *)
Module MarketRegime.

Local Open Scope Q_scope.

Record TrendAnalysis := mkTrend {
  trending : bool;
  direction : string;
  t_strength : Z;
  emaSeparation : string
}.

Record VolatilityAnalysis := mkVolatility {
  v_high : bool;
  v_score : Q;
  atrPercent : string
}.

Record RangeAnalysis := mkRange {
  ranging : bool;
  r_score : Q;
  oscillations : Z
}.

Record Regime := mkRegime {
  regime : string;
  r_confidence : Z;
  r_reason : string;
  recommendedStrategy : string;
  trend : option TrendAnalysis;
  volatility : option VolatilityAnalysis;
  range : option RangeAnalysis;
  r_currentPrice : option Q;
  r_timestamp : option Z
}.

Definition REGIME_STRATEGIES (regime : string) : string :=
  if String.eqb regime "trending-up" then "momentum"
  else if String.eqb regime "trending-down" then "momentum"
  else if String.eqb regime "ranging" then "mean-reversion"
  else if String.eqb regime "volatile" then "grid-trading"
  else "hold".

Section Classifier.

(** The three sub-analyses (EMA, ATR, Bollinger width, oscillation count)
    enter as functions of the window. *)
Variable analyzeTrend : list Q -> TrendAnalysis.
Variable analyzeVolatility : list Candle -> VolatilityAnalysis.
Variable analyzeRange : list Q -> RangeAnalysis.

Definition trend_regime (t : TrendAnalysis) : string :=
  if String.eqb (direction t) "up" then "trending-up" else "trending-down".

Definition classify (t : TrendAnalysis) (vo : VolatilityAnalysis)
  (ra : RangeAnalysis) : string * Q * string :=
  let s := Js.Number_toString (t_strength t) in
  if trending t && (70 <? t_strength t)%Z then
    (trend_regime t, inject_Z (t_strength t),
     "Strong " ++ direction t ++ "trend: " ++ s ++ "% strength, "
     ++ emaSeparation t ++ "% EMA separation")
  else if v_high vo && ranging ra then
    ("volatile",
     inject_Z (Js.Math_round ((v_score vo * (6 # 10) + r_score ra * (4 # 10)) * 100)),
     "High volatility ranging: " ++ atrPercent vo ++ "% ATR, "
     ++ Js.Number_toString (oscillations ra) ++ " price swings")
  else if ranging ra && negb (v_high vo) then
    ("ranging", r_score ra * 100,
     "Ranging market: " ++ Js.Number_toString (oscillations ra)
     ++ " oscillations, " ++ atrPercent vo ++ "% volatility")
  else if trending t && (50 <? t_strength t)%Z then
    (trend_regime t, inject_Z (t_strength t),
     "Moderate " ++ direction t ++ "trend: " ++ s ++ "% strength")
  else
    ("choppy", 30,
     "Choppy market: No clear trend (" ++ s ++ "%), low volatility ("
     ++ atrPercent vo ++ "%)").

Definition detectMarketRegime (now : Z) (candles : list Candle) : Regime :=
  if (length candles <? 100)%nat then
    {| regime := "choppy"; r_confidence := 0;
       r_reason := "Insufficient data for regime detection";
       recommendedStrategy := "hold";
       trend := None; volatility := None; range := None;
       r_currentPrice := None; r_timestamp := None |}
  else
    let closes := map close candles in
    let t := analyzeTrend closes in
    let vo := analyzeVolatility candles in
    let ra := analyzeRange closes in
    let '(reg, conf, why) := classify t vo ra in
    {| regime := reg; r_confidence := Js.Math_round conf; r_reason := why;
       recommendedStrategy := REGIME_STRATEGIES reg;
       trend := Some t; volatility := Some vo; range := Some ra;
       r_currentPrice := Some (Indicators.at_ closes (length closes - 1));
       r_timestamp := Some now |}.

End Classifier.

End MarketRegime.

(** ** lib/strategy-manager.mjs *)
Module StrategyManager.

Import MarketRegime.
Local Open Scope Q_scope.

(** Module state: [currentRegime] and [lastRegimeCheck]. *)
Record ManagerState := mkManager {
  currentRegime : option Regime;
  lastRegimeCheck : Z
}.

Definition manager0 : ManagerState :=
  {| currentRegime := None; lastRegimeCheck := 0 |}.

Definition REGIME_CHECK_INTERVAL : Z := 300000.
Definition minRegimeConfidence : Z := 60.
Definition defaultStrategy : string := "multi-indicator".

(** Caller options; [None] is an absent property, which the destructuring
    replaces by the entry of [STRATEGY_MANAGER_CONFIG]. The configuration is
    read here at the values the module starts with ([autoSwitch] true,
    [forceStrategy] null); after [setStrategy] or a configuration update the
    entries stand for the values in force. *)
Record Options := mkOptions {
  autoSwitch : option bool;
  forceStrategy : option string
}.

(** What a strategy returns, as far as the manager looks at it. *)
Record StrategySignal := mkStrategySignal {
  ss_signal : string;
  ss_confidence : Q;
  ss_reason : string;
  ss_strategy : option string
}.

Record Decision := mkDecision {
  d_signal : string;
  d_confidence : Q;
  d_reason : string;
  d_strategy : option string;
  d_regime : option Regime;
  strategyUsed : option string;
  regimeConfidence : option Z;
  autoSwitched : option bool
}.

Section Manager.

Variable macd : list Q -> nat -> nat -> nat -> IndicatorsAdvanced.MacdSeries.
Variable bollingerBands : list Q -> nat -> Q -> IndicatorsAdvanced.BandSeries.
Variable analyzeTrend : list Q -> TrendAnalysis.
Variable analyzeVolatility : list Candle -> VolatilityAnalysis.
Variable analyzeRange : list Q -> RangeAnalysis.

(** The four regime strategies, each a function of the window and the
    caller's options. A strategy that throws returns nothing and is outside
    these functions; the regime cache is written before the strategy is
    called. *)
Variable analyzeMeanReversion : list Candle -> Options -> StrategySignal.
Variable analyzeMomentum : list Candle -> Options -> StrategySignal.
Variable analyzeGridTrading : list Candle -> Options -> StrategySignal.
Variable analyzeDayTrading : list Candle -> Options -> StrategySignal.

Definition multi_indicator (now : Z) (candles : list Candle) : StrategySignal :=
  let r := SignalComposer.composeSignal macd bollingerBands now candles
             SignalComposer.default_config in
  {| ss_signal := SignalComposer.c_signal r;
     ss_confidence := inject_Z (SignalComposer.confidence r);
     ss_reason := SignalComposer.c_reason r;
     ss_strategy := Some "multi-indicator" |}.

Definition truthy_string (s : option string) : option string :=
  match s with
  | Some x => if String.eqb x "" then None else Some x
  | None => None
  end.

Definition select (ar : bool) (force : option string) (reg : Regime) : string :=
  match truthy_string force with
  | Some f => f
  | None =>
      if negb ar then defaultStrategy
      else if (r_confidence reg <? minRegimeConfidence)%Z then "multi-indicator"
      else recommendedStrategy reg
  end.

Definition run_strategy (now : Z) (selected : string) (candles : list Candle)
  (opts : Options) : StrategySignal :=
  if String.eqb selected "mean-reversion" then analyzeMeanReversion candles opts
  else if String.eqb selected "momentum" then analyzeMomentum candles opts
  else if String.eqb selected "grid-trading" then analyzeGridTrading candles opts
  else if String.eqb selected "day-trading" then analyzeDayTrading candles opts
  else multi_indicator now candles.

Definition analyzeWithOptimalStrategy (st : ManagerState) (now : Z)
  (candles : list Candle) (opts : Options) : Decision * ManagerState :=
  let ar := match autoSwitch opts with Some x => x | None => true end in
  if (length candles <? 100)%nat then
    ({| d_signal := "hold"; d_confidence := 0;
        d_reason := "Insufficient data for strategy analysis";
        d_strategy := Some "none"; d_regime := None;
        strategyUsed := None; regimeConfidence := None;
        autoSwitched := None |}, st)
  else
    let shouldCheckRegime :=
      match currentRegime st with
      | None => true
      | Some _ => (REGIME_CHECK_INTERVAL <? now - lastRegimeCheck st)%Z
      end in
    let fresh := detectMarketRegime analyzeTrend analyzeVolatility analyzeRange
                   now candles in
    let reg := if shouldCheckRegime then fresh
               else match currentRegime st with Some r => r | None => fresh end in
    let st' := if shouldCheckRegime
               then {| currentRegime := Some reg; lastRegimeCheck := now |}
               else st in
    let selected := select ar (forceStrategy opts) reg in
    let r := run_strategy now selected candles opts in
    ({| d_signal := ss_signal r; d_confidence := ss_confidence r;
        d_reason := ss_reason r; d_strategy := ss_strategy r;
        d_regime := Some reg; strategyUsed := Some selected;
        regimeConfidence := Some (r_confidence reg);
        autoSwitched :=
          Some (ar && String.eqb selected (recommendedStrategy reg)) |}, st').

End Manager.

End StrategyManager.

(** ** lib/backtest.mjs *)
Module Backtest.

Import Indicators.
Local Open Scope Q_scope.

(** The caller's configuration object; [None] is an absent property. *)
Record Config := mkConfig {
  symbol : option string;
  strategy : option string;
  startDate : option Z;
  endDate : option Z;
  initialCapital : option Q;
  positionSize : option Q;
  feeRate : option Q;
  slippage : option Q;
  interval : option string
}.

(** The values [Date.now()] returns at its three call sites: the two
    defaults of the destructuring and [generatedAt]. *)
Record Clock := mkClock {
  at_startDate : Z;
  at_endDate : Z;
  at_generated : Z
}.

Record OpenPosition := mkOpen {
  side : string;
  entry_price : Q;
  amount : Q;
  quantity : Q;
  entry_time : Z;
  entry_index : nat;
  fee : Q
}.

Record Trade := mkTrade {
  id : Z;
  t_symbol : string;
  t_strategy : string;
  t_side : string;
  t_entry_price : Q;
  exit_price : Q;
  t_quantity : Q;
  t_amount : Q;
  t_entry_time : Z;
  exit_time : Z;
  duration : Z;
  pnl : Q;
  pnl_percent : Q;
  t_fee : Q;
  status : string;
  note : option string
}.

Record EquityPoint := mkPoint {
  e_time : Z;
  capital : Q;
  e_trades : Z;
  lastPnl : option Q
}.

(** The four variables the candle loop updates; [cash] is the loop's
    [capital]. *)
Record Sim := mkSim {
  trades : list Trade;
  cash : Q;
  position : option OpenPosition;
  equityCurve : list EquityPoint
}.

Record Summary := mkSummary {
  totalTrades : Z;
  totalDays : Z;
  tradesPerDay : Q;
  s_initialCapital : Q;
  finalCapital : Q;
  totalReturn : Q;
  totalReturnPercent : Q;
  annualizedReturn : Q;
  candlesProcessed : Z
}.

Section Engine.

(** Host functions without a rational model, and the analytics module. *)
Variable Math_sqrt : Q -> Q.
Variable Math_pow : Q -> Q -> Q.
Variable Metrics : Type.
Variable calculatePerformanceMetrics : list Trade -> Q -> Metrics.

Record BacktestRun := mkRun {
  r_config : Config;
  summary : Summary;
  metrics : Metrics;
  r_trades : list Trade;
  r_equityCurve : list EquityPoint;
  generatedAt : Z
}.

Definition getMomentumSignal (closes : list Q) : string :=
  if (length closes <? 20)%nat then "hold"
  else
    let mom := momentum closes 14 in
    match opt_at mom (length mom - 1) with
    | None => "hold"
    | Some lastMom =>
        if Js.gtb lastMom (5 # 10) then "buy"
        else if Js.ltb lastMom (- (5 # 10)) then "sell"
        else "hold"
    end.

Definition getSmaCrossoverSignal (closes : list Q) : string :=
  if (length closes <? 50)%nat then "hold"
  else signal (lastSmaSignal closes 12 26).

Definition getMeanReversionSignal (closes : list Q) : string :=
  if (length closes <? 50)%nat then "hold"
  else
    let lastIndex := (length closes - 1)%nat in
    let smaValues := firstn 20 (skipn (lastIndex - 20 + 1) closes) in
    let mean := fold_left Qplus smaValues 0 / 20 in
    let squaredDiffs := map (fun x => (x - mean) * (x - mean)) smaValues in
    let variance := fold_left Qplus squaredDiffs 0 / 20 in
    let stdDev := Math_sqrt variance in
    let currentPrice := at_ closes lastIndex in
    let zScore := (currentPrice - mean) / stdDev in
    if Js.ltb zScore (- 2) then "buy"
    else if Js.gtb currentPrice mean && Js.gtb zScore 0 then "sell"
    else "hold".

Definition getMultiIndicatorSignal (closes : list Q) (th : Thresholds) : string :=
  if (length closes <? 50)%nat then "hold"
  else
    let smaSignal := getSmaCrossoverSignal closes in
    let momentumSignal := getMomentumSignal closes in
    let opportunity := profitOpportunity closes 12 26 th in
    if (String.eqb smaSignal "buy" || String.eqb momentumSignal "buy") && opportunity
    then "buy"
    else if String.eqb smaSignal "sell" || String.eqb momentumSignal "sell"
         then "sell"
         else "hold".

Definition getStrategySignal (strategy : string) (closes : list Q) : string :=
  if String.eqb strategy "momentum" then getMomentumSignal closes
  else if String.eqb strategy "sma-crossover" then getSmaCrossoverSignal closes
  else if String.eqb strategy "mean-reversion" then getMeanReversionSignal closes
  else if String.eqb strategy "multi-indicator"
       then getMultiIndicatorSignal closes default_thresholds
  else if String.eqb strategy "multi-indicator-conservative"
       then getMultiIndicatorSignal closes
              {| momentumThreshold := 15 # 10; smaDiffThreshold := 5 # 10;
                 pricePositionPercent := 2 # 100 |}
  else if String.eqb strategy "multi-indicator-optimized"
       then getMultiIndicatorSignal closes
              {| momentumThreshold := 8 # 10; smaDiffThreshold := 25 # 100;
                 pricePositionPercent := 5 # 100 |}
  else "hold".

(** Closing the open position at [price] at time [t]. *)
Definition close_trade (sym strat : string) (feeRate slip : Q) (done : list Trade)
  (pos : OpenPosition) (price : Q) (t : Z) (why : option string) : Trade * Q :=
  let exitPrice := price * (1 - slip) in
  let exitValue := quantity pos * exitPrice in
  let f := exitValue * feeRate in
  let p := exitValue - amount pos - fee pos - f in
  ({| id := Z.of_nat (length done) + 1;
      t_symbol := sym; t_strategy := strat; t_side := side pos;
      t_entry_price := entry_price pos; exit_price := exitPrice;
      t_quantity := quantity pos; t_amount := amount pos;
      t_entry_time := entry_time pos; exit_time := t;
      duration := (t - entry_time pos)%Z;
      pnl := p; pnl_percent := (p / amount pos) * 100;
      t_fee := fee pos + f; status := "closed"; note := why |},
   exitValue - f).

(** One round of the [for (let i = 50; ...)] loop. *)
Definition step (sym strat : string) (size feeRate slip : Q)
  (candles : list Candle) (s : Sim) (i : nat) : Sim :=
  match candles !! i with
  | None => s
  | Some candle =>
      let closesUpToNow := firstn (i + 1) (map close candles) in
      let sig := getStrategySignal strat closesUpToNow in
      match position s with
      | None =>
          if String.eqb sig "buy" && Js.geb (cash s) size then
            let entryPrice := close candle * (1 + slip) in
            let f := size * feeRate in
            {| trades := trades s;
               cash := cash s - (size + f);
               position := Some {| side := "buy"; entry_price := entryPrice;
                                   amount := size;
                                   quantity := size / entryPrice;
                                   entry_time := time candle;
                                   entry_index := i; fee := f |};
               equityCurve := equityCurve s |}
          else s
      | Some pos =>
          if String.eqb sig "sell" && String.eqb (side pos) "buy" then
            let '(tr, credit) :=
              close_trade sym strat feeRate slip (trades s) pos
                (close candle) (time candle) None in
            let cash' := cash s + credit in
            let done := (trades s ++ [tr])%list in
            {| trades := done; cash := cash'; position := None;
               equityCurve :=
                 (equityCurve s
                  ++ [ {| e_time := time candle; capital := cash';
                          e_trades := Z.of_nat (length done);
                          lastPnl := Some (pnl tr) |} ])%list |}
          else s
      end
  end.

(** The position left open after the loop is closed on the last candle;
    no equity point is recorded for it. *)
Definition force_close (sym strat : string) (feeRate slip : Q)
  (candles : list Candle) (s : Sim) : Sim :=
  match position s, last candles with
  | Some pos, Some lastCandle =>
      let '(tr, credit) :=
        close_trade sym strat feeRate slip (trades s) pos
          (close lastCandle) (time lastCandle)
          (Some "Force closed at end of backtest") in
      {| trades := (trades s ++ [tr])%list; cash := cash s + credit;
         position := position s; equityCurve := equityCurve s |}
  | _, _ => s
  end.

Definition simulate (sym strat : string) (capital0 size feeRate slip : Q)
  (candles : list Candle) : Sim :=
  let t0 := match candles !! 0%nat with Some c => time c | None => 0%Z end in
  let s0 := {| trades := []; cash := capital0; position := None;
               equityCurve := [ {| e_time := t0; capital := capital0;
                                   e_trades := 0; lastPnl := None |} ] |} in
  force_close sym strat feeRate slip candles
    (fold_left (step sym strat size feeRate slip candles)
               (seq 50 (length candles - 50)) s0).

Definition or_default {A} (x : option A) (d : A) : A :=
  match x with Some y => y | None => d end.

(** [runBacktest]: [inl msg] is [throw new Error(msg)].  [fetched] is
    what the awaited [getCandles] call delivered ([None] for a falsy
    value). *)
Definition runBacktest (clock : Clock) (fetched : option (list Candle))
  (config : Config) : string + BacktestRun :=
  let sym := or_default (symbol config) "BTCUSD" in
  let strat := or_default (strategy config) "momentum" in
  let start := or_default (startDate config)
                 (at_startDate clock - 90 * 24 * 60 * 60 * 1000)%Z in
  let stop := or_default (endDate config) (at_endDate clock) in
  let capital0 := or_default (initialCapital config) 10000 in
  let size := or_default (positionSize config) 1000 in
  let feeR := or_default (feeRate config) (26 # 10000) in
  let slip := or_default (slippage config) (1 # 1000) in
  let itv := or_default (interval config) "1h" in
  if Js.gtb size capital0 then
    inl "Position size cannot exceed initial capital"
  else
    match fetched with
    | None =>
        inl "Insufficient historical data for backtesting (need at least 50 candles)"
    | Some candles =>
        if (length candles <? 50)%nat then
          inl "Insufficient historical data for backtesting (need at least 50 candles)"
        else
          let s := simulate sym strat capital0 size feeR slip candles in
          let days := inject_Z (stop - start) / inject_Z (1000 * 60 * 60 * 24) in
          let n := inject_Z (Z.of_nat (length (trades s))) in
          let ret := cash s - capital0 in
          inr {| r_config :=
                   {| symbol := Some sym; strategy := Some strat;
                      startDate := Some start; endDate := Some stop;
                      initialCapital := Some capital0;
                      positionSize := Some size; feeRate := Some feeR;
                      slippage := Some slip; interval := Some itv |};
                 summary :=
                   {| totalTrades := Z.of_nat (length (trades s));
                      totalDays := Js.Math_round days;
                      tradesPerDay := Js.parseFloat_toFixed (n / days) 2;
                      s_initialCapital := capital0;
                      finalCapital := Js.parseFloat_toFixed (cash s) 2;
                      totalReturn := Js.parseFloat_toFixed ret 2;
                      totalReturnPercent :=
                        Js.parseFloat_toFixed ((ret / capital0) * 100) 2;
                      annualizedReturn :=
                        Js.parseFloat_toFixed
                          ((Math_pow (cash s / capital0) (365 / days) - 1) * 100) 2;
                      candlesProcessed := Z.of_nat (length candles) |};
                 metrics := calculatePerformanceMetrics (trades s) capital0;
                 r_trades := trades s;
                 r_equityCurve := equityCurve s;
                 generatedAt := at_generated clock |}
    end.

End Engine.

(** [validateBacktestConfig].  A string is truthy when it is present and
    not empty; a comparison with an absent operand is false. *)
Record ConfigValidation := mkConfigValidation {
  valid : bool;
  errors : list string
}.

Definition present (s : option string) : bool :=
  match s with Some x => negb (String.eqb x "") | None => false end.

Definition compare {A : Type} (f : A -> A -> bool) (x y : option A) : bool :=
  match x, y with Some a, Some b => f a b | _, _ => false end.

Definition validateBacktestConfig (config : Config) : ConfigValidation :=
  let e1 := if present (symbol config) then [] else ["Symbol is required"] in
  let e2 := if present (strategy config) then e1
            else (e1 ++ ["Strategy is required"])%list in
  let e3 := if compare Js.gtb (positionSize config) (initialCapital config)
            then (e2 ++ ["Position size cannot exceed initial capital"])%list
            else e2 in
  let e4 := if compare Z.geb (startDate config) (endDate config)
            then (e3 ++ ["Start date must be before end date"])%list
            else e3 in
  let maxBacktestDays := 365 in
  let days :=
    match startDate config, endDate config with
    | Some a, Some b =>
        Some (inject_Z (b - a) / inject_Z (1000 * 60 * 60 * 24))
    | _, _ => None
    end in
  let e5 := if compare Js.gtb days (Some maxBacktestDays)
            then (e4 ++ ["Backtest period cannot exceed 365 days"])%list
            else e4 in
  let e6 := if compare Js.ltb (feeRate config) (Some 0)
               || compare Js.gtb (feeRate config) (Some (1 # 100))
            then (e5 ++ ["Fee rate must be between 0% and 1%"])%list
            else e5 in
  let e7 := if compare Js.ltb (slippage config) (Some 0)
               || compare Js.gtb (slippage config) (Some (5 # 100))
            then (e6 ++ ["Slippage must be between 0% and 5%"])%list
            else e6 in
  {| valid := (length e7 =? 0)%nat; errors := e7 |}.

End Backtest.

(* ===================================================================== *)
(** * Part II: properties                                                  *)
(* ===================================================================== *)

(** ** Comparisons of the host language, reflected *)
Module JsFacts.

Local Open Scope Q_scope.

Lemma ltb_true (x y : Q) : Js.ltb x y = true <-> x < y.
Proof.
  unfold Js.ltb. rewrite negb_true_iff, <- not_true_iff_false, Qle_bool_iff.
  split; [apply Qnot_le_lt | apply Qlt_not_le].
Qed.

Lemma ltb_false (x y : Q) : Js.ltb x y = false <-> y <= x.
Proof.
  unfold Js.ltb. rewrite negb_false_iff. apply Qle_bool_iff.
Qed.

Lemma gtb_true (x y : Q) : Js.gtb x y = true <-> y < x.
Proof. apply (ltb_true y x). Qed.

Lemma gtb_false (x y : Q) : Js.gtb x y = false <-> x <= y.
Proof. apply (ltb_false y x). Qed.

Lemma leb_true (x y : Q) : Js.leb x y = true <-> x <= y.
Proof. apply Qle_bool_iff. Qed.

Lemma geb_true (x y : Q) : Js.geb x y = true <-> y <= x.
Proof. apply Qle_bool_iff. Qed.

Lemma eqb_true (x y : Q) : Js.eqb x y = true <-> x == y.
Proof. apply Qeq_bool_iff. Qed.

Lemma eqb_false (x y : Q) : Js.eqb x y = false <-> ~ x == y.
Proof.
  unfold Js.eqb. rewrite <- not_true_iff_false, Qeq_bool_iff. reflexivity.
Qed.

Lemma max_ge_l (x y : Q) : x <= Js.Math_max x y.
Proof.
  unfold Js.Math_max. destruct (Qle_bool x y) eqn:E.
  - apply Qle_bool_iff, E.
  - apply Qle_refl.
Qed.

Lemma min_le_r (x y : Q) : Js.Math_min x y <= y.
Proof.
  unfold Js.Math_min. destruct (Qle_bool x y) eqn:E.
  - apply Qle_bool_iff, E.
  - apply Qle_refl.
Qed.

Lemma min_glb (x y z : Q) : z <= x -> z <= y -> z <= Js.Math_min x y.
Proof. unfold Js.Math_min. destruct (Qle_bool x y); auto. Qed.

Lemma abs_nonneg (x : Q) : 0 <= Js.Math_abs x.
Proof.
  unfold Js.Math_abs. destruct (Qle_bool 0 x) eqn:E.
  - apply Qle_bool_iff, E.
  - apply not_true_iff_false in E. rewrite Qle_bool_iff in E. lra.
Qed.

End JsFacts.

(** ** Comparisons of binary64 *)
Module DoubleFacts.

Import PrimFloat SpecFloat FloatOps FloatAxioms.
Local Open Scope float_scope.

Lemma SFcompare_antisym (a b : spec_float) :
  SFcompare b a = option_map CompOpp (SFcompare a b).
Proof.
  destruct a as [sa | sa | | sa ma ea], b as [sb | sb | | sb mb eb]; cbn;
    try reflexivity;
    try (destruct sa; reflexivity); try (destruct sb; reflexivity);
    try (destruct sa, sb; reflexivity).
  destruct sa, sb; cbn; try reflexivity;
    rewrite (Z.compare_antisym ea eb);
    destruct (Z.compare ea eb); cbn; try reflexivity;
    replace (Pos.compare_cont Eq mb ma)
      with (CompOpp (Pos.compare_cont Eq ma mb))
      by apply (Pos.compare_cont_antisym ma mb Eq);
    destruct (Pos.compare_cont Eq ma mb); reflexivity.
Qed.

Lemma SFcompare_refl (a : spec_float) :
  SFcompare a a = match a with S754_nan => None | _ => Some Eq end.
Proof.
  destruct a as [sa | sa | | sa ma ea]; cbn; try reflexivity.
  - destruct sa; reflexivity.
  - rewrite Z.compare_refl.
    change (Pos.compare_cont Eq ma ma) with (Pos.compare ma ma).
    rewrite Pos.compare_refl. destruct sa; reflexivity.
Qed.

Lemma SFcompare_nan (a b : spec_float) :
  SFcompare a b = None <-> a = S754_nan \/ b = S754_nan.
Proof.
  destruct a as [sa | sa | | sa ma ea], b as [sb | sb | | sb mb eb]; cbn;
    split; intros H; try discriminate; auto;
    destruct H; discriminate.
Qed.

(** How two doubles compare: not at all (one is NaN), or below, equal,
    above; each case fixes the outcome of every comparison. *)
Inductive order (x y : float) : Prop :=
| unordered :
    (is_nan x || is_nan y) = true ->
    (x <? y)%float = false -> (y <? x)%float = false ->
    (x =? y)%float = false -> (y =? x)%float = false ->
    (x <=? y)%float = false -> (y <=? x)%float = false -> order x y
| below :
    is_nan x = false -> is_nan y = false ->
    (x <? y)%float = true -> (y <? x)%float = false ->
    (x =? y)%float = false -> (y =? x)%float = false ->
    (x <=? y)%float = true -> (y <=? x)%float = false -> order x y
| equal :
    is_nan x = false -> is_nan y = false ->
    (x <? y)%float = false -> (y <? x)%float = false ->
    (x =? y)%float = true -> (y =? x)%float = true ->
    (x <=? y)%float = true -> (y <=? x)%float = true -> order x y
| above :
    is_nan x = false -> is_nan y = false ->
    (x <? y)%float = false -> (y <? x)%float = true ->
    (x =? y)%float = false -> (y =? x)%float = false ->
    (x <=? y)%float = false -> (y <=? x)%float = true -> order x y.

Lemma is_nan_spec (x : float) :
  is_nan x = match Prim2SF x with S754_nan => true | _ => false end.
Proof.
  unfold is_nan. rewrite eqb_spec. unfold SFeqb. rewrite SFcompare_refl.
  destruct (Prim2SF x); reflexivity.
Qed.

Lemma compare_order (x y : float) : order x y.
Proof.
  pose proof (SFcompare_antisym (Prim2SF x) (Prim2SF y)) as Ha.
  pose proof (SFcompare_nan (Prim2SF x) (Prim2SF y)) as Hn.
  pose proof (is_nan_spec x) as Nx. pose proof (is_nan_spec y) as Ny.
  pose proof (ltb_spec x y) as L1. pose proof (ltb_spec y x) as L2.
  pose proof (eqb_spec x y) as E1. pose proof (eqb_spec y x) as E2.
  pose proof (leb_spec x y) as B1. pose proof (leb_spec y x) as B2.
  unfold SFltb, SFeqb, SFleb in *. rewrite Ha in *.
  destruct (SFcompare (Prim2SF x) (Prim2SF y)) as [[ | | ] |] eqn:C; cbn in *.
  - assert (Nx' : is_nan x = false).
    { rewrite Nx. destruct (Prim2SF x); try reflexivity.
      exfalso. destruct Hn as [_ Hn]. discriminate (Hn (or_introl eq_refl)). }
    assert (Ny' : is_nan y = false).
    { rewrite Ny. destruct (Prim2SF y); try reflexivity.
      exfalso. destruct Hn as [_ Hn]. discriminate (Hn (or_intror eq_refl)). }
    apply equal; assumption.
  - assert (Nx' : is_nan x = false).
    { rewrite Nx. destruct (Prim2SF x); try reflexivity.
      exfalso. destruct Hn as [_ Hn]. discriminate (Hn (or_introl eq_refl)). }
    assert (Ny' : is_nan y = false).
    { rewrite Ny. destruct (Prim2SF y); try reflexivity.
      exfalso. destruct Hn as [_ Hn]. discriminate (Hn (or_intror eq_refl)). }
    apply below; assumption.
  - assert (Nx' : is_nan x = false).
    { rewrite Nx. destruct (Prim2SF x); try reflexivity.
      exfalso. destruct Hn as [_ Hn]. discriminate (Hn (or_introl eq_refl)). }
    assert (Ny' : is_nan y = false).
    { rewrite Ny. destruct (Prim2SF y); try reflexivity.
      exfalso. destruct Hn as [_ Hn]. discriminate (Hn (or_intror eq_refl)). }
    apply above; assumption.
  - apply unordered; try assumption.
    destruct Hn as [Hn _]. destruct (Hn eq_refl) as [H | H].
    + rewrite Nx, H. reflexivity.
    + rewrite Ny, H. apply orb_true_r.
Qed.


Lemma eqb_refl (x : float) : is_nan x = false -> (x =? x) = true.
Proof. unfold is_nan. intros H. apply negb_false_iff in H. exact H. Qed.

Lemma SFcompare_Eq (a b : spec_float) :
  SFcompare a b = Some Eq ->
  a = b \/ exists sa sb, a = S754_zero sa /\ b = S754_zero sb.
Proof.
  destruct a as [sa | sa | | sa ma ea], b as [sb | sb | | sb mb eb]; cbn;
    intros H;
    try discriminate H;
    try (right; eexists _, _; split; reflexivity);
    try (destruct sa; discriminate H);
    try (destruct sb; discriminate H);
    try (destruct sa, sb; first [discriminate H | left; reflexivity]).
  left. destruct sa, sb; try discriminate H;
    destruct (Z.compare ea eb) eqn:Ez; try discriminate H;
    apply Z.compare_eq in Ez; subst eb;
    destruct (Pos.compare_cont Eq ma mb) eqn:Em; try discriminate H;
    apply Pos.compare_eq in Em; subst mb; reflexivity.
Qed.

(** Numerically equal doubles are the same double, the two zeros
    apart. *)
Lemma eqb_eq (x y : float) : (x =? y) = true -> (y =? 0) = false -> x = y.
Proof.
  intros H Hz. rewrite eqb_spec in H. unfold SFeqb in H.
  destruct (SFcompare (Prim2SF x) (Prim2SF y)) as [[ | | ] |] eqn:C;
    try discriminate.
  destruct (SFcompare_Eq _ _ C) as [E | (sa & sb & Ea & Eb)].
  - apply Prim2SF_inj, E.
  - exfalso. rewrite eqb_spec in Hz. rewrite Eb in Hz.
    destruct sb; discriminate Hz.
Qed.

End DoubleFacts.

(** ** Circuit breaker *)
Module CircuitBreakerProps.

Import AdvancedRisk.

(** The reason reported while halted names the circuit breaker. *)
Definition breaker_reason (r : option string) : Prop :=
  exists rest, r = Some ("Circuit breaker tripped: " ++ rest).

(** Turn order hypotheses into the values of the tests the code makes. *)
Ltac reflect_hyps :=
  repeat match goal with
  | H : (?p < 0)%Q |- _ =>
      assert (Js.ltb p 0 = true) by (apply JsFacts.ltb_true; exact H); clear H
  | H : (0 < ?p)%Q |- _ =>
      assert (Js.ltb p 0 = false) by (apply JsFacts.ltb_false; lra);
      assert (Js.gtb p 0 = true) by (apply JsFacts.gtb_true; exact H); clear H
  | H : (?a <= ?b)%Z |- _ => apply Z.leb_le in H
  | H : (?a < ?b)%Z |- _ => apply Z.leb_gt in H
  end.

Ltac rewrite_tests :=
  repeat match goal with
  | H : ?t = true |- context [?t] => rewrite H
  | H : ?t = false |- context [?t] => rewrite H
  end.

(** C2.  A losing close adds one to the consecutive-loss counter and a
    winning close sets it to 0.  The breaker trips (with the trip time
    recorded) exactly when the incremented counter has reached the
    threshold.  While tripped and before the cooldown has elapsed,
    [checkCircuitBreaker] reports [halted] with a circuit-breaker reason
    and changes nothing; once the cooldown has elapsed it reports not
    halted and clears the flag and the counter.  The initial threshold is
    3 losses and the initial cooldown 60 minutes, in milliseconds. *)
Theorem circuit_breaker_state_machine :
  forall (st : CircuitBreakerState) (now : Z) (pnl : Q),
    let u := updateCircuitBreaker st now pnl in
    let c := checkCircuitBreaker st now in
    ((pnl < 0)%Q -> consecutiveLosses u.2 = consecutiveLosses st + 1)
    /\ ((0 < pnl)%Q -> consecutiveLosses u.2 = 0 /\ tripped u.1 = false)
    /\ ((pnl < 0)%Q -> maxConsecutiveLosses st <= consecutiveLosses st + 1 ->
        tripped u.1 = true /\ isTripped u.2 = true /\ tripTime u.2 = Some now)
    /\ ((pnl < 0)%Q -> consecutiveLosses st + 1 < maxConsecutiveLosses st ->
        tripped u.1 = false /\ isTripped u.2 = isTripped st)
    /\ (isTripped st = true ->
        timeSince now (tripTime st) < cooldownPeriod st ->
        halted c.1 = true /\ breaker_reason (reason c.1) /\ c.2 = st)
    /\ (isTripped st = true ->
        cooldownPeriod st <= timeSince now (tripTime st) ->
        halted c.1 = false /\ chk_consecutiveLosses c.1 = Some 0
        /\ isTripped c.2 = false /\ consecutiveLosses c.2 = 0)
    /\ maxConsecutiveLosses circuitBreakerState0 = 3
    /\ cooldownPeriod circuitBreakerState0 = 60 * (60 * 1000).
Proof.
  intros st now pnl u c. subst u c.
  unfold updateCircuitBreaker, checkCircuitBreaker, breaker_reason.
  repeat match goal with |- _ /\ _ => split end; intros; reflect_hyps;
    rewrite_tests; cbn; repeat split; eauto.
  destruct (maxConsecutiveLosses st <=? consecutiveLosses st + 1); reflexivity.
Qed.

(** The breaker after two losses, and after the third one at time 1000. *)
Definition two_losses : CircuitBreakerState :=
  {| isTripped := false; tripTime := None; consecutiveLosses := 2;
     cooldownPeriod := 60 * 60 * 1000; maxConsecutiveLosses := 3 |}.

Definition tripped_at_1000 : CircuitBreakerState :=
  {| isTripped := true; tripTime := Some 1000; consecutiveLosses := 3;
     cooldownPeriod := 60 * 60 * 1000; maxConsecutiveLosses := 3 |}.

Lemma circuit_breaker_state_machine_witness :
  (isTripped (updateCircuitBreaker two_losses 1000 (-5)%Q).2 = true
   /\ consecutiveLosses (updateCircuitBreaker two_losses 1000 (-5)%Q).2 = 3)
  /\ consecutiveLosses (updateCircuitBreaker two_losses 1000 7%Q).2 = 0
  /\ isTripped (updateCircuitBreaker circuitBreakerState0 1000 (-5)%Q).2 = false
  /\ halted (checkCircuitBreaker tripped_at_1000 3600999).1 = true
  /\ halted (checkCircuitBreaker tripped_at_1000 3601000).1 = false.
Proof.
  destruct (circuit_breaker_state_machine two_losses 1000 (-5)%Q)
    as (Hinc & _ & Htrip & _).
  destruct (circuit_breaker_state_machine two_losses 1000 7%Q)
    as (_ & Hwin & _).
  destruct (circuit_breaker_state_machine circuitBreakerState0 1000 (-5)%Q)
    as (_ & _ & _ & Hbelow & _).
  destruct (circuit_breaker_state_machine tripped_at_1000 3600999 0%Q)
    as (_ & _ & _ & _ & Hhalt & _).
  destruct (circuit_breaker_state_machine tripped_at_1000 3601000 0%Q)
    as (_ & _ & _ & _ & _ & Hreset & _).
  refine (conj (conj _ _) (conj _ (conj _ (conj _ _)))).
  - apply Htrip; [reflexivity | simpl; lia].
  - apply Hinc. reflexivity.
  - apply Hwin. reflexivity.
  - rewrite (proj2 (Hbelow eq_refl ltac:(simpl; lia))). reflexivity.
  - apply Hhalt; [reflexivity | unfold timeSince; simpl; lia].
  - apply Hreset; [reflexivity | unfold timeSince; simpl; lia].
Defined.

(** With the defaults: three losing closes in a row trip the breaker,
    a check 59 minutes later is halted, a check 60 minutes later is not,
    and a win after two losses starts the count again. *)
Example default_breaker_scenario :
  let s1 := (updateCircuitBreaker circuitBreakerState0 10 (-1)%Q).2 in
  let s2 := (updateCircuitBreaker s1 20 (-(1 # 2))%Q).2 in
  let s3 := (updateCircuitBreaker s2 30 (-3)%Q).2 in
  isTripped s2 = false
  /\ isTripped s3 = true
  /\ (checkCircuitBreaker s3 (30 + 59 * 60 * 1000)).1
     = {| halted := true;
          reason := Some "Circuit breaker tripped: 3 consecutive losses";
          chk_consecutiveLosses := None;
          remainingCooldown := Some 1;
          chk_tripTime := Some 30 |}
  /\ halted (checkCircuitBreaker s3 (30 + 60 * 60 * 1000)).1 = false
  /\ consecutiveLosses (checkCircuitBreaker s3 (30 + 60 * 60 * 1000)).2 = 0
  /\ consecutiveLosses (updateCircuitBreaker s2 30 4%Q).2 = 0.
Proof. vm_compute. repeat split; reflexivity. Qed.

(** C10.  A close with a P&L of exactly zero returns [tripped: false]
    with the counter as it was and leaves every field of the breaker
    state as it was. *)
Theorem zero_pnl_leaves_breaker_unchanged :
  forall (st : CircuitBreakerState) (now : Z) (pnl : Q),
    (pnl == 0)%Q ->
    updateCircuitBreaker st now pnl
    = ({| tripped := false;
          upd_consecutiveLosses := consecutiveLosses st;
          cooldownMinutes := None |}, st).
Proof.
  intros st now pnl Hz. unfold updateCircuitBreaker.
  assert (Hl : Js.ltb pnl 0 = false) by (apply JsFacts.ltb_false; lra).
  assert (Hg : Js.gtb pnl 0 = false) by (apply JsFacts.gtb_false; lra).
  rewrite Hl, Hg. reflexivity.
Qed.

Lemma zero_pnl_leaves_breaker_unchanged_witness :
  updateCircuitBreaker two_losses 1000 (0 # 7)%Q
  = ({| tripped := false; upd_consecutiveLosses := 2; cooldownMinutes := None |},
     two_losses).
Proof.
  apply (zero_pnl_leaves_breaker_unchanged two_losses 1000 (0 # 7)%Q).
  reflexivity.
Defined.

End CircuitBreakerProps.

(** ** Position manager: trailing stop and exit triggers *)
Module OrderManagerProps.

Import RiskAdvanced OrderManager.
Local Open Scope Q_scope.

(** *** What one price update does to the stored stop-loss *)

Lemma mark_fixed (p : Position) (x : Q) :
  side (mark p x) = side p
  /\ stopLossPrice (mark p x) = stopLossPrice p
  /\ status (mark p x) = status p
  /\ takeProfitsHit (mark p x) = takeProfitsHit p.
Proof. repeat split. Qed.

Lemma trail_fixed (p : Position) (x : Q) :
  side (trail p x) = side p
  /\ status (trail p x) = status p
  /\ takeProfitsHit (trail p x) = takeProfitsHit p.
Proof.
  unfold trail.
  destruct (trailingStopEnabled p && Js.gtb (unrealizedPnlPercent p) 0);
    [destruct (trailingActivated _) |]; repeat split.
Qed.

Lemma refresh_side (p : Position) (x : Q) : side (refresh p x) = side p.
Proof. unfold refresh. rewrite (proj1 (trail_fixed _ _)). reflexivity. Qed.

Lemma refresh_status (p : Position) (x : Q) : status (refresh p x) = status p.
Proof.
  unfold refresh. rewrite (proj1 (proj2 (trail_fixed _ _))). reflexivity.
Qed.

(** The only write to the stop is guarded by the comparison with the
    stop that is stored. *)
Lemma update_long (x e s t : Q) :
  s <= newStopLoss (updateTrailingStop "buy" x e s t).
Proof.
  unfold updateTrailingStop; cbn.
  destruct (Js.gtb _ 0); cbn; [| apply Qle_refl].
  destruct (Js.gtb (x * (1 - t / 100)) s) eqn:E; cbn; [| apply Qle_refl].
  apply JsFacts.gtb_true in E. apply Qlt_le_weak, E.
Qed.

Lemma update_short (side : string) (x e s t : Q) :
  is_buy side = false ->
  newStopLoss (updateTrailingStop side x e s t) <= s.
Proof.
  intros Hs. unfold updateTrailingStop. rewrite Hs.
  destruct (Js.gtb _ 0); cbn; [| apply Qle_refl].
  destruct (Js.ltb (x * (1 + t / 100)) s) eqn:E; cbn; [| apply Qle_refl].
  apply JsFacts.ltb_true in E. apply Qlt_le_weak, E.
Qed.

Lemma trail_long (p : Position) (x : Q) :
  side p = "buy" -> stopLossPrice p <= stopLossPrice (trail p x).
Proof.
  intros Hs. unfold trail.
  destruct (trailingStopEnabled p && Js.gtb (unrealizedPnlPercent p) 0);
    [| apply Qle_refl].
  destruct (trailingActivated _); [| apply Qle_refl].
  cbn. rewrite Hs. apply update_long.
Qed.

Lemma trail_short (p : Position) (x : Q) :
  is_buy (side p) = false -> stopLossPrice (trail p x) <= stopLossPrice p.
Proof.
  intros Hs. unfold trail.
  destruct (trailingStopEnabled p && Js.gtb (unrealizedPnlPercent p) 0);
    [| apply Qle_refl].
  destruct (trailingActivated _); [| apply Qle_refl].
  cbn. apply update_short, Hs.
Qed.

(** A candidate that does not tighten the stop is dropped. *)
Lemma trail_keeps_long (p : Position) (x : Q) :
  side p = "buy" ->
  x * (1 - p_trailingStopPercent p / 100) <= stopLossPrice p ->
  stopLossPrice (trail p x) = stopLossPrice p.
Proof.
  intros Hs Hc. unfold trail.
  destruct (trailingStopEnabled p && Js.gtb (unrealizedPnlPercent p) 0);
    [| reflexivity].
  unfold updateTrailingStop. rewrite Hs; cbn.
  apply JsFacts.gtb_false in Hc.
  destruct (Js.gtb _ 0); cbn; [rewrite Hc |]; reflexivity.
Qed.

Lemma trail_keeps_short (p : Position) (x : Q) :
  is_buy (side p) = false ->
  stopLossPrice p <= x * (1 + p_trailingStopPercent p / 100) ->
  stopLossPrice (trail p x) = stopLossPrice p.
Proof.
  intros Hs Hc. unfold trail.
  destruct (trailingStopEnabled p && Js.gtb (unrealizedPnlPercent p) 0);
    [| reflexivity].
  unfold updateTrailingStop. rewrite Hs.
  apply JsFacts.ltb_false in Hc.
  destruct (Js.gtb _ 0); cbn; [rewrite Hc |]; reflexivity.
Qed.

Lemma check_exits_fixed (p : Position) (x : Q) :
  side (check_exits p x).2 = side p
  /\ stopLossPrice (check_exits p x).2 = stopLossPrice p
  /\ p_trailingStopPercent (check_exits p x).2 = p_trailingStopPercent p
  /\ status (check_exits p x).2 = status p.
Proof.
  unfold check_exits.
  destruct (isStopLossHit _ _ _); [repeat split |].
  destruct (isTakeProfitHit _ _ _); [repeat split |].
  destruct (first_rung _ _ _ _ _) as [[i tp] |]; repeat split.
Qed.

(** The position stored under [pid] after one update. *)
Definition tick (p : Position) (x : Q) : Position :=
  (check_exits (refresh p x) x).2.

Lemma updatePosition_stored (store : Store) (pid : string) (p : Position) (x : Q) :
  store !! pid = Some p ->
  (updatePosition store pid x).2 !! pid = Some (tick p x).
Proof.
  intros Hp. unfold updatePosition, tick. rewrite Hp.
  destruct (check_exits (refresh p x) x) as [r p'] eqn:E. cbn.
  apply lookup_insert_eq.
Qed.

Lemma tick_side (p : Position) (x : Q) : side (tick p x) = side p.
Proof.
  unfold tick. rewrite (proj1 (check_exits_fixed _ _)). apply refresh_side.
Qed.

Lemma tick_long (p : Position) (x : Q) :
  side p = "buy" -> stopLossPrice p <= stopLossPrice (tick p x).
Proof.
  intros Hs. unfold tick.
  rewrite (proj1 (proj2 (check_exits_fixed _ _))). unfold refresh.
  apply (trail_long (mark p x) x Hs).
Qed.

Lemma tick_short (p : Position) (x : Q) :
  is_buy (side p) = false -> stopLossPrice (tick p x) <= stopLossPrice p.
Proof.
  intros Hs. unfold tick.
  rewrite (proj1 (proj2 (check_exits_fixed _ _))). unfold refresh.
  apply (trail_short (mark p x) x Hs).
Qed.

(** Any run of updates, position by position. *)
Lemma updates_stored (prices : list Q) :
  forall (store : Store) (pid : string) (p : Position),
    store !! pid = Some p ->
    exists p',
      updates store pid prices !! pid = Some p'
      /\ side p' = side p
      /\ (side p = "buy" -> stopLossPrice p <= stopLossPrice p')
      /\ (is_buy (side p) = false -> stopLossPrice p' <= stopLossPrice p).
Proof.
  induction prices as [| x rest IH]; intros store pid p Hp.
  - exists p. cbn. repeat split; auto; intros; apply Qle_refl.
  - destruct (IH _ pid _ (updatePosition_stored store pid p x Hp))
      as (p' & Hl & Hside & Hlong & Hshort).
    exists p'. cbn. split; [exact Hl |].
    rewrite tick_side in Hside, Hlong, Hshort.
    split; [exact Hside |]. split; intros Hs.
    + eapply Qle_trans; [apply (tick_long p x Hs) | apply Hlong, Hs].
    + eapply Qle_trans; [apply Hshort, Hs | apply (tick_short p x Hs)].
Qed.

Lemma updates_app (store : Store) (pid : string) (pre post : list Q) :
  updates store pid (pre ++ post) = updates (updates store pid pre) pid post.
Proof. unfold updates. apply fold_left_app. Qed.

(** C1.  Over any run of price updates of a stored position, the
    stop-loss read after a prefix of the run and the one read after the
    whole run are ordered: for a 'buy' position the later one is not
    lower, for a 'sell' position it is not higher.  And in one update a
    trailing candidate that would not tighten the stop (long: at or below
    it, short: at or above it) leaves the stored stop-loss as it is. *)
Theorem trailing_stop_monotone :
  forall (store : Store) (pid : string) (p : Position) (pre post : list Q),
    store !! pid = Some p ->
    (exists a b : Q,
        stop_of (updates store pid pre) pid = Some a
        /\ stop_of (updates store pid (pre ++ post)) pid = Some b
        /\ (side p = "buy" -> a <= b)
        /\ (side p = "sell" -> b <= a))
    /\ (forall x : Q,
          (side p = "buy" ->
           x * (1 - p_trailingStopPercent p / 100) <= stopLossPrice p ->
           stop_of (updatePosition store pid x).2 pid = Some (stopLossPrice p))
          /\ (side p = "sell" ->
              stopLossPrice p <= x * (1 + p_trailingStopPercent p / 100) ->
              stop_of (updatePosition store pid x).2 pid = Some (stopLossPrice p))).
Proof.
  intros store pid p pre post Hp. split.
  - destruct (updates_stored pre store pid p Hp) as (q & Hq & Hsq & _).
    destruct (updates_stored post _ pid q Hq) as (q' & Hq' & _ & Hlong & Hshort).
    exists (stopLossPrice q), (stopLossPrice q').
    unfold stop_of. rewrite updates_app, Hq, Hq'. cbn.
    repeat split; intros Hs.
    + apply Hlong. congruence.
    + apply Hshort. rewrite Hsq, Hs. reflexivity.
  - intros x. unfold stop_of.
    rewrite (updatePosition_stored store pid p x Hp). cbn.
    unfold tick. rewrite (proj1 (proj2 (check_exits_fixed _ _))). unfold refresh.
    split; intros Hs Hc; f_equal.
    + apply (trail_keeps_long (mark p x) x Hs Hc).
    + apply (trail_keeps_short (mark p x) x); [cbn; rewrite Hs; reflexivity | exact Hc].
Qed.

(** A long and a short position opened at 100 with the default risk
    configuration (stop 2%, target 5%, trailing 1.5%, four rungs). *)
Definition long_fill : TradeFill :=
  {| t_id := "L1"; t_symbol := "BTCUSD"; t_side := "buy";
     t_price := 100; t_quantity := 2; t_notional := 200 |}.

Definition short_fill : TradeFill :=
  {| t_id := "S1"; t_symbol := "BTCUSD"; t_side := "sell";
     t_price := 100; t_quantity := 2; t_notional := 200 |}.

Definition long_position : Position :=
  (createPosition ∅ 0 long_fill DEFAULT_RISK_CONFIG).1.

Definition short_position : Position :=
  (createPosition ∅ 0 short_fill DEFAULT_RISK_CONFIG).1.

Definition book : Store :=
  (createPosition (createPosition ∅ 0 long_fill DEFAULT_RISK_CONFIG).2 0
     short_fill DEFAULT_RISK_CONFIG).2.

Lemma book_long : book !! "L1" = Some long_position.
Proof. vm_compute. reflexivity. Qed.

Lemma book_short : book !! "S1" = Some short_position.
Proof. vm_compute. reflexivity. Qed.

Lemma trailing_stop_monotone_witness :
  (exists a b : Q,
      stop_of (updates book "L1" [101; 104]) "L1" = Some a
      /\ stop_of (updates book "L1" ([101; 104] ++ [103; 1045 # 10])) "L1" = Some b
      /\ a <= b)
  /\ (exists a b : Q,
      stop_of (updates book "S1" [99; 96]) "S1" = Some a
      /\ stop_of (updates book "S1" ([99; 96] ++ [97; 95])) "S1" = Some b
      /\ b <= a)
  /\ stop_of (updatePosition book "L1" 99).2 "L1"
     = Some (stopLossPrice long_position)
  /\ stop_of (updatePosition book "S1" 101).2 "S1"
     = Some (stopLossPrice short_position).
Proof.
  destruct (trailing_stop_monotone book "L1" long_position
              [101; 104] [103; 1045 # 10] book_long)
    as [(a & b & Ha & Hb & Hlong & _) Hkeep].
  destruct (trailing_stop_monotone book "S1" short_position
              [99; 96] [97; 95] book_short)
    as [(a' & b' & Ha' & Hb' & _ & Hshort) Hkeep'].
  refine (conj _ (conj _ (conj _ _))).
  - exists a, b. refine (conj Ha (conj Hb _)). apply Hlong. reflexivity.
  - exists a', b'. refine (conj Ha' (conj Hb' _)). apply Hshort. reflexivity.
  - apply (proj1 (Hkeep 99)); [reflexivity | vm_compute; discriminate].
  - apply (proj2 (Hkeep' 101)); [reflexivity | vm_compute; discriminate].
Defined.

(** The stop of the long position ratchets 98 -> 99.485 -> 102.44, stays
    there when the price falls back to 103, and moves on at 104.5; the
    short one mirrors it. *)
Example ratchet_long :
  map (fun prices => Qred <$> stop_of (updates book "L1" prices) "L1")
      [ []; [101]; [101; 104]; [101; 104; 103]; [101; 104; 103; 1045 # 10] ]
  = [ Some 98; Some (19897 # 200); Some (2561 # 25); Some (2561 # 25);
      Some (41173 # 400) ].
Proof. vm_compute. reflexivity. Qed.

Example ratchet_short :
  map (fun prices => Qred <$> stop_of (updates book "S1" prices) "S1")
      [ []; [99]; [99; 96]; [99; 96; 97]; [99; 96; 97; 95] ]
  = [ Some 102; Some (20097 # 200); Some (2436 # 25); Some (2436 # 25);
      Some (3857 # 40) ].
Proof. vm_compute. reflexivity. Qed.

(** *** Exit triggers *)

(** Rung [i] of the ladder is not yet marked and its price is touched. *)
Definition fires (side : string) (x : Q) (hit : list nat)
  (i : nat) (tp : TakeProfitLevel) : bool :=
  negb (existsb (Nat.eqb i) hit) && isTakeProfitHit side x (price tp).

(** Rung [i] fires and no rung before it does. *)
Definition first_firing (side : string) (x : Q) (hit : list nat)
  (rungs : list TakeProfitLevel) (i : nat) (tp : TakeProfitLevel) : Prop :=
  rungs !! i = Some tp
  /\ fires side x hit i tp = true
  /\ forall j tp', (j < i)%nat -> rungs !! j = Some tp' ->
                   fires side x hit j tp' = false.

Lemma first_rung_spec (side : string) (x : Q) (hit : list nat)
  (rungs : list TakeProfitLevel) :
  forall k : nat,
    match first_rung side x hit k rungs with
    | Some (i, tp) =>
        exists j, i = (k + j)%nat
                  /\ rungs !! j = Some tp
                  /\ fires side x hit (k + j) tp = true
                  /\ forall j' tp', (j' < j)%nat -> rungs !! j' = Some tp' ->
                                    fires side x hit (k + j') tp' = false
    | None =>
        forall j tp, rungs !! j = Some tp -> fires side x hit (k + j) tp = false
    end.
Proof.
  induction rungs as [| tp rest IH]; intros k; cbn.
  - intros j tp H. discriminate.
  - destruct (existsb (Nat.eqb k) hit) eqn:Ehit.
    + specialize (IH (S k)).
      destruct (first_rung side x hit (S k) rest) as [[i tp0] |].
      * destruct IH as (j & -> & Hj & Hf & Hbefore).
        exists (S j). replace (k + S j)%nat with (S k + j)%nat by lia.
        repeat split; auto.
        intros [| j'] tp' Hlt Hl; cbn in Hl.
        -- inversion Hl; subst. unfold fires.
           rewrite Nat.add_0_r, Ehit. reflexivity.
        -- replace (k + S j')%nat with (S k + j')%nat by lia.
           apply Hbefore; [lia | exact Hl].
      * intros [| j] tp' Hl; cbn in Hl.
        -- inversion Hl; subst. unfold fires.
           rewrite Nat.add_0_r, Ehit. reflexivity.
        -- replace (k + S j)%nat with (S k + j)%nat by lia. apply IH, Hl.
    + destruct (isTakeProfitHit side x (price tp)) eqn:Etp.
      * exists 0%nat. rewrite Nat.add_0_r. repeat split.
        -- unfold fires. rewrite Ehit, Etp. reflexivity.
        -- intros j' tp' Hlt. lia.
      * specialize (IH (S k)).
        destruct (first_rung side x hit (S k) rest) as [[i tp0] |].
        -- destruct IH as (j & -> & Hj & Hf & Hbefore).
           exists (S j). replace (k + S j)%nat with (S k + j)%nat by lia.
           repeat split; auto.
           intros [| j'] tp' Hlt Hl; cbn in Hl.
           ++ inversion Hl; subst. unfold fires.
              rewrite Nat.add_0_r, Etp. apply andb_false_r.
           ++ replace (k + S j')%nat with (S k + j')%nat by lia.
              apply Hbefore; [lia | exact Hl].
        -- intros [| j] tp' Hl; cbn in Hl.
           ++ inversion Hl; subst. unfold fires.
              rewrite Nat.add_0_r, Etp. apply andb_false_r.
           ++ replace (k + S j)%nat with (S k + j)%nat by lia. apply IH, Hl.
Qed.

Lemma first_rung_first (side : string) (x : Q) (hit : list nat)
  (rungs : list TakeProfitLevel) (i : nat) (tp : TakeProfitLevel) :
  first_firing side x hit rungs i tp ->
  first_rung side x hit 0 rungs = Some (i, tp).
Proof.
  intros (Hi & Hf & Hbefore).
  pose proof (first_rung_spec side x hit rungs 0) as S.
  cbn [Nat.add] in S.
  destruct (first_rung side x hit 0 rungs) as [[i0 tp0] |].
  - destruct S as (j & -> & Hj & Hfj & Hbj).
    destruct (Nat.lt_trichotomy j i) as [Hlt | [-> | Hgt]].
    + rewrite (Hbefore j tp0 Hlt Hj) in Hfj. discriminate.
    + congruence.
    + rewrite (Hbj i tp Hgt Hi) in Hf. discriminate.
  - rewrite (S i tp Hi) in Hf. discriminate.
Qed.

Lemma first_rung_none (side : string) (x : Q) (hit : list nat)
  (rungs : list TakeProfitLevel) :
  (forall i tp, rungs !! i = Some tp -> fires side x hit i tp = false) ->
  first_rung side x hit 0 rungs = None.
Proof.
  intros Hnone.
  pose proof (first_rung_spec side x hit rungs 0) as S.
  cbn [Nat.add] in S.
  destruct (first_rung side x hit 0 rungs) as [[i0 tp0] |]; [| reflexivity].
  destruct S as (j & -> & Hj & Hfj & _).
  rewrite (Hnone j tp0 Hj) in Hfj. discriminate.
Qed.

Lemma refresh_ladder (p : Position) (x : Q) :
  multipleTakeProfits (refresh p x) = multipleTakeProfits p
  /\ takeProfitsHit (refresh p x) = takeProfitsHit p.
Proof.
  unfold refresh, trail.
  destruct (trailingStopEnabled _ && _); [destruct (trailingActivated _) |];
    split; reflexivity.
Qed.

(** C3.  On a price update of a stored position, with [q] the position
    after the bookkeeping and the trailing-stop step: if the stop-loss is
    hit the result is the 'stop-loss' exit for the whole position,
    whatever the take-profit and the ladder say; otherwise, if the
    take-profit is hit, it is the 'take-profit' exit for the whole
    position, whatever the ladder says; otherwise, if [i] is the first
    ladder rung that is un-hit and touched, the result is a
    'partial-take-profit' for that rung's percentage only, the rung index
    is appended to the hit list and the position stays stored with its
    status as it was; otherwise nothing triggers. *)
Theorem exit_triggers_in_order :
  forall (store : Store) (pid : string) (p : Position) (x : Q),
    store !! pid = Some p ->
    let q := refresh p x in
    let r := (updatePosition store pid x).1 in
    let stored := (updatePosition store pid x).2 !! pid in
    let sl := isStopLossHit (side p) x (stopLossPrice q) in
    let tp := isTakeProfitHit (side p) x (takeProfitPrice q) in
    let full (what : string) :=
      {| position := Some q; triggered := true; action := Some what;
         level := None; percentToClose := None; r_exitPrice := Some x;
         pnl := Some (unrealizedPnl q);
         pnlPercent := Some (unrealizedPnlPercent q) |} in
    (sl = true -> r = full "stop-loss" /\ stored = Some q)
    /\ (sl = false -> tp = true -> r = full "take-profit" /\ stored = Some q)
    /\ (sl = false -> tp = false ->
        forall (i : nat) (rung : TakeProfitLevel),
          first_firing (side p) x (takeProfitsHit p) (multipleTakeProfits p) i rung ->
          r = {| position := Some (push_hit q i); triggered := true;
                 action := Some "partial-take-profit";
                 level := Some (i + 1)%nat;
                 percentToClose := Some (positionPercent rung);
                 r_exitPrice := Some x;
                 pnl := Some (unrealizedPnl q * (positionPercent rung / 100));
                 pnlPercent := Some (unrealizedPnlPercent q) |}
          /\ stored = Some (push_hit q i)
          /\ takeProfitsHit (push_hit q i) = (takeProfitsHit p ++ [i])%list
          /\ status (push_hit q i) = status p)
    /\ (sl = false -> tp = false ->
        (forall i rung, multipleTakeProfits p !! i = Some rung ->
                        fires (side p) x (takeProfitsHit p) i rung = false) ->
        triggered r = false /\ stored = Some q).
Proof.
  intros store pid p x Hp q r stored sl tp full.
  subst r stored sl tp full. unfold updatePosition. rewrite Hp.
  fold q. unfold check_exits.
  destruct (refresh_ladder p x) as [Hladder Hhit]. fold q in Hladder, Hhit.
  rewrite (refresh_side p x : side q = side p), Hladder, Hhit.
  refine (conj _ (conj _ (conj _ _))).
  - intros ->. cbn. split; [reflexivity | apply lookup_insert_eq].
  - intros -> ->. cbn. split; [reflexivity | apply lookup_insert_eq].
  - intros -> -> i rung Hfirst.
    rewrite (first_rung_first _ _ _ _ _ _ Hfirst). cbn.
    refine (conj eq_refl (conj _ (conj _ _))).
    + apply lookup_insert_eq.
    + rewrite Hhit. reflexivity.
    + apply refresh_status.
  - intros -> -> Hnone. rewrite (first_rung_none _ _ _ _ Hnone). cbn.
    split; [reflexivity | apply lookup_insert_eq].
Qed.

Lemma exit_triggers_in_order_witness :
  action (updatePosition book "L1" 97).1 = Some "stop-loss"
  /\ action (updatePosition book "L1" 106).1 = Some "take-profit"
  /\ (action (updatePosition book "L1" 103).1 = Some "partial-take-profit"
      /\ percentToClose (updatePosition book "L1" 103).1 = Some 25
      /\ (takeProfitsHit <$> (updatePosition book "L1" 103).2 !! "L1") = Some [0%nat]
      /\ (status <$> (updatePosition book "L1" 103).2 !! "L1") = Some "open")
  /\ triggered (updatePosition book "L1" 101).1 = false.
Proof.
  destruct (exit_triggers_in_order book "L1" long_position 97 book_long)
    as (Hsl & _).
  destruct (exit_triggers_in_order book "L1" long_position 106 book_long)
    as (_ & Htp & _).
  destruct (exit_triggers_in_order book "L1" long_position 103 book_long)
    as (_ & _ & Hrung & _).
  destruct (exit_triggers_in_order book "L1" long_position 101 book_long)
    as (_ & _ & _ & Hnone).
  refine (conj _ (conj _ (conj _ _))).
  - rewrite (proj1 (Hsl eq_refl)). reflexivity.
  - rewrite (proj1 (Htp eq_refl eq_refl)). reflexivity.
  - destruct (Hrung eq_refl eq_refl 0%nat
                {| positionPercent := 25; profitTarget := 5 * (5 # 10);
                   price := calculateTakeProfit "buy" 100 (5 * (5 # 10)) |})
      as (Hr & Hstored & Hhits & Hstatus).
    { refine (conj eq_refl (conj eq_refl _)). intros j tp' Hj. lia. }
    rewrite Hr, Hstored. cbn [fmap option_fmap option_map action percentToClose].
    rewrite Hhits, Hstatus. repeat split.
  - apply Hnone; [reflexivity | reflexivity |].
    intros [| [| [| [| i]]]] rung Hi; vm_compute in Hi; inversion Hi; subst;
      reflexivity.
Defined.

(** A price that touches both the (trailed) stop and a rung, and one that
    touches the take-profit and three un-hit rungs: the earlier check
    wins and no rung is marked. *)
Example earlier_check_wins :
  let low := {| t_id := "L2"; t_symbol := "BTCUSD"; t_side := "buy";
                t_price := 100; t_quantity := 1; t_notional := 100 |} in
  let cfg := {| stopLossPercent := 2; takeProfitPercent := 5;
                trailingStopPercent := 0; riskPercentOfPortfolio := 2;
                useTrailingStop := true; useMultipleTakeProfits := true |} in
  let st := (createPosition ∅ 0 low cfg).2 in
  (action (updatePosition st "L2" 103).1,
   takeProfitsHit <$> (updatePosition st "L2" 103).2 !! "L2")
  = (Some "stop-loss", Some [])
  /\ (action (updatePosition book "L1" 106).1,
      takeProfitsHit <$> (updatePosition book "L1" 106).2 !! "L1")
     = (Some "take-profit", Some []).
Proof. vm_compute. split; reflexivity. Qed.

End OrderManagerProps.

(** ** Signal composer, regime classifier and strategy manager *)
Module SignalProps.

Import Indicators IndicatorsAdvanced SignalComposer.
Local Open Scope Q_scope.

(** *** Every vote carries a non-negative weight *)

Lemma interpretRSI_strength (v : option Q) : 0 <= strength (interpretRSI v).
Proof.
  unfold interpretRSI. destruct v as [r |]; cbn; [| lra].
  destruct (Js.gtb r 70) eqn:E1; cbn.
  - apply JsFacts.gtb_true in E1. apply JsFacts.min_glb; [| lra].
    apply Qle_shift_div_l; lra.
  - destruct (Js.ltb r 30) eqn:E2; cbn.
    + apply JsFacts.ltb_true in E2. apply JsFacts.min_glb; [| lra].
      apply Qle_shift_div_l; lra.
    + destruct (Js.gtb r 60); cbn; [lra |]. destruct (Js.ltb r 40); cbn; lra.
Qed.

Lemma interpretMACD_strength (d : MacdPoint) (prev : option Q) :
  0 <= strength (interpretMACD d prev).
Proof.
  unfold interpretMACD.
  destruct (m_macd d), (m_signal d), (m_histogram d) as [h |]; cbn; try lra.
  assert (Habs : 0 <= Js.Math_min (Js.Math_abs h / 100) (5 # 10)).
  { apply JsFacts.min_glb; [| lra].
    apply Qle_shift_div_l; [lra |]. pose proof (JsFacts.abs_nonneg h). lra. }
  repeat match goal with
         | |- context [if ?b then _ else _] => destruct b; cbn
         end; try lra; exact Habs.
Qed.

Lemma interpretBollingerBands_strength (x : Q) (d : BandPoint) :
  0 <= strength (interpretBollingerBands x d).
Proof.
  unfold interpretBollingerBands.
  destruct (upper d), (middle d), (lower d); cbn; try lra.
  repeat match goal with
         | |- context [if ?b then _ else _] => destruct b; cbn
         end; lra.
Qed.

Definition nonneg (s : Vote) : Prop := 0 <= weight s.

Lemma interp_votes_nonneg (w : Q) (src : string) (it : Interpretation) :
  0 <= w -> 0 <= strength it -> Forall nonneg (interp_votes w src it).
Proof.
  intros Hw Hs. unfold interp_votes.
  destruct (String.eqb _ _); constructor; [| constructor].
  unfold nonneg; cbn. apply Qmult_le_0_compat; assumption.
Qed.

(** The weighted vote of non-negative weights. *)
Lemma tally_from (signals : list Vote) :
  forall acc : Q * Q,
    Forall nonneg signals -> 0 <= acc.1 -> 0 <= acc.2 ->
    let t := fold_left
               (fun (acc : Q * Q) (sig : Vote) =>
                  if is_vote "buy" sig then (acc.1 + weight sig, acc.2)
                  else if is_vote "sell" sig then (acc.1, acc.2 + weight sig)
                  else acc) signals acc in
    0 <= t.1 /\ 0 <= t.2.
Proof.
  induction signals as [| s rest IH]; intros acc Hall H1 H2; cbn.
  - split; assumption.
  - inversion Hall as [| ? ? Hs Hrest]; subst. unfold nonneg in Hs.
    destruct (is_vote "buy" s); [| destruct (is_vote "sell" s)];
      apply IH; cbn; auto; lra.
Qed.

Lemma tally_nonneg (signals : list Vote) :
  Forall nonneg signals -> 0 <= (tally signals).1 /\ 0 <= (tally signals).2.
Proof. intros H. apply (tally_from signals (0, 0) H); cbn; lra. Qed.

(** *** What the final decision is, from the two accumulators *)

Lemma decide_vote_cases (buy sell : Q) :
  0 <= buy -> 0 <= sell ->
  (buy == sell -> decide_vote buy sell = ("hold", 0))
  /\ (sell < buy -> decide_vote buy sell = ("buy", buy / (buy + sell)))
  /\ (buy < sell -> decide_vote buy sell = ("sell", sell / (buy + sell))).
Proof.
  intros Hb Hs. unfold decide_vote. repeat split.
  - intros Heq. destruct (Js.eqb (buy + sell) 0); [reflexivity |].
    assert (E1 : Js.gtb buy sell = false) by (apply JsFacts.gtb_false; lra).
    assert (E2 : Js.gtb sell buy = false) by (apply JsFacts.gtb_false; lra).
    rewrite E1, E2. reflexivity.
  - intros Hlt.
    assert (E0 : Js.eqb (buy + sell) 0 = false) by (apply JsFacts.eqb_false; lra).
    assert (E1 : Js.gtb buy sell = true) by (apply JsFacts.gtb_true; lra).
    rewrite E0, E1. reflexivity.
  - intros Hlt.
    assert (E0 : Js.eqb (buy + sell) 0 = false) by (apply JsFacts.eqb_false; lra).
    assert (E1 : Js.gtb buy sell = false) by (apply JsFacts.gtb_false; lra).
    assert (E2 : Js.gtb sell buy = true) by (apply JsFacts.gtb_true; lra).
    rewrite E0, E1, E2. reflexivity.
Qed.

(** The rounded confidence of a winner lies between 50 and 100. *)
Lemma winner_confidence (w l : Q) :
  0 <= l -> l < w ->
  (50 <= Js.Math_round (w / (w + l) * 100) <= 100)%Z.
Proof.
  intros Hl Hw. unfold Js.Math_round.
  assert (Hpos : 0 < w + l) by lra.
  assert (Hlow : 1 # 2 <= w / (w + l)).
  { apply Qle_shift_div_l; [exact Hpos | lra]. }
  assert (Hhigh : w / (w + l) <= 1).
  { apply Qle_shift_div_r; [exact Hpos | lra]. }
  revert Hlow Hhigh. generalize (w / (w + l)). intros c Hlow Hhigh.
  split.
  - apply Z.le_trans with (Qfloor 50); [vm_compute; discriminate |].
    apply Qfloor_resp_le. lra.
  - apply Z.le_trans with (Qfloor (201 # 2)); [| vm_compute; discriminate].
    apply Qfloor_resp_le. lra.
Qed.

Section Composed.

Variable macd : list Q -> nat -> nat -> nat -> MacdSeries.
Variable bollingerBands : list Q -> nat -> Q -> BandSeries.

Lemma volume_votes_nonneg (candles : list Candle) (signals : list Vote) :
  Forall nonneg signals -> Forall nonneg (volume_votes candles signals).
Proof.
  intros H. unfold volume_votes.
  destruct (aboveAverage _); [| exact H].
  assert (H1 : Forall nonneg
                 (if existsb (is_vote "buy") signals
                  then (signals ++ [ {| vote := "buy"; weight := 5 # 10;
                                        source := "Volume" |} ])%list
                  else signals)).
  { destruct (existsb _ signals); [| exact H].
    apply Forall_app. split; [exact H |].
    constructor; [unfold nonneg; cbn; lra | constructor]. }
  destruct (existsb (is_vote "sell") _); [| exact H1].
  apply Forall_app. split; [exact H1 |].
  constructor; [unfold nonneg; cbn; lra | constructor].
Qed.

Lemma collect_nonneg (candles : list Candle) (cfg : Config) :
  Forall nonneg (collect macd bollingerBands candles cfg).
Proof.
  unfold collect.
  assert (H1 : Forall nonneg
                 (if useSMA cfg then sma_votes (map close candles) else [])).
  { destruct (useSMA cfg); [| constructor]. unfold sma_votes.
    destruct (String.eqb _ "buy");
      [| destruct (String.eqb _ "sell")];
      repeat constructor; unfold nonneg; cbn; lra. }
  set (s1 := if useSMA cfg then _ else _) in *.
  assert (H2 : Forall nonneg
                 (if useRSI cfg
                  then (s1 ++ rsi_votes (map close candles) cfg)%list else s1)).
  { destruct (useRSI cfg); [| exact H1]. apply Forall_app. split; [exact H1 |].
    apply interp_votes_nonneg; [lra | apply interpretRSI_strength]. }
  set (s2 := if useRSI cfg then _ else _) in *.
  assert (H3 : Forall nonneg
                 (if useMACD cfg
                  then (s2 ++ macd_votes macd (map close candles) cfg)%list
                  else s2)).
  { destruct (useMACD cfg); [| exact H2]. apply Forall_app. split; [exact H2 |].
    apply interp_votes_nonneg; [lra | apply interpretMACD_strength]. }
  set (s3 := if useMACD cfg then _ else _) in *.
  assert (H4 : Forall nonneg
                 (if useBollingerBands cfg
                  then (s3 ++ bb_votes bollingerBands (map close candles) cfg)%list
                  else s3)).
  { destruct (useBollingerBands cfg); [| exact H3].
    apply Forall_app. split; [exact H3 |].
    apply interp_votes_nonneg; [lra | apply interpretBollingerBands_strength]. }
  set (s4 := if useBollingerBands cfg then _ else _) in *.
  destruct (useVolume cfg); [apply volume_votes_nonneg, H4 | exact H4].
Qed.

(** C4.  For a window of at least 100 candles, with [buy] and [sell] the
    two accumulators of the weighted vote: if both are zero the signal is
    'hold' with confidence 0; on any tie the signal is 'hold' (confidence
    0); otherwise the strictly larger side wins and the confidence is the
    winner's share of [buy + sell] put on the 0-100 scale, that is
    [Math.round] of the share times 100, a whole number between 50 and
    100. *)
Theorem composer_final_decision :
  forall (now : Z) (candles : list Candle) (cfg : Config),
    (100 <= length candles)%nat ->
    let r := composeSignal macd bollingerBands now candles cfg in
    let buy := (tally (collect macd bollingerBands candles cfg)).1 in
    let sell := (tally (collect macd bollingerBands candles cfg)).2 in
    (buy == 0 /\ sell == 0 -> c_signal r = "hold" /\ confidence r = 0%Z)
    /\ (buy == sell -> c_signal r = "hold" /\ confidence r = 0%Z)
    /\ (sell < buy ->
        c_signal r = "buy"
        /\ confidence r = Js.Math_round (buy / (buy + sell) * 100)
        /\ (50 <= confidence r <= 100)%Z)
    /\ (buy < sell ->
        c_signal r = "sell"
        /\ confidence r = Js.Math_round (sell / (buy + sell) * 100)
        /\ (50 <= confidence r <= 100)%Z).
Proof.
  intros now candles cfg Hlen r buy sell. subst r buy sell.
  unfold composeSignal.
  assert (Hn : (length candles <? 100)%nat = false) by (apply Nat.ltb_ge; lia).
  rewrite Hn.
  destruct (tally_nonneg _ (collect_nonneg candles cfg)) as [Hb Hs].
  destruct (tally (collect macd bollingerBands candles cfg)) as [buy sell].
  cbn [fst snd] in *.
  destruct (decide_vote_cases buy sell Hb Hs) as (Htie & Hbuy & Hsell).
  refine (conj _ (conj _ (conj _ _))).
  - intros [H1 H2]. rewrite Htie by lra. split; reflexivity.
  - intros Heq. rewrite Htie by exact Heq. split; reflexivity.
  - intros Hlt. rewrite (Hbuy Hlt). cbn [c_signal confidence].
    refine (conj eq_refl (conj eq_refl _)). apply winner_confidence; assumption.
  - intros Hlt. rewrite (Hsell Hlt). cbn [c_signal confidence].
    refine (conj eq_refl (conj eq_refl _)).
    assert (E : Js.Math_round (sell / (buy + sell) * 100)
                = Js.Math_round (sell / (sell + buy) * 100)).
    { unfold Js.Math_round. apply Qfloor_comp.
      assert (buy + sell == sell + buy) as -> by ring. reflexivity. }
    rewrite E. apply winner_confidence; assumption.
Qed.

End Composed.

(** A flat window of 100 candles at price 104, a MACD series whose last
    two histogram values are 24 (bullish, strength 0.24) and bands
    90/100/110 (the price sits at 70% of the band: sell, strength 0.3). *)
Definition flat_window : list Candle :=
  repeat {| time := 0; open := 104; high := 104; low := 104; close := 104;
            volume := 1; v := Some 1 |} 100.

Definition macd_24 (_ : list Q) (_ _ _ : nat) : MacdSeries :=
  {| s_macd := [Some 1; Some 1]; s_signal := [Some 1; Some 1];
     s_histogram := [Some 24; Some 24] |}.

Definition bands_90_110 (_ : list Q) (_ : nat) (_ : Q) : BandSeries :=
  {| s_upper := [Some 110]; s_middle := [Some 100]; s_lower := [Some 90] |}.

Definition only (sma rsi macd bb vol : bool) : Config :=
  {| useSMA := sma; useRSI := rsi; useMACD := macd; useBollingerBands := bb;
     useVolume := vol; rsiPeriod := 14; macdFast := 12; macdSlow := 26;
     macdSignal := 9; bbPeriod := 20; bbStdDev := 2 |}.

Lemma flat_window_length : (100 <= length flat_window)%nat.
Proof. vm_compute. lia. Qed.

Lemma composer_final_decision_witness :
  let run := composeSignal macd_24 bands_90_110 0 flat_window in
  (c_signal (run (only false false false false false)) = "hold"
   /\ confidence (run (only false false false false false)) = 0%Z)
  /\ c_signal (run (only false false true true false)) = "hold"
  /\ (c_signal (run (only false false true false false)) = "buy"
      /\ confidence (run (only false false true false false)) = 100%Z)
  /\ (c_signal (run (only true false true true true)) = "hold")
  /\ (c_signal (run (only false true false true false)) = "sell"
      /\ confidence (run (only false true false true false)) = 100%Z).
Proof.
  intros run. subst run.
  pose proof (fun cfg => composer_final_decision macd_24 bands_90_110 0
                           flat_window cfg flat_window_length) as H.
  refine (conj _ (conj _ (conj _ (conj _ _)))).
  - apply (proj1 (H (only false false false false false))).
    split; vm_compute; reflexivity.
  - apply (proj1 (proj2 (H (only false false true true false)))).
    vm_compute. reflexivity.
  - destruct (proj1 (proj2 (proj2 (H (only false false true false false))))
                ltac:(vm_compute; reflexivity)) as (Hs & Hc & _).
    split; [exact Hs | rewrite Hc; vm_compute; reflexivity].
  - apply (proj1 (proj2 (H (only true false true true true)))).
    vm_compute. reflexivity.
  - destruct (proj2 (proj2 (proj2 (H (only false true false true false))))
                ltac:(vm_compute; reflexivity)) as (Hs & Hc & _).
    split; [exact Hs | rewrite Hc; vm_compute; reflexivity].
Defined.

(** *** Windows shorter than 100 candles *)

Section Short.

Import MarketRegime StrategyManager.

Variable macd : list Q -> nat -> nat -> nat -> MacdSeries.
Variable bollingerBands : list Q -> nat -> Q -> BandSeries.
Variable analyzeTrend : list Q -> TrendAnalysis.
Variable analyzeVolatility : list Candle -> VolatilityAnalysis.
Variable analyzeRange : list Q -> RangeAnalysis.
Variable analyzeMeanReversion : list Candle -> Options -> StrategySignal.
Variable analyzeMomentum : list Candle -> Options -> StrategySignal.
Variable analyzeGridTrading : list Candle -> Options -> StrategySignal.
Variable analyzeDayTrading : list Candle -> Options -> StrategySignal.

(** C7.  On a window of fewer than 100 candles each of the three
    components returns (it is a total function: there is no path on which
    it fails) its neutral record with confidence 0: the composer 'hold',
    the classifier 'choppy' with recommended strategy 'hold', the
    strategy manager 'hold' with strategy 'none'; none of them looks at
    the candles, the sub-analyses or the strategies, and the manager
    leaves its regime state untouched. *)
Theorem short_window_is_neutral :
  forall (now : Z) (candles : list Candle) (cfg : Config)
         (opts : Options) (st : ManagerState),
    (length candles < 100)%nat ->
    composeSignal macd bollingerBands now candles cfg
    = {| c_signal := "hold"; confidence := 0;
         c_reason := "Insufficient data for analysis";
         buyScore := None; sellScore := None; c_signals := [];
         c_price := None; timestamp := None |}
    /\ detectMarketRegime analyzeTrend analyzeVolatility analyzeRange now candles
       = {| regime := "choppy"; r_confidence := 0;
            r_reason := "Insufficient data for regime detection";
            recommendedStrategy := "hold";
            trend := None; volatility := None; range := None;
            r_currentPrice := None; r_timestamp := None |}
    /\ analyzeWithOptimalStrategy macd bollingerBands analyzeTrend
         analyzeVolatility analyzeRange analyzeMeanReversion analyzeMomentum
         analyzeGridTrading analyzeDayTrading st now candles opts
       = ({| d_signal := "hold"; d_confidence := 0;
             d_reason := "Insufficient data for strategy analysis";
             d_strategy := Some "none"; d_regime := None;
             strategyUsed := None; regimeConfidence := None;
             autoSwitched := None |}, st).
Proof.
  intros now candles cfg opts st Hlen.
  apply Nat.ltb_lt in Hlen.
  unfold composeSignal, detectMarketRegime, analyzeWithOptimalStrategy.
  rewrite Hlen. repeat split.
Qed.

End Short.

(** The window of 99 candles, for any sub-analyses and strategies. *)
Lemma short_window_is_neutral_witness :
  let short := firstn 99 flat_window in
  let trend (_ : list Q) :=
    {| MarketRegime.trending := true; MarketRegime.direction := "up";
       MarketRegime.t_strength := 90; MarketRegime.emaSeparation := "1.00" |} in
  let vol (_ : list Candle) :=
    {| MarketRegime.v_high := true; MarketRegime.v_score := 9 # 10;
       MarketRegime.atrPercent := "3.00" |} in
  let rng (_ : list Q) :=
    {| MarketRegime.ranging := true; MarketRegime.r_score := 1;
       MarketRegime.oscillations := 8 |} in
  let buy_now (_ : list Candle) (_ : StrategyManager.Options) :=
    {| StrategyManager.ss_signal := "buy"; StrategyManager.ss_confidence := 99;
       StrategyManager.ss_reason := "always";
       StrategyManager.ss_strategy := Some "momentum" |} in
  c_signal (composeSignal macd_24 bands_90_110 5 short default_config) = "hold"
  /\ MarketRegime.r_confidence
       (MarketRegime.detectMarketRegime trend vol rng 5 short) = 0%Z
  /\ StrategyManager.d_signal
       (StrategyManager.analyzeWithOptimalStrategy macd_24 bands_90_110
          trend vol rng buy_now buy_now buy_now buy_now
          StrategyManager.manager0 5 short
          {| StrategyManager.autoSwitch := None;
             StrategyManager.forceStrategy := Some "momentum" |}).1 = "hold".
Proof.
  intros short trend vol rng buy_now.
  assert (Hlen : (length short < 100)%nat) by (vm_compute; lia).
  destruct (short_window_is_neutral macd_24 bands_90_110 trend vol rng
              buy_now buy_now buy_now buy_now 5 short default_config
              {| StrategyManager.autoSwitch := None;
                 StrategyManager.forceStrategy := Some "momentum" |}
              StrategyManager.manager0 Hlen) as (Hc & Hr & Hm).
  rewrite Hc, Hr, Hm. repeat split.
Defined.

End SignalProps.

(** ** RSI *)
Module RsiProps.

Import Indicators IndicatorsAdvanced.
Local Open Scope Q_scope.

(** The gain and the loss of one price change, as the words "average
    gain" and "average loss" mean them. *)
Definition gain_of (c : Q) : Q := Qmax c 0.
Definition loss_of (c : Q) : Q := Qmax (- c) 0.

Definition sum_over (f : Q -> Q) (closes : list Q) (idx : list nat) : Q :=
  fold_right (fun i acc => f (change closes i) + acc) 0 idx.

Lemma abs_neg (c : Q) : c <= 0 -> Js.Math_abs c == - c.
Proof.
  intros H. unfold Js.Math_abs. destruct (Qle_bool 0 c) eqn:E; [| reflexivity].
  apply Qle_bool_iff in E. lra.
Qed.

Lemma gain_of_pos (c : Q) : 0 < c -> gain_of c == c.
Proof. intros H. unfold gain_of. apply Q.max_l. lra. Qed.

Lemma gain_of_nonpos (c : Q) : c <= 0 -> gain_of c == 0.
Proof. intros H. unfold gain_of. apply Q.max_r. exact H. Qed.

Lemma loss_of_neg (c : Q) : c <= 0 -> loss_of c == - c.
Proof. intros H. unfold loss_of. apply Q.max_l. lra. Qed.

Lemma loss_of_nonneg (c : Q) : 0 <= c -> loss_of c == 0.
Proof. intros H. unfold loss_of. apply Q.max_r. lra. Qed.

(** The first loop accumulates the gains and the losses of the changes
    it visits. *)
Lemma seed_loop (closes : list Q) (idx : list nat) :
  forall g l : Q,
    (fold_left (seed_step closes) idx (g, l)).1
    == g + sum_over gain_of closes idx
    /\ (fold_left (seed_step closes) idx (g, l)).2
       == l + sum_over loss_of closes idx.
Proof.
  induction idx as [| i rest IH]; intros g l.
  - cbn. split; ring.
  - cbn [fold_left]. unfold sum_over. cbn [fold_right]. fold (sum_over gain_of closes rest).
    fold (sum_over loss_of closes rest).
    assert (Hstep : seed_step closes (g, l) i
                    = if Js.gtb (change closes i) 0
                      then (g + change closes i, l)
                      else (g, l + Js.Math_abs (change closes i)))
      by reflexivity.
    rewrite Hstep. clear Hstep.
    destruct (Js.gtb (change closes i) 0) eqn:E.
    + apply JsFacts.gtb_true in E.
      destruct (IH (g + change closes i) l) as [H1 H2].
      rewrite H1, H2, (gain_of_pos _ E), (loss_of_nonneg _ (Qlt_le_weak _ _ E)).
      split; ring.
    + apply JsFacts.gtb_false in E.
      destruct (IH g (l + Js.Math_abs (change closes i))) as [H1 H2].
      rewrite H1, H2, (gain_of_nonpos _ E), (loss_of_neg _ E), (abs_neg _ E).
      split; ring.
Qed.

Lemma seed_is_average (closes : list Q) (period : nat) :
  (seed closes period).1
  == sum_over gain_of closes (seq 1 period) / of_nat period
  /\ (seed closes period).2
     == sum_over loss_of closes (seq 1 period) / of_nat period.
Proof.
  unfold seed.
  destruct (seed_loop closes (seq 1 period) 0 0) as [H1 H2].
  destruct (fold_left (seed_step closes) (seq 1 period) (0, 0)) as [g l].
  cbn in *. rewrite H1, H2. split; apply Qdiv_comp; try reflexivity; ring.
Qed.

Lemma smooth_is_wilder (closes : list Q) (period : nat) (avg : Q * Q) (i : nat) :
  (smooth closes period avg i).1
  == (avg.1 * (of_nat period - 1) + gain_of (change closes i)) / of_nat period
  /\ (smooth closes period avg i).2
     == (avg.2 * (of_nat period - 1) + loss_of (change closes i)) / of_nat period.
Proof.
  destruct avg as [g l]. unfold smooth. cbn [fst snd].
  set (c := change closes i).
  destruct (Js.gtb c 0) eqn:E1; destruct (Js.ltb c 0) eqn:E2;
    try apply JsFacts.gtb_true in E1; try apply JsFacts.gtb_false in E1;
    try apply JsFacts.ltb_true in E2; try apply JsFacts.ltb_false in E2.
  - lra.
  - rewrite (gain_of_pos _ E1), (loss_of_nonneg _ E2). split; reflexivity.
  - rewrite (gain_of_nonpos _ E1), (loss_of_neg _ E1), (abs_neg _ E1).
    split; reflexivity.
  - rewrite (gain_of_nonpos _ E1), (loss_of_nonneg _ E2). split; reflexivity.
Qed.

(** Reading the output array. *)
Lemma rsi_written (closes : list Q) (period k : nat) :
  (period + k < length closes)%nat ->
  opt_at (rsi closes period) (period + k)
  = Some (rsi_value (averages closes period k)).
Proof.
  intros Hlen. unfold rsi, opt_at.
  assert (E : (length closes <? period + 1)%nat = false)
    by (apply Nat.ltb_ge; lia).
  rewrite E, app_nth2; rewrite repeat_length; [| lia].
  replace (period + k - period)%nat with k by lia.
  rewrite (nth_indep _ None (Some (rsi_value (averages closes period 0))))
    by (rewrite length_map, length_seq; lia).
  change (Some (rsi_value (averages closes period 0)))
    with ((fun j => Some (rsi_value (averages closes period j))) 0%nat).
  rewrite map_nth, seq_nth by lia. reflexivity.
Qed.

Lemma rsi_null_before (closes : list Q) (period i : nat) :
  (i < period)%nat -> opt_at (rsi closes period) i = None.
Proof.
  intros Hi. unfold rsi, opt_at.
  destruct (length closes <? period + 1)%nat.
  - destruct (Nat.lt_ge_cases i (length closes)) as [Hin | Hout].
    + apply nth_repeat_lt. exact Hin.
    + apply nth_overflow. rewrite repeat_length. exact Hout.
  - rewrite app_nth1 by (rewrite repeat_length; exact Hi).
    apply nth_repeat_lt. exact Hi.
Qed.

Lemma rsi_value_zero_loss (avg : Q * Q) :
  avg.2 == 0 -> rsi_value avg == 10000 # 101.
Proof.
  destruct avg as [g l]. cbn [snd]. intros Hz. unfold rsi_value.
  apply JsFacts.eqb_true in Hz. rewrite Hz. reflexivity.
Qed.

Lemma rsi_value_some_loss (avg : Q * Q) :
  ~ avg.2 == 0 -> rsi_value avg = 100 - 100 / (1 + avg.1 / avg.2).
Proof.
  destruct avg as [g l]. cbn [fst snd]. intros Hz. unfold rsi_value.
  apply JsFacts.eqb_false in Hz. rewrite Hz. reflexivity.
Qed.

(** The seeding and the smoothing.  For a period of at least 1 (a
    period of 0 divides by zero) the averages are seeded with the mean
    gain and the mean loss of the first [period] changes and then
    smoothed by (avg * (period - 1) + new) / period; the value written
    at an index comes from the averages of that index, and where the
    average loss is not 0 it is 100 - 100 / (1 + avgGain / avgLoss). *)
Theorem rsi_seed_and_smoothing :
  forall (closes : list Q) (period k : nat),
    (1 <= period)%nat ->
    (period + k < length closes)%nat ->
    let avg := averages closes period k in
    (averages closes period 0).1
    == sum_over gain_of closes (seq 1 period) / of_nat period
    /\ (averages closes period 0).2
       == sum_over loss_of closes (seq 1 period) / of_nat period
    /\ (averages closes period (S k)).1
       == (avg.1 * (of_nat period - 1)
           + gain_of (change closes (period + S k))) / of_nat period
    /\ (averages closes period (S k)).2
       == (avg.2 * (of_nat period - 1)
           + loss_of (change closes (period + S k))) / of_nat period
    /\ opt_at (rsi closes period) (period + k) = Some (rsi_value avg)
    /\ (~ avg.2 == 0 -> rsi_value avg = 100 - 100 / (1 + avg.1 / avg.2)).
Proof.
  intros closes period k Hperiod Hlen avg. subst avg.
  destruct (seed_is_average closes period) as [Hg Hl].
  destruct (smooth_is_wilder closes period (averages closes period k)
              (period + S k)) as [Hsg Hsl].
  refine (conj Hg (conj Hl (conj Hsg (conj Hsl (conj _ _))))).
  - apply rsi_written, Hlen.
  - apply rsi_value_some_loss.
Qed.

Lemma rsi_seed_and_smoothing_witness :
  opt_at (rsi [1; 2; 3; 2; 5] 2) 3 = Some (rsi_value (averages [1; 2; 3; 2; 5] 2 1))
  /\ rsi_value (averages [1; 2; 3; 2; 5] 2 1) == 50.
Proof.
  destruct (rsi_seed_and_smoothing [1; 2; 3; 2; 5] 2 1 ltac:(lia) ltac:(cbn; lia))
    as (_ & _ & _ & _ & Hw & Hnz).
  refine (conj Hw _).
  rewrite Hnz; [vm_compute; reflexivity | vm_compute; discriminate].
Defined.

(** C6.  The claim fails at closes that only rise.  For [1, 2, 3] and
    period 2 there is no loss in the first two changes, the average loss
    at index 2 is 0, and the guard [avgLoss === 0 ? 100 : avgGain / avgLoss]
    gives RS, not the RSI, the value 100: the value written there is
    100 - 100 / 101 = 10000/101 (about 99.01), not 100. *)
Lemma rsi_zero_loss_is_not_100 :
  (averages [1; 2; 3] 2 0).2 == 0
  /\ rsi [1; 2; 3] 2 = [None; None; Some (10000 # 101)]
  /\ ~ (10000 # 101 == 100).
Proof.
  refine (conj _ (conj _ _)); vm_compute; [reflexivity | reflexivity | discriminate].
Qed.

(** A window with a small loss is rated above a window with none. *)
Example rsi_small_loss_above_no_loss :
  map (fmap Qred) (rsi [100; 300; 299] 2) = [None; None; Some (20000 # 201)]
  /\ 10000 # 101 < 20000 # 201.
Proof. split; vm_compute; reflexivity. Qed.

End RsiProps.

(** ** Exposure limits in exact arithmetic *)
Module AdvancedRiskProps.

Import AdvancedRisk.
Local Open Scope Q_scope.

(** *** Printing respects numeric equality *)

Lemma Qle_bool_comp (a x y : Q) : x == y -> Qle_bool a x = Qle_bool a y.
Proof.
  intros H. destruct (Qle_bool a y) eqn:E.
  - apply Qle_bool_iff. apply Qle_bool_iff in E. lra.
  - apply not_true_iff_false. apply not_true_iff_false in E.
    rewrite Qle_bool_iff in *. lra.
Qed.

Lemma Qle_bool_comp_l (a x y : Q) : x == y -> Qle_bool x a = Qle_bool y a.
Proof.
  intros H. destruct (Qle_bool y a) eqn:E.
  - apply Qle_bool_iff. apply Qle_bool_iff in E. lra.
  - apply not_true_iff_false. apply not_true_iff_false in E.
    rewrite Qle_bool_iff in *. lra.
Qed.

Lemma abs_comp (x y : Q) : x == y -> Js.Math_abs x == Js.Math_abs y.
Proof.
  intros H. unfold Js.Math_abs. rewrite (Qle_bool_comp 0 x y H).
  destruct (Qle_bool 0 y); lra.
Qed.

Lemma scaled_comp (x y : Q) (d : nat) : x == y -> Js.scaled x d = Js.scaled y d.
Proof.
  intros H. unfold Js.scaled. apply Qfloor_comp.
  rewrite (abs_comp x y H). reflexivity.
Qed.

Lemma toFixed_comp (x y : Q) (d : nat) : x == y -> Js.toFixed x d = Js.toFixed y d.
Proof.
  intros H. unfold Js.toFixed, Js.ltb.
  rewrite (scaled_comp x y d H), (Qle_bool_comp 0 x y H). reflexivity.
Qed.

Lemma gtb_comp (x y c : Q) : x == y -> Js.gtb x c = Js.gtb y c.
Proof. intros H. unfold Js.gtb. rewrite (Qle_bool_comp_l c x y H). reflexivity. Qed.

(** *** Exposure, in the words of the specification *)

Definition is_open (t : Trade) : bool := String.eqb (status t) "open".

(** The amounts of the open trades, added up in list order. *)
Definition open_total (openTrades : list Trade) : Q :=
  fold_left (fun acc t => if is_open t then acc + amount_or_0 t else acc)
            openTrades 0.

(** The same for the open trades of one symbol. *)
Definition symbol_total (sym : string) (openTrades : list Trade) : Q :=
  fold_left (fun acc t =>
               if is_open t && String.eqb (symbol_or_unknown t) sym
               then acc + amount_or_0 t else acc)
            openTrades 0.

Definition exposure_or_0 (e : option SymbolExposure) : Q :=
  match e with Some x => exposure x | None => 0 end.

Lemma exposure_step_open (acc : Q) (m : gmap string SymbolExposure) (t : Trade) :
  is_open t = true ->
  exists x : SymbolExposure,
    exposure_step (acc, m) t
    = (acc + amount_or_0 t, <[ symbol_or_unknown t := x ]> m)
    /\ exposure x
       = exposure_or_0 (m !! symbol_or_unknown t) + amount_or_0 t.
Proof.
  intros Ho. unfold exposure_step. unfold is_open in Ho. rewrite Ho.
  eexists. split; [reflexivity |]. cbn.
  destruct (m !! symbol_or_unknown t); reflexivity.
Qed.

Lemma exposure_step_closed (acc : Q) (m : gmap string SymbolExposure) (t : Trade) :
  is_open t = false -> exposure_step (acc, m) t = (acc, m).
Proof.
  intros Ho. unfold exposure_step. unfold is_open in Ho. rewrite Ho. reflexivity.
Qed.

Lemma exposure_loop_from (openTrades : list Trade) :
  forall (acc : Q) (m : gmap string SymbolExposure),
    (fold_left exposure_step openTrades (acc, m)).1
    = fold_left (fun a t => if is_open t then a + amount_or_0 t else a)
        openTrades acc
    /\ forall sym,
        exposure_or_0 ((fold_left exposure_step openTrades (acc, m)).2 !! sym)
        = fold_left (fun a t =>
                       if is_open t && String.eqb (symbol_or_unknown t) sym
                       then a + amount_or_0 t else a)
            openTrades (exposure_or_0 (m !! sym)).
Proof.
  induction openTrades as [| t rest IH]; intros acc m; cbn [fold_left].
  - split; [reflexivity | intros; reflexivity].
  - destruct (is_open t) eqn:Eo.
    + destruct (exposure_step_open acc m t Eo) as (x & -> & Hx).
      destruct (IH (acc + amount_or_0 t) (<[ symbol_or_unknown t := x ]> m))
        as [IH1 IH2].
      split; [exact IH1 |]. intros sym. rewrite IH2. cbn [andb].
      destruct (String.eqb (symbol_or_unknown t) sym) eqn:Es.
      * apply String.eqb_eq in Es. subst sym. rewrite lookup_insert_eq.
        cbn [exposure_or_0]. rewrite Hx. reflexivity.
      * apply String.eqb_neq in Es. rewrite lookup_insert_ne by exact Es.
        reflexivity.
    + rewrite (exposure_step_closed acc m t Eo). cbn [andb]. apply IH.
Qed.

(** The total as [calculatePortfolioExposure] reports it: rounded to
    cents. *)
Definition reported_total (openTrades : list Trade) : Q :=
  match openTrades with
  | [] => 0
  | _ => Js.parseFloat_toFixed (open_total openTrades) 2
  end.

Lemma exposure_reported (limits : PortfolioLimits) (openTrades : list Trade)
  (pv : Q) (sym : string) :
  totalExposure (calculatePortfolioExposure limits openTrades pv)
  = reported_total openTrades
  /\ exposure_or_0
       (exposureBySymbol (calculatePortfolioExposure limits openTrades pv) !! sym)
     = symbol_total sym openTrades.
Proof.
  destruct openTrades as [| t rest]; [split; reflexivity |].
  unfold calculatePortfolioExposure, exposure_loop, reported_total.
  destruct (exposure_loop_from (t :: rest) 0 ∅) as [H1 H2].
  destruct (fold_left exposure_step (t :: rest) (0, ∅)) as [total m].
  cbn [fst snd] in H1, H2. cbn [totalExposure exposureBySymbol].
  split.
  - rewrite H1. reflexivity.
  - rewrite lookup_fmap. specialize (H2 sym). rewrite lookup_empty in H2.
    change (exposure_or_0 None) with 0 in H2.
    unfold symbol_total. rewrite <- H2.
    destruct (m !! sym); reflexivity.
Qed.

(** What [validatePortfolioLimits] decides, in terms of the reported
    total and the symbol's exposure. *)
Lemma validate_decision (limits : PortfolioLimits) (sym : string) (amt : Q)
  (openTrades : list Trade) (pv : Q) :
  let total_pct := (reported_total openTrades + amt) / pv in
  let symbol_pct := (symbol_total sym openTrades + amt) / pv in
  (maxTotalExposure limits < total_pct ->
   ok (validatePortfolioLimits limits sym amt openTrades pv) = false
   /\ v_reason (validatePortfolioLimits limits sym amt openTrades pv)
      = Some ("Would exceed max total exposure ("
              ++ Js.toFixed (total_pct * 100) 1 ++ "% > "
              ++ Js.Number_toStringQ (maxTotalExposure limits * 100) ++ "%)"))
  /\ (total_pct <= maxTotalExposure limits ->
      maxExposurePerSymbol limits < symbol_pct ->
      ok (validatePortfolioLimits limits sym amt openTrades pv) = false
      /\ v_reason (validatePortfolioLimits limits sym amt openTrades pv)
         = Some ("Would exceed max exposure for " ++ sym ++ " ("
                 ++ Js.toFixed (symbol_pct * 100) 1 ++ "% > "
                 ++ Js.Number_toStringQ (maxExposurePerSymbol limits * 100)
                 ++ "%)"))
  /\ (total_pct <= maxTotalExposure limits ->
      symbol_pct <= maxExposurePerSymbol limits ->
      validatePortfolioLimits limits sym amt openTrades pv
      = {| ok := true; v_reason := None; currentExposure := None;
           limit := None |}).
Proof.
  intros total_pct symbol_pct. subst total_pct symbol_pct.
  unfold validatePortfolioLimits.
  destruct (exposure_reported limits openTrades pv sym) as [Ht Hs].
  rewrite Ht.
  replace (match exposureBySymbol (calculatePortfolioExposure limits openTrades pv)
                 !! sym with
           | Some e => exposure e
           | None => 0
           end) with (symbol_total sym openTrades)
    by (rewrite <- Hs; reflexivity).
  refine (conj _ (conj _ _)).
  - intros H. apply JsFacts.gtb_true in H. rewrite H. split; reflexivity.
  - intros H1 H2. apply JsFacts.gtb_false in H1. apply JsFacts.gtb_true in H2.
    rewrite H1, H2. split; reflexivity.
  - intros H1 H2. apply JsFacts.gtb_false in H1. apply JsFacts.gtb_false in H2.
    rewrite H1, H2. reflexivity.
Qed.

Lemma reported_when_exact (openTrades : list Trade) :
  Js.parseFloat_toFixed (open_total openTrades) 2 == open_total openTrades ->
  reported_total openTrades == open_total openTrades.
Proof.
  intros H. destruct openTrades; [reflexivity | exact H].
Qed.

(** *** Absolute value *)


End AdvancedRiskProps.

(** ** Exposure limits over binary64 *)
Module ExposureProps.

Import PrimFloat DoubleFacts AdvancedRiskDouble.
Local Open Scope float_scope.

Definition is_open (t : Trade) : bool := String.eqb (status t) "open".

(** The amounts of the open trades, added up in list order. *)
Definition open_total (openTrades : list Trade) : float :=
  fold_left (fun acc t => if is_open t then acc + amount_or_0 t else acc)
            openTrades 0.

(** The same for the open trades of one symbol. *)
Definition symbol_total (sym : string) (openTrades : list Trade) : float :=
  fold_left (fun acc t =>
               if is_open t && String.eqb (symbol_or_unknown t) sym
               then acc + amount_or_0 t else acc)
            openTrades 0.

Definition exposure_or_0 (e : option SymbolExposure) : float :=
  match e with Some x => exposure x | None => 0 end.

Lemma step_when_open (acc : float) (m : gmap string SymbolExposure)
  (t : Trade) :
  is_open t = true ->
  exists x : SymbolExposure,
    exposure_step (acc, m) t
    = (acc + amount_or_0 t, <[ symbol_or_unknown t := x ]> m)
    /\ exposure x
       = exposure_or_0 (m !! symbol_or_unknown t) + amount_or_0 t.
Proof.
  intros Ho. unfold exposure_step. unfold is_open in Ho. rewrite Ho.
  eexists. split; [reflexivity |]. cbn [exposure].
  destruct (m !! symbol_or_unknown t); reflexivity.
Qed.

Lemma step_when_closed (acc : float) (m : gmap string SymbolExposure)
  (t : Trade) :
  is_open t = false -> exposure_step (acc, m) t = (acc, m).
Proof.
  intros Ho. unfold exposure_step. unfold is_open in Ho. rewrite Ho. reflexivity.
Qed.

Lemma loop_adds_up (openTrades : list Trade) :
  forall (acc : float) (m : gmap string SymbolExposure),
    (fold_left exposure_step openTrades (acc, m)).1
    = fold_left (fun a t => if is_open t then a + amount_or_0 t else a)
        openTrades acc
    /\ forall sym,
        exposure_or_0 ((fold_left exposure_step openTrades (acc, m)).2 !! sym)
        = fold_left (fun a t =>
                       if is_open t && String.eqb (symbol_or_unknown t) sym
                       then a + amount_or_0 t else a)
            openTrades (exposure_or_0 (m !! sym)).
Proof.
  induction openTrades as [| t rest IH]; intros acc m; cbn [fold_left].
  - split; [reflexivity | intros; reflexivity].
  - destruct (is_open t) eqn:Eo.
    + destruct (step_when_open acc m t Eo) as (x & -> & Hx).
      destruct (IH (acc + amount_or_0 t) (<[ symbol_or_unknown t := x ]> m))
        as [IH1 IH2].
      split; [exact IH1 |]. intros sym. rewrite IH2. cbn [andb].
      destruct (String.eqb (symbol_or_unknown t) sym) eqn:Es.
      * apply String.eqb_eq in Es. subst sym. rewrite lookup_insert_eq.
        cbn [exposure_or_0]. rewrite Hx. reflexivity.
      * apply String.eqb_neq in Es. rewrite lookup_insert_ne by exact Es.
        reflexivity.
    + rewrite (step_when_closed acc m t Eo). cbn [andb]. apply IH.
Qed.

(** The total as [calculatePortfolioExposure] reports it: rounded to
    cents. *)
Definition reported_total (openTrades : list Trade) : float :=
  match openTrades with
  | [] => 0
  | _ => Double.parseFloat_toFixed (open_total openTrades) 2
  end.

Lemma exposure_as_reported (limits : PortfolioLimits) (openTrades : list Trade)
  (pv : float) (sym : string) :
  totalExposure (calculatePortfolioExposure limits openTrades pv)
  = reported_total openTrades
  /\ exposure_or_0
       (exposureBySymbol (calculatePortfolioExposure limits openTrades pv) !! sym)
     = symbol_total sym openTrades.
Proof.
  destruct openTrades as [| t rest]; [split; reflexivity |].
  unfold calculatePortfolioExposure, exposure_loop, reported_total.
  destruct (loop_adds_up (t :: rest) 0 ∅) as [H1 H2].
  destruct (fold_left exposure_step (t :: rest) (0, ∅)) as [total m].
  cbn [fst snd] in H1, H2. cbn [totalExposure exposureBySymbol].
  split.
  - rewrite H1. reflexivity.
  - rewrite lookup_fmap. specialize (H2 sym). rewrite lookup_empty in H2.
    change (exposure_or_0 None) with 0 in H2.
    unfold symbol_total. rewrite <- H2.
    destruct (m !! sym); reflexivity.
Qed.

(** What [validatePortfolioLimits] decides, in terms of the reported
    total and the symbol's exposure. *)
Lemma decision_by_percentages (limits : PortfolioLimits) (sym : string) (amt : float)
  (openTrades : list Trade) (pv : float) :
  let total_pct := (reported_total openTrades + amt) / pv in
  let symbol_pct := (Double.or0 (symbol_total sym openTrades) + amt) / pv in
  ((maxTotalExposure limits <? total_pct) = true ->
   ok (validatePortfolioLimits limits sym amt openTrades pv) = false
   /\ v_reason (validatePortfolioLimits limits sym amt openTrades pv)
      = Some ("Would exceed max total exposure ("
              ++ Double.toFixed (total_pct * 100) 1 ++ "% > "
              ++ Double.toString (maxTotalExposure limits * 100) ++ "%)"))
  /\ ((maxTotalExposure limits <? total_pct) = false ->
      (maxExposurePerSymbol limits <? symbol_pct) = true ->
      ok (validatePortfolioLimits limits sym amt openTrades pv) = false
      /\ v_reason (validatePortfolioLimits limits sym amt openTrades pv)
         = Some ("Would exceed max exposure for " ++ sym ++ " ("
                 ++ Double.toFixed (symbol_pct * 100) 1 ++ "% > "
                 ++ Double.toString (maxExposurePerSymbol limits * 100)
                 ++ "%)"))
  /\ ((maxTotalExposure limits <? total_pct) = false ->
      (maxExposurePerSymbol limits <? symbol_pct) = false ->
      validatePortfolioLimits limits sym amt openTrades pv
      = {| ok := true; v_reason := None; currentExposure := None;
           limit := None |}).
Proof.
  intros total_pct symbol_pct. subst total_pct symbol_pct.
  unfold validatePortfolioLimits, Double.gtb.
  destruct (exposure_as_reported limits openTrades pv sym) as [Ht Hs].
  rewrite Ht.
  replace (match exposureBySymbol (calculatePortfolioExposure limits openTrades pv)
                 !! sym with
           | Some e => Double.or0 (exposure e)
           | None => 0
           end) with (Double.or0 (symbol_total sym openTrades)).
  2:{ rewrite <- Hs.
      destruct (exposureBySymbol _ !! sym); reflexivity. }
  refine (conj _ (conj _ _)).
  - intros H. rewrite H. split; reflexivity.
  - intros H1 H2. rewrite H1, H2. split; reflexivity.
  - intros H1 H2. rewrite H1, H2. reflexivity.
Qed.

Lemma at_or_below (x cap : float) : (x <=? cap) = true -> (cap <? x) = false.
Proof.
  intros H.
  destruct (compare_order x cap) as [_ _ _ _ _ B _ | _ _ _ L _ _ _ _
                                    | _ _ _ L _ _ _ _ | _ _ _ _ _ _ B _];
    try exact L; rewrite H in B; discriminate B.
Qed.

(** C5, as the code has it by design.  The function computes in binary64
    the post-trade total percentage [(T + amount) / portfolioValue] and
    the post-trade percentage of the symbol [(S + amount) /
    portfolioValue], with [T] the sum of the amounts of the open trades
    and [S] that of the symbol's.  When rounding [T] to cents leaves it
    as it is: if the total percentage is greater than the total cap the
    entry is rejected with a reason that prints that percentage times
    100 to one decimal place and the cap times 100; otherwise, if the
    symbol's percentage is greater than the per-symbol cap, it is
    rejected with the corresponding reason; when neither is greater than
    its cap, in particular when both are at or below their caps, the
    result is [{ok: true}].  The function returns this record and
    nothing else: it has no state to write. *)
Theorem exposure_limits_enforced :
  forall (limits : PortfolioLimits) (sym : string) (amt : float)
         (openTrades : list Trade) (pv : float),
    Double.parseFloat_toFixed (open_total openTrades) 2 = open_total openTrades ->
    let total_pct := (open_total openTrades + amt) / pv in
    let symbol_pct := (Double.or0 (symbol_total sym openTrades) + amt) / pv in
    let verdict := validatePortfolioLimits limits sym amt openTrades pv in
    ((maxTotalExposure limits <? total_pct) = true ->
     ok verdict = false
     /\ v_reason verdict
        = Some ("Would exceed max total exposure ("
                ++ Double.toFixed (total_pct * 100) 1 ++ "% > "
                ++ Double.toString (maxTotalExposure limits * 100) ++ "%)"))
    /\ ((maxTotalExposure limits <? total_pct) = false ->
        (maxExposurePerSymbol limits <? symbol_pct) = true ->
        ok verdict = false
        /\ v_reason verdict
           = Some ("Would exceed max exposure for " ++ sym ++ " ("
                   ++ Double.toFixed (symbol_pct * 100) 1 ++ "% > "
                   ++ Double.toString (maxExposurePerSymbol limits * 100)
                   ++ "%)"))
    /\ ((maxTotalExposure limits <? total_pct) = false ->
        (maxExposurePerSymbol limits <? symbol_pct) = false ->
        verdict = {| ok := true; v_reason := None; currentExposure := None;
                     limit := None |})
    /\ ((total_pct <=? maxTotalExposure limits) = true ->
        (symbol_pct <=? maxExposurePerSymbol limits) = true ->
        verdict = {| ok := true; v_reason := None; currentExposure := None;
                     limit := None |}).
Proof.
  intros limits sym amt openTrades pv Hexact total_pct symbol_pct verdict.
  subst verdict total_pct symbol_pct.
  assert (Hrep : reported_total openTrades = open_total openTrades).
  { destruct openTrades; [reflexivity | exact Hexact]. }
  destruct (decision_by_percentages limits sym amt openTrades pv) as (Ht & Hs & Hok).
  rewrite Hrep in Ht, Hs, Hok.
  refine (conj Ht (conj Hs (conj Hok _))).
  intros H1 H2. apply Hok; apply at_or_below; assumption.
Qed.

Definition held_2000_btc : list Trade :=
  [ {| status := "open"; amount := Some 2000; symbol := Some "BTC" |};
    {| status := "closed"; amount := Some 9000; symbol := Some "BTC" |} ].

Lemma exposure_limits_enforced_witness :
  v_reason (validatePortfolioLimits portfolioLimits0 "ETH" 5600 held_2000_btc 10000)
  = Some "Would exceed max total exposure (76.0% > 75%)"
  /\ v_reason (validatePortfolioLimits portfolioLimits0 "BTC" 1000 held_2000_btc 10000)
     = Some "Would exceed max exposure for BTC (30.0% > 25%)"
  /\ ok (validatePortfolioLimits portfolioLimits0 "BTC" 500 held_2000_btc 10000) = true
  /\ ok (validatePortfolioLimits portfolioLimits0 "ETH" 5500 held_2000_btc 10000) = false.
Proof.
  assert (Hexact : Double.parseFloat_toFixed (open_total held_2000_btc) 2
                   = open_total held_2000_btc) by (vm_compute; reflexivity).
  pose proof (fun sym amt =>
                exposure_limits_enforced portfolioLimits0 sym amt held_2000_btc
                  10000 Hexact) as H.
  refine (conj _ (conj _ (conj _ _))).
  - destruct (proj1 (H "ETH" 5600) ltac:(vm_compute; reflexivity)) as [_ Hr].
    rewrite Hr. vm_compute. reflexivity.
  - destruct (proj1 (proj2 (H "BTC" 1000)) ltac:(vm_compute; reflexivity)
                ltac:(vm_compute; reflexivity)) as [_ Hr].
    rewrite Hr. vm_compute. reflexivity.
  - rewrite (proj2 (proj2 (proj2 (H "BTC" 500))));
      [reflexivity | vm_compute; reflexivity | vm_compute; reflexivity].
  - destruct (proj1 (proj2 (H "ETH" 5500)) ltac:(vm_compute; reflexivity)
                ltac:(vm_compute; reflexivity)) as [Hr _].
    exact Hr.
Defined.

(** Two inputs on which the claim as worded fails.  With one open trade
    of 6500.004 a new entry of 1000 brings the total to 7500.004 of
    10000, above the 75% cap, and is accepted: the check adds the amount
    to the total already rounded to cents.  And an entry of 7504 into an
    empty book is 75.03999999999999% of 10000 as computed; the reason
    prints 75.0. *)
Lemma exposure_claim_counterexample :
  let held := [ {| status := "open"; amount := Some (Double.of_Q (6500004 # 1000));
                   symbol := Some "BTC" |} ] in
  ((maxTotalExposure portfolioLimits0 <? (open_total held + 1000) / 10000) = true
   /\ ok (validatePortfolioLimits portfolioLimits0 "ETH" 1000 held 10000) = true)
  /\ (Double.toString ((open_total [] + 7504) / 10000 * 100) = "75.03999999999999"
      /\ v_reason (validatePortfolioLimits portfolioLimits0 "ETH" 7504 [] 10000)
         = Some "Would exceed max total exposure (75.0% > 75%)"
      /\ Js.includes "75.03999999999999"
           "Would exceed max total exposure (75.0% > 75%)" = false).
Proof.
  cbv zeta. refine (conj (conj _ _) (conj _ (conj _ _))); vm_compute; reflexivity.
Qed.

(** What the doubles decide at the edges.  Two open trades of 603.26 and
    4250.89 and an entry of 45.85, of a portfolio of 19600, are 25% on
    paper; the doubles add up to 4900.000000000001 and the entry is
    rejected.  With a portfolio value of 0 a positive exposure is
    [Infinity] percent and rejected, while an exposure of 0 gives [NaN],
    which is greater than nothing, and the entry is accepted. *)
Example exposure_at_the_edges :
  let held := [ {| status := "open"; amount := Some (Double.of_Q (60326 # 100));
                   symbol := Some "BTC" |};
                {| status := "open"; amount := Some (Double.of_Q (425089 # 100));
                   symbol := Some "BTC" |} ] in
  Double.toString (symbol_total "BTC" held + Double.of_Q (4585 # 100))
  = "4900.000000000001"
  /\ v_reason (validatePortfolioLimits portfolioLimits0 "BTC"
                 (Double.of_Q (4585 # 100)) held 19600)
     = Some "Would exceed max exposure for BTC (25.0% > 25%)"
  /\ v_reason (validatePortfolioLimits portfolioLimits0 "BTC" 1000 [] 0)
     = Some "Would exceed max total exposure (Infinity% > 75%)"
  /\ ok (validatePortfolioLimits portfolioLimits0 "BTC" 0 [] 0) = true.
Proof. cbv zeta. repeat split; vm_compute; reflexivity. Qed.

End ExposureProps.

(** ** Kelly sizing over binary64 *)
Module KellyProps.

Import PrimFloat DoubleFacts AdvancedRiskDouble.
Local Open Scope float_scope.

Lemma min_cases (f : float) :
  is_nan f = false ->
  ((f <? 0.5) = true /\ Double.Math_min f 0.5 = f)
  \/ ((f <=? 0.5) = false /\ (0.5 <=? f) = true /\ Double.Math_min f 0.5 = 0.5)
  \/ (f = 0.5 /\ Double.Math_min f 0.5 = 0.5).
Proof.
  intros Hn. unfold Double.Math_min. rewrite Hn.
  destruct (compare_order f 0.5) as [U | _ _ L1 L2 _ _ _ _ | _ _ L1 L2 E _ _ _
                                    | _ _ L1 L2 _ _ B1 B2].
  - rewrite Hn in U. discriminate U.
  - left. rewrite L1. split; reflexivity.
  - right. right. assert (Ef : f = 0.5) by (apply eqb_eq; [exact E | reflexivity]).
    subst f. split; reflexivity.
  - right. left. rewrite L1, L2. repeat split; assumption.
Qed.

Lemma max_cases (m : float) :
  is_nan m = false ->
  ((0 <? m) = true /\ Double.Math_max 0 m = m)
  \/ ((0 <? m) = false /\ (m <=? 0) = true /\ Double.Math_max 0 m = 0).
Proof.
  intros Hn. unfold Double.Math_max. rewrite Hn.
  destruct (compare_order 0 m) as [U | _ _ L1 L2 _ _ _ _ | _ _ L1 L2 _ _ _ B2
                                  | _ _ L1 L2 _ _ _ B2].
  - rewrite Hn in U. discriminate U.
  - left. rewrite L1. split; reflexivity.
  - right. rewrite L1, L2. repeat split; assumption.
  - right. rewrite L1, L2. repeat split; assumption.
Qed.

Lemma half_le_positive (f : float) : (0.5 <=? f) = true -> (f <=? 0) = false.
Proof.
  rewrite !FloatAxioms.leb_spec.
  replace (FloatOps.Prim2SF 0.5)
    with (SpecFloat.S754_finite false 4503599627370496 (-53))
    by (vm_compute; reflexivity).
  replace (FloatOps.Prim2SF 0) with (SpecFloat.S754_zero false)
    by (vm_compute; reflexivity).
  unfold SpecFloat.SFleb, SpecFloat.SFcompare.
  destruct (FloatOps.Prim2SF f) as [s | s | | s m e]; try discriminate;
    destruct s; try discriminate; reflexivity.
Qed.

Lemma clamp_cases (f : float) :
  let c := Double.Math_max 0 (Double.Math_min f 0.5) in
  (is_nan f = true -> is_nan c = true)
  /\ (is_nan f = false ->
      (0 <=? c) = true /\ (c <=? 0.5) = true
      /\ ((f <=? 0) = true -> c = 0)
      /\ ((0 <? f) = true -> (f <=? 0.5) = true -> c = f)
      /\ ((0.5 <=? f) = true -> c = 0.5)).
Proof.
  cbv zeta. split.
  - intros Hn. unfold Double.Math_max, Double.Math_min. rewrite Hn. reflexivity.
  - intros Hn.
    destruct (min_cases f Hn) as [[L ->] | [(B & B' & ->) | [-> ->]]].
    + destruct (max_cases f Hn) as [[P ->] | (P & Q & ->)].
      * destruct (compare_order 0 f) as [U | _ _ _ _ _ _ C1 C2 | _ _ C0 _ _ _ _ _
                                        | _ _ C0 _ _ _ _ _];
          try (rewrite P in C0; discriminate C0).
        { rewrite Hn in U. discriminate U. }
        destruct (compare_order f 0.5) as [U | _ _ _ _ _ _ D1 D2 | _ _ D0 _ _ _ _ _
                                          | _ _ D0 _ _ _ _ _];
          try (rewrite L in D0; discriminate D0).
        { rewrite Hn in U. discriminate U. }
        refine (conj C1 (conj D1 (conj _ (conj _ _)))).
        -- intros H. rewrite H in C2. discriminate C2.
        -- intros _ _. reflexivity.
        -- intros H. rewrite H in D2. discriminate D2.
      * destruct (compare_order f 0.5) as [U | _ _ _ _ _ _ D1 D2 | _ _ D0 _ _ _ _ _
                                          | _ _ D0 _ _ _ _ _];
          try (rewrite L in D0; discriminate D0).
        { rewrite Hn in U. discriminate U. }
        refine (conj eq_refl (conj eq_refl (conj _ (conj _ _)))).
        -- intros _. reflexivity.
        -- intros H. rewrite H in P. discriminate P.
        -- intros H. rewrite H in D2. discriminate D2.
    + refine (conj eq_refl (conj eq_refl (conj _ (conj _ _)))).
      * intros H.
        rewrite (half_le_positive f B') in H. discriminate H.
      * intros _ H. rewrite H in B. discriminate B.
      * intros _. reflexivity.
    + refine (conj eq_refl (conj eq_refl (conj _ (conj _ _)))).
      * intros H. discriminate H.
      * intros _ _. reflexivity.
      * intros _. reflexivity.
Qed.

(** C9.  With p = winRate/100, q = 1 - p, b = avgWin/|avgLoss| and
    f = (p*b - q)/b scaled by the safety fraction, every operation one
    of binary64, the fraction used is f clamped to [0, 0.5]: 0 when f is
    at or below 0, f itself when it lies in (0, 0.5], and 0.5 when f is
    at or above it (a NaN stays a NaN).  The reported percentage and
    position size are that fraction times 100 and times the portfolio
    value, rounded to two decimals, and the recommendation is the
    'Optimal position size' text exactly when the unrounded size is
    greater than 0.  A zero win rate, average win or average loss gives
    a zero position with the 'Insufficient data' message.  The safety
    fraction defaults to 0.25.  For 60 / 150 / 100 / 10000 / 0.25 the
    size is 833.33, inside [0, 5000], with the positive recommendation. *)
Theorem kelly_position_size :
  forall (winRate avgWin avgLoss pv kf : float),
    let r := calculateKellyPositionSize winRate avgWin avgLoss pv (Some kf) in
    let p := winRate / 100 in
    let q := 1 - p in
    let b := avgWin / abs avgLoss in
    let f := (p * b - q) / b * kf in
    let c := kelly_clamped winRate avgWin avgLoss kf in
    ((winRate =? 0) = true \/ (avgWin =? 0) = true \/ (avgLoss =? 0) = true ->
     r = {| kellyPercent := 0; positionSize := 0;
            message := Some "Insufficient data for Kelly calculation";
            k_winRate := None; k_avgWin := None; k_avgLoss := None;
            winLossRatio := None; k_kellyFraction := None;
            recommendation := None |})
    /\ ((winRate =? 0) = false -> (avgWin =? 0) = false ->
        (avgLoss =? 0) = false ->
        (is_nan f = true -> is_nan c = true)
        /\ (is_nan f = false ->
            (0 <=? c) = true /\ (c <=? 0.5) = true
            /\ ((f <=? 0) = true -> c = 0)
            /\ ((0 <? f) = true -> (f <=? 0.5) = true -> c = f)
            /\ ((0.5 <=? f) = true -> c = 0.5))
        /\ kellyPercent r = Double.parseFloat_toFixed (c * 100) 2
        /\ positionSize r = Double.parseFloat_toFixed (pv * c) 2
        /\ message r = None
        /\ ((0 <? pv * c) = true ->
            recommendation r
            = Some ("Optimal position size: $" ++ Double.toFixed (pv * c) 2
                    ++ " (" ++ Double.toFixed (c * 100) 1 ++ "% of portfolio)"))
        /\ ((0 <? pv * c) = false ->
            recommendation r
            = Some "Current strategy not profitable - avoid trading"))
    /\ calculateKellyPositionSize winRate avgWin avgLoss pv None
       = calculateKellyPositionSize winRate avgWin avgLoss pv (Some 0.25)
    /\ (let e := calculateKellyPositionSize 60 150 100 10000 (Some 0.25) in
        positionSize e = Double.of_Q (83333 # 100)
        /\ (0 <=? positionSize e) = true /\ (positionSize e <=? 5000) = true
        /\ recommendation e
           = Some "Optimal position size: $833.33 (8.3% of portfolio)").
Proof.
  intros winRate avgWin avgLoss pv kf r p q b f c.
  refine (conj _ (conj _ (conj eq_refl _))).
  - intros Hz. subst r. unfold calculateKellyPositionSize.
    assert (E : (winRate =? 0) || (avgWin =? 0) || (avgLoss =? 0) = true).
    { destruct Hz as [-> | [-> | ->]];
        [reflexivity | apply orb_true_iff; left; apply orb_true_r
        | apply orb_true_r]. }
    rewrite E. reflexivity.
  - intros H1 H2 H3. subst r. unfold calculateKellyPositionSize.
    rewrite H1, H2, H3. cbn [orb kellyPercent positionSize message recommendation].
    fold c.
    destruct (clamp_cases f) as [Cn Cc].
    refine (conj Cn (conj Cc (conj eq_refl (conj eq_refl (conj eq_refl _))))).
    unfold Double.gtb. split; intros ->; reflexivity.
  - vm_compute. repeat split.
Qed.

(** At break-even the doubles leave a size a little above zero: the
    recommendation is the positive text for a position of $0.00. *)
Example kelly_at_break_even :
  recommendation (calculateKellyPositionSize 40 150 100 10000 (Some 0.25))
  = Some "Optimal position size: $0.00 (0.0% of portfolio)".
Proof. vm_compute. reflexivity. Qed.

End KellyProps.

(** ** Backtest engine *)
Module BacktestProps.

Import Backtest.
Local Open Scope Q_scope.

(** The part of an outcome the determinism property is about: the error
    message of a failed run, or the trade list and the equity curve. *)
Definition trading_output {Metrics : Type}
  (r : string + BacktestRun Metrics) : string + list Trade * list EquityPoint :=
  match r with
  | inl msg => inl msg
  | inr run => inr (r_trades Metrics run, r_equityCurve Metrics run)
  end.

(** C8.  Two runs on the same configuration and the same candle data
    end alike, whatever the clock reads at either run and whatever the
    host square root, power and the analytics module are: both fail with
    the same message, or both return the same trade list and the same
    equity curve.  (Only [generatedAt], the default dates and the metrics
    may differ.) *)
Theorem backtest_is_deterministic :
  forall (Math_sqrt : Q -> Q) (pow1 pow2 : Q -> Q -> Q)
         (Metrics1 Metrics2 : Type)
         (analytics1 : list Trade -> Q -> Metrics1)
         (analytics2 : list Trade -> Q -> Metrics2)
         (clock1 clock2 : Clock) (fetched : option (list Candle))
         (config : Config),
    trading_output
      (runBacktest Math_sqrt pow1 Metrics1 analytics1 clock1 fetched config)
    = trading_output
        (runBacktest Math_sqrt pow2 Metrics2 analytics2 clock2 fetched config).
Proof.
  intros. unfold runBacktest.
  destruct (Js.gtb _ _); [reflexivity |].
  destruct fetched as [candles |]; [| reflexivity].
  destruct (length candles <? 50)%nat; reflexivity.
Qed.

(** Sixty-six hourly candles: a climb from 100 to 154, then a slide. *)
Definition climb_and_slide : list Candle :=
  map (fun i : nat =>
         let c := if (i <? 55)%nat then 100 + Indicators.of_nat i
                  else 154 - 4 * (Indicators.of_nat i - 54) in
         {| time := 3600000 * Z.of_nat i; open := c; high := c; low := c;
            close := c; volume := 1; v := None |})
      (seq 0 66).

Definition momentum_run : Config :=
  {| symbol := None; strategy := None; startDate := None; endDate := None;
     initialCapital := None; positionSize := None; feeRate := Some 0;
     slippage := Some 0; interval := None |}.

(** The run is not an empty one: the momentum strategy buys at candle 50
    (price 150) and sells at candle 57 (price 142); read at two different
    times the run gives this same trade and equity curve. *)
Example momentum_run_trades :
  let sqrt0 (x : Q) := x in
  let pow0 (x _ : Q) := x in
  let run clock :=
    trading_output
      (runBacktest sqrt0 pow0 unit (fun _ _ => tt) clock
         (Some climb_and_slide) momentum_run) in
  let summary out :=
    match out with
    | inr (ts, curve) =>
        (map (fun t => (id t, Qred (t_entry_price t), Qred (exit_price t),
                        t_entry_time t, exit_time t)) ts,
         map (fun e => (e_time e, Qred (capital e))) curve)
    | inl _ => ([], [])
    end in
  summary (run {| at_startDate := 1; at_endDate := 2; at_generated := 3 |})
  = ([ (1%Z, 150, 142, 180000000%Z, 205200000%Z) ],
     [ (0%Z, 10000); (205200000%Z, 29840 # 3) ])
  /\ run {| at_startDate := 1; at_endDate := 2; at_generated := 3 |}
     = run {| at_startDate := 7000; at_endDate := 8000; at_generated := 9000 |}.
Proof. vm_compute. split; reflexivity. Qed.

End BacktestProps.

(* ===================================================================== *)
(** * Part III: further properties of the code                             *)
(* ===================================================================== *)

(** ** The table of positions *)
Module PositionTableProps.

Import RiskAdvanced OrderManager OrderManagerProps.
Local Open Scope Q_scope.

Definition not_found : UpdateResult :=
  {| position := None; triggered := false; action := None; level := None;
     percentToClose := None; r_exitPrice := None; pnl := None;
     pnlPercent := None |}.

(** Open, read, close, and then the id is gone: a later update or close
    of it finds nothing and leaves the table alone. *)
Theorem open_read_close :
  forall (store : Store) (now later : Z) (trade : TradeFill)
         (riskConfig : RiskConfig) (exit x : Q) (why : string),
    let opened := createPosition store now trade riskConfig in
    let closed := closePosition opened.2 later (t_id trade) exit why in
    getPosition opened.2 (t_id trade) = Some opened.1
    /\ status opened.1 = "open"
    /\ (exists c, closed.1 = Some c
                  /\ status c = "closed"
                  /\ exitReason c = Some why
                  /\ exitPrice c = Some exit
                  /\ exitTime c = Some later)
    /\ getPosition closed.2 (t_id trade) = None
    /\ updatePosition closed.2 (t_id trade) x = (not_found, closed.2)
    /\ closePosition closed.2 later (t_id trade) exit why = (None, closed.2).
Proof.
  intros store now later trade riskConfig exit x why opened closed.
  assert (Ho : opened.2 !! t_id trade = Some opened.1)
    by (subst opened; cbn; apply lookup_insert_eq).
  assert (Hc : closed.2 !! t_id trade = None).
  { subst closed. unfold closePosition. rewrite Ho. cbn. apply lookup_delete_eq. }
  refine (conj Ho (conj eq_refl (conj _ (conj Hc (conj _ _))))).
  - subst closed. unfold closePosition. rewrite Ho. cbn.
    eexists. repeat split.
  - unfold updatePosition. rewrite Hc. reflexivity.
  - unfold closePosition at 1. rewrite Hc. reflexivity.
Qed.

(** Every position sits under its own id. *)
Definition keyed (store : Store) : Prop :=
  forall k p, store !! k = Some p -> id p = k.

Lemma tick_id (p : Position) (x : Q) : id (tick p x) = id p.
Proof.
  unfold tick, check_exits, refresh, trail.
  destruct (trailingStopEnabled _ && _); [destruct (trailingActivated _) |];
    (destruct (isStopLossHit _ _ _); [reflexivity |];
     destruct (isTakeProfitHit _ _ _); [reflexivity |];
     destruct (first_rung _ _ _ _ _) as [[i tp] |]; reflexivity).
Qed.

(** Opening, updating and closing keep every position under its own id
    and touch no id but the one they are called with. *)
Theorem table_keyed_and_framed :
  forall (store : Store) (now : Z) (trade : TradeFill) (riskConfig : RiskConfig)
         (pid : string) (x : Q) (why : string),
    keyed store ->
    keyed (createPosition store now trade riskConfig).2
    /\ keyed (updatePosition store pid x).2
    /\ keyed (closePosition store now pid x why).2
    /\ (forall k, k <> t_id trade ->
                  (createPosition store now trade riskConfig).2 !! k = store !! k)
    /\ (forall k, k <> pid ->
                  (updatePosition store pid x).2 !! k = store !! k
                  /\ (closePosition store now pid x why).2 !! k = store !! k).
Proof.
  intros store now trade riskConfig pid x why Hk.
  refine (conj _ (conj _ (conj _ (conj _ _)))).
  - intros k p. cbn. destruct (decide (k = t_id trade)) as [-> | Hne].
    + rewrite lookup_insert_eq. intros [= <-]. reflexivity.
    + rewrite lookup_insert_ne by congruence. apply Hk.
  - intros k p. unfold updatePosition.
    destruct (store !! pid) as [p0 |] eqn:Ep; [| apply Hk].
    destruct (check_exits (refresh p0 x) x) as [r p'] eqn:E. cbn.
    destruct (decide (k = pid)) as [-> | Hne].
    + rewrite lookup_insert_eq. intros [= <-].
      change p' with (r, p').2. rewrite <- E. fold (tick p0 x).
      rewrite tick_id. apply Hk, Ep.
    + rewrite lookup_insert_ne by congruence. apply Hk.
  - intros k p. unfold closePosition.
    destruct (store !! pid) as [p0 |]; [| apply Hk]. cbn.
    destruct (decide (k = pid)) as [-> | Hne].
    + rewrite lookup_delete_eq. discriminate.
    + rewrite lookup_delete_ne by congruence. apply Hk.
  - intros k Hne. cbn. apply lookup_insert_ne. congruence.
  - intros k Hne. split.
    + unfold updatePosition. destruct (store !! pid) as [p0 |]; [| reflexivity].
      destruct (check_exits (refresh p0 x) x) as [r p']. cbn.
      apply lookup_insert_ne. congruence.
    + unfold closePosition. destruct (store !! pid) as [p0 |]; [| reflexivity].
      cbn. apply lookup_delete_ne. congruence.
Qed.

Lemma book_keyed : keyed book.
Proof.
  intros k p. unfold book. cbn.
  destruct (decide (k = "S1")) as [-> | H1].
  - rewrite lookup_insert_eq. intros [= <-]. reflexivity.
  - rewrite lookup_insert_ne by congruence.
    destruct (decide (k = "L1")) as [-> | H2].
    + rewrite lookup_insert_eq. intros [= <-]. reflexivity.
    + rewrite lookup_insert_ne by congruence. rewrite lookup_empty. discriminate.
Qed.

Lemma table_keyed_and_framed_witness :
  keyed (updatePosition book "L1" 106).2
  /\ (updatePosition book "L1" 106).2 !! "S1" = book !! "S1"
  /\ (closePosition book 5 "L1" 106 "take-profit").2 !! "S1" = book !! "S1".
Proof.
  destruct (table_keyed_and_framed book 0 long_fill DEFAULT_RISK_CONFIG "L1" 106
              "take-profit" book_keyed) as (_ & Hu & _ & _ & Hframe).
  refine (conj Hu (conj _ _)).
  - apply (Hframe "S1"). discriminate.
  - apply (proj2 (table_keyed_and_framed book 5 long_fill DEFAULT_RISK_CONFIG
                    "L1" 106 "take-profit" book_keyed)). discriminate.
Defined.

End PositionTableProps.

(** ** A position from entry to exit *)
Module PositionLifecycleProps.

Import RiskAdvanced OrderManager OrderManagerProps PositionTableProps.
Local Open Scope Q_scope.

(** *** Watermarks *)

Lemma max_ge_r (x y : Q) : y <= Js.Math_max x y.
Proof.
  unfold Js.Math_max. destruct (Qle_bool x y) eqn:E; [apply Qle_refl |].
  apply not_true_iff_false in E. rewrite Qle_bool_iff in E. lra.
Qed.

Lemma min_le_l (x y : Q) : Js.Math_min x y <= x.
Proof.
  unfold Js.Math_min. destruct (Qle_bool x y) eqn:E; [apply Qle_refl |].
  apply not_true_iff_false in E. rewrite Qle_bool_iff in E. lra.
Qed.

Lemma tick_marks (p : Position) (x : Q) :
  highestPrice (tick p x) = Js.Math_max (highestPrice p) x
  /\ lowestPrice (tick p x) = Js.Math_min (lowestPrice p) x
  /\ currentPrice (tick p x) = x.
Proof.
  unfold tick, check_exits, refresh, trail.
  destruct (trailingStopEnabled _ && _); [destruct (trailingActivated _) |];
    (destruct (isStopLossHit _ _ _); [repeat split |];
     destruct (isTakeProfitHit _ _ _); [repeat split |];
     destruct (first_rung _ _ _ _ _) as [[i tp] |]; repeat split).
Qed.

Lemma updates_marks (prices : list Q) :
  forall (store : Store) (pid : string) (p : Position),
    store !! pid = Some p ->
    exists p',
      updates store pid prices !! pid = Some p'
      /\ highestPrice p <= highestPrice p'
      /\ lowestPrice p' <= lowestPrice p
      /\ (forall x, In x prices -> lowestPrice p' <= x /\ x <= highestPrice p')
      /\ (lowestPrice p <= currentPrice p /\ currentPrice p <= highestPrice p ->
          lowestPrice p' <= currentPrice p' /\ currentPrice p' <= highestPrice p').
Proof.
  induction prices as [| x rest IH]; intros store pid p Hp.
  - exists p. cbn. repeat split; try apply Qle_refl; tauto.
  - destruct (IH _ pid _ (updatePosition_stored store pid p x Hp))
      as (p' & Hl & Hhi & Hlo & Hall & Hcur).
    destruct (tick_marks p x) as (Eh & El & Ec).
    rewrite Eh in Hhi. rewrite El in Hlo. rewrite Eh, El, Ec in Hcur.
    pose proof (JsFacts.max_ge_l (highestPrice p) x).
    pose proof (max_ge_r (highestPrice p) x).
    pose proof (JsFacts.min_le_r (lowestPrice p) x).
    pose proof (min_le_l (lowestPrice p) x).
    exists p'. cbn. split; [exact Hl |].
    refine (conj _ (conj _ (conj _ _))); try lra.
    intros y [<- | Hin]; [lra | apply Hall, Hin].
Qed.

(** After any run of price updates of a stored position the high
    watermark has not fallen, the low one has not risen, every price of
    the run lies between the two, and so does the current price when the
    run is not empty. *)
Theorem watermarks_bracket_prices :
  forall (store : Store) (pid : string) (p : Position) (prices : list Q),
    store !! pid = Some p ->
    exists p',
      updates store pid prices !! pid = Some p'
      /\ highestPrice p <= highestPrice p'
      /\ lowestPrice p' <= lowestPrice p
      /\ (forall x, In x prices -> lowestPrice p' <= x /\ x <= highestPrice p')
      /\ (prices <> [] ->
          lowestPrice p' <= currentPrice p' /\ currentPrice p' <= highestPrice p').
Proof.
  intros store pid p prices Hp.
  destruct (updates_marks prices store pid p Hp) as (p' & Hl & Hhi & Hlo & Hall & _).
  exists p'. refine (conj Hl (conj Hhi (conj Hlo (conj Hall _)))).
  intros Hne.
  destruct prices as [| x rest]; [contradiction |].
  destruct (updates_marks rest _ pid _ (updatePosition_stored store pid p x Hp))
    as (p'' & Hl' & _ & _ & _ & Hcur).
  change (updates store pid (x :: rest))
    with (updates (updatePosition store pid x).2 pid rest) in Hl.
  rewrite Hl' in Hl. injection Hl as <-.
  apply Hcur. destruct (tick_marks p x) as (Eh & El & Ec).
  rewrite Eh, El, Ec. split; [apply JsFacts.min_le_r | apply max_ge_r].
Qed.

Lemma watermarks_bracket_prices_witness :
  exists p',
    updates book "L1" [101; 97; 103] !! "L1" = Some p'
    /\ lowestPrice p' <= 97 /\ 103 <= highestPrice p'
    /\ lowestPrice p' <= currentPrice p'.
Proof.
  destruct (watermarks_bracket_prices book "L1" long_position [101; 97; 103]
              book_long) as (p' & Hl & _ & _ & Hall & Hcur).
  exists p'. refine (conj Hl (conj _ (conj _ _))).
  - apply (Hall 97). cbn. tauto.
  - apply (Hall 103). cbn. tauto.
  - apply Hcur. discriminate.
Defined.

(** *** Levels at entry *)

Lemma long_levels (e s t : Q) :
  0 < e -> 0 < s -> 0 < t ->
  calculateStopLoss "buy" e s < e /\ e < calculateTakeProfit "buy" e t.
Proof.
  intros He Hs Ht. unfold calculateStopLoss, calculateTakeProfit. cbn.
  assert (H1 : 0 < e * (s / 100)).
  { apply Qmult_lt_0_compat; [exact He |]. apply Qlt_shift_div_l; lra. }
  assert (H2 : 0 < e * (t / 100)).
  { apply Qmult_lt_0_compat; [exact He |]. apply Qlt_shift_div_l; lra. }
  split.
  - assert (E : e * (1 - s / 100) == e - e * (s / 100)) by ring. lra.
  - assert (E : e * (1 + t / 100) == e + e * (t / 100)) by ring. lra.
Qed.

Lemma short_levels (side : string) (e s t : Q) :
  is_buy side = false -> 0 < e -> 0 < s -> 0 < t ->
  e < calculateStopLoss side e s /\ calculateTakeProfit side e t < e.
Proof.
  intros Hside He Hs Ht. unfold calculateStopLoss, calculateTakeProfit.
  rewrite Hside.
  assert (H1 : 0 < e * (s / 100)).
  { apply Qmult_lt_0_compat; [exact He |]. apply Qlt_shift_div_l; lra. }
  assert (H2 : 0 < e * (t / 100)).
  { apply Qmult_lt_0_compat; [exact He |]. apply Qlt_shift_div_l; lra. }
  split.
  - assert (E : e * (1 + s / 100) == e + e * (s / 100)) by ring. lra.
  - assert (E : e * (1 - t / 100) == e - e * (t / 100)) by ring. lra.
Qed.

(** The stop-loss and the take-profit derived at entry lie on opposite
    sides of a positive entry price: below and above it for 'buy', above
    and below it for any other side. *)
Theorem levels_bracket_entry :
  forall (side : string) (entry stopPct targetPct : Q),
    0 < entry -> 0 < stopPct -> 0 < targetPct ->
    (side = "buy" ->
     calculateStopLoss side entry stopPct < entry
     /\ entry < calculateTakeProfit side entry targetPct)
    /\ (side <> "buy" ->
        calculateTakeProfit side entry targetPct < entry
        /\ entry < calculateStopLoss side entry stopPct).
Proof.
  intros side e s t He Hs Ht. split.
  - intros ->. apply long_levels; assumption.
  - intros Hne. apply String.eqb_neq in Hne.
    destruct (short_levels side e s t Hne He Hs Ht). split; assumption.
Qed.

Lemma levels_bracket_entry_witness :
  calculateStopLoss "buy" 100 2 < 100 /\ 100 < calculateTakeProfit "buy" 100 5
  /\ calculateTakeProfit "sell" 100 5 < 100 /\ 100 < calculateStopLoss "sell" 100 2.
Proof.
  destruct (levels_bracket_entry "buy" 100 2 5 eq_refl eq_refl eq_refl) as [Hl _].
  destruct (levels_bracket_entry "sell" 100 2 5 eq_refl eq_refl eq_refl) as [_ Hs].
  destruct (Hl eq_refl) as [H1 H2].
  destruct (Hs ltac:(discriminate)) as [H3 H4].
  exact (conj H1 (conj H2 (conj H3 H4))).
Defined.

End PositionLifecycleProps.

(** ** Exits: what can and what cannot fire *)
Module ExitProps.

Import RiskAdvanced OrderManager OrderManagerProps PositionTableProps
       PositionLifecycleProps.
Local Open Scope Q_scope.

(** The fields no price update writes. *)
Definition static (p : Position) :=
  (id p, side p, entryPrice p, quantity p, p_takeProfitPercent p,
   takeProfitPrice p, multipleTakeProfits p, trailingStopEnabled p).

Lemma tick_static (p : Position) (x : Q) : static (tick p x) = static p.
Proof.
  unfold tick, check_exits, refresh, trail.
  destruct (trailingStopEnabled _ && _); [destruct (trailingActivated _) |];
    (destruct (isStopLossHit _ _ _); [reflexivity |];
     destruct (isTakeProfitHit _ _ _); [reflexivity |];
     destruct (first_rung _ _ _ _ _) as [[i tp] |]; reflexivity).
Qed.

Lemma refresh_static (p : Position) (x : Q) : static (refresh p x) = static p.
Proof.
  unfold refresh, trail.
  destruct (trailingStopEnabled _ && _); [destruct (trailingActivated _) |];
    reflexivity.
Qed.

Lemma updates_static (prices : list Q) :
  forall (store : Store) (pid : string) (p : Position),
    store !! pid = Some p ->
    exists p', updates store pid prices !! pid = Some p' /\ static p' = static p.
Proof.
  induction prices as [| x rest IH]; intros store pid p Hp.
  - exists p. split; [exact Hp | reflexivity].
  - destruct (IH _ pid _ (updatePosition_stored store pid p x Hp)) as (p' & Hl & Hs).
    exists p'. split; [exact Hl |]. rewrite Hs. apply tick_static.
Qed.

(** *** A touched price beyond the target touches the target *)

Lemma target_order (side : string) (e t k : Q) :
  0 < e -> 0 <= t -> 1 <= k ->
  if is_buy side
  then calculateTakeProfit side e t <= calculateTakeProfit side e (t * k)
  else calculateTakeProfit side e (t * k) <= calculateTakeProfit side e t.
Proof.
  intros He Ht Hk. unfold calculateTakeProfit.
  assert (H : e * (t / 100) <= e * (t * k / 100)).
  { assert (E1 : e * (t / 100) == e * t * (1 # 100)) by field.
    assert (E2 : e * (t * k / 100) == e * t * (1 # 100) * k) by field.
    rewrite E1, E2.
    assert (Hp : 0 <= e * t * (1 # 100)).
    { apply Qmult_le_0_compat; [apply Qmult_le_0_compat; lra | lra]. }
    generalize dependent (e * t * (1 # 100)). intros y _ _ Hy.
    assert (Hm : 0 <= y * (k - 1)) by (apply Qmult_le_0_compat; lra).
    assert (E3 : y * k == y + y * (k - 1)) by ring. lra. }
  destruct (is_buy side).
  - assert (E1 : e * (1 + t / 100) == e + e * (t / 100)) by ring.
    assert (E2 : e * (1 + t * k / 100) == e + e * (t * k / 100)) by ring. lra.
  - assert (E1 : e * (1 - t / 100) == e - e * (t / 100)) by ring.
    assert (E2 : e * (1 - t * k / 100) == e - e * (t * k / 100)) by ring. lra.
Qed.

Lemma beyond_target_untouched (side : string) (x e t k : Q) :
  0 < e -> 0 <= t -> 1 <= k ->
  isTakeProfitHit side x (calculateTakeProfit side e t) = false ->
  isTakeProfitHit side x (calculateTakeProfit side e (t * k)) = false.
Proof.
  intros He Ht Hk. pose proof (target_order side e t k He Ht Hk) as Ho.
  unfold isTakeProfitHit. destruct (is_buy side); unfold Js.geb, Js.leb;
    rewrite <- !not_true_iff_false, !Qle_bool_iff; intros Hn Hc; apply Hn; lra.
Qed.

Definition laddered (p : Position) : Prop :=
  takeProfitPrice p
  = calculateTakeProfit (side p) (entryPrice p) (p_takeProfitPercent p)
  /\ (multipleTakeProfits p = []
      \/ multipleTakeProfits p
         = calculateMultipleTakeProfits (side p) (entryPrice p)
             (p_takeProfitPercent p)).

Lemma created_laddered (store : Store) (now : Z) (trade : TradeFill)
  (riskConfig : RiskConfig) :
  laddered (createPosition store now trade riskConfig).1.
Proof.
  split; [reflexivity |]. cbn.
  destruct (useMultipleTakeProfits riskConfig); [right | left]; reflexivity.
Qed.

Lemma ladder_levels (p : Position) (x : Q) :
  laddered p -> 0 < entryPrice p -> 0 <= p_takeProfitPercent p ->
  let l := level (check_exits (refresh p x) x).1 in
  l = None \/ l = Some 1%nat \/ l = Some 2%nat.
Proof.
  intros [Htp Hladder] He Ht l. subst l.
  pose proof (refresh_static p x) as Hs. unfold static in Hs.
  injection Hs as _ Hside Hentry _ Hpct Hprice Hrungs _.
  unfold check_exits.
  destruct (isStopLossHit _ _ _); [left; reflexivity |].
  destruct (isTakeProfitHit _ _ _) eqn:Etp; [left; reflexivity |].
  rewrite Hside, Hprice, Htp in Etp.
  pose proof (first_rung_spec (side (refresh p x)) x
                (takeProfitsHit (refresh p x)) (multipleTakeProfits (refresh p x)) 0)
    as Hspec.
  destruct (first_rung _ _ _ _ _) as [[i tp] |]; [| left; reflexivity].
  destruct Hspec as (j & -> & Hj & Hf & _). cbn [Nat.add] in *.
  apply andb_true_iff in Hf. destruct Hf as [_ Hf].
  rewrite Hside in Hf. rewrite Hrungs in Hj.
  cbn [level fst].
  destruct Hladder as [Hnil | Hfull]; rewrite ?Hnil, ?Hfull in Hj.
  - discriminate.
  - destruct j as [| [| [| [| j]]]]; cbn in Hj; try discriminate;
      injection Hj as <-; cbn [price] in Hf.
    + right. left. reflexivity.
    + right. right. reflexivity.
    + rewrite Etp in Hf. discriminate.
    + rewrite (beyond_target_untouched _ x _ _ (15 # 10) He Ht ltac:(lra) Etp)
        in Hf. discriminate.
Qed.

(** For a position opened by [createPosition] at a positive price with
    a non-negative target, after any run of price updates: an update
    either reports no ladder level or level 1 or level 2.  Rungs 3 and 4
    (at 100% and 150% of the target) never fire as partial exits, because
    a price that touches them has already touched the full take-profit. *)
Theorem upper_rungs_never_fire :
  forall (store : Store) (now : Z) (trade : TradeFill) (riskConfig : RiskConfig)
         (prices : list Q) (x : Q),
    0 < t_price trade -> 0 <= takeProfitPercent riskConfig ->
    let opened := (createPosition store now trade riskConfig).2 in
    let l := level (updatePosition (updates opened (t_id trade) prices)
                      (t_id trade) x).1 in
    l = None \/ l = Some 1%nat \/ l = Some 2%nat.
Proof.
  intros store now trade riskConfig prices x He Ht opened l. subst l.
  assert (Ho : opened !! t_id trade
               = Some (createPosition store now trade riskConfig).1)
    by (subst opened; cbn; apply lookup_insert_eq).
  destruct (updates_static prices opened (t_id trade) _ Ho) as (p' & Hl & Hs).
  unfold updatePosition. rewrite Hl.
  destruct (check_exits (refresh p' x) x) as [r q] eqn:E. cbn [fst].
  change r with (r, q).1. rewrite <- E.
  pose proof (created_laddered store now trade riskConfig) as [L1 L2].
  unfold static in Hs. injection Hs as _ Hside Hentry _ Hpct Hprice Hrungs _.
  apply ladder_levels.
  - split; rewrite ?Hprice, ?Hrungs, Hside, Hentry, Hpct; assumption.
  - rewrite Hentry. exact He.
  - rewrite Hpct. exact Ht.
Qed.

Lemma upper_rungs_never_fire_witness :
  let l := level (updatePosition (updates book "S1" [98; 97]) "S1" 96).1 in
  l = None \/ l = Some 1%nat \/ l = Some 2%nat.
Proof.
  apply (upper_rungs_never_fire
           (createPosition ∅ 0 long_fill DEFAULT_RISK_CONFIG).2 0 short_fill
           DEFAULT_RISK_CONFIG [98; 97] 96); [reflexivity | discriminate].
Defined.

(** The ladder itself: four rungs of 25% each, the third at the price of
    the full take-profit, and for a positive entry and target each rung
    further from the entry than the one before. *)
Theorem ladder_shape :
  forall (side : string) (entry target : Q),
    0 < entry -> 0 < target ->
    let rungs := calculateMultipleTakeProfits side entry target in
    map positionPercent rungs = [25; 25; 25; 25]
    /\ (price <$> rungs !! 2%nat) = Some (calculateTakeProfit side entry target)
    /\ match map price rungs with
       | [p1; p2; p3; p4] =>
           if is_buy side
           then entry < p1 /\ p1 < p2 /\ p2 < p3 /\ p3 < p4
           else p4 < p3 /\ p3 < p2 /\ p2 < p1 /\ p1 < entry
       | _ => False
       end.
Proof.
  intros side e t He Ht rungs. subst rungs.
  refine (conj eq_refl (conj eq_refl _)). cbn.
  unfold calculateTakeProfit.
  assert (Hy : 0 < e * t * (1 # 100)).
  { apply Qmult_lt_0_compat; [apply Qmult_lt_0_compat; lra | lra]. }
  assert (E1 : e * (t * (5 # 10) / 100) == e * t * (1 # 100) * (5 # 10)) by field.
  assert (E2 : e * (t * (75 # 100) / 100) == e * t * (1 # 100) * (75 # 100)) by field.
  assert (E3 : e * (t / 100) == e * t * (1 # 100)) by field.
  assert (E4 : e * (t * (15 # 10) / 100) == e * t * (1 # 100) * (15 # 10)) by field.
  destruct (is_buy side).
  - assert (F1 : e * (1 + t * (5 # 10) / 100) == e + e * (t * (5 # 10) / 100)) by ring.
    assert (F2 : e * (1 + t * (75 # 100) / 100) == e + e * (t * (75 # 100) / 100)) by ring.
    assert (F3 : e * (1 + t / 100) == e + e * (t / 100)) by ring.
    assert (F4 : e * (1 + t * (15 # 10) / 100) == e + e * (t * (15 # 10) / 100)) by ring.
    rewrite F1, F2, F3, F4, E1, E2, E3, E4.
    generalize dependent (e * t * (1 # 100)). intros y. intros. lra.
  - assert (F1 : e * (1 - t * (5 # 10) / 100) == e - e * (t * (5 # 10) / 100)) by ring.
    assert (F2 : e * (1 - t * (75 # 100) / 100) == e - e * (t * (75 # 100) / 100)) by ring.
    assert (F3 : e * (1 - t / 100) == e - e * (t / 100)) by ring.
    assert (F4 : e * (1 - t * (15 # 10) / 100) == e - e * (t * (15 # 10) / 100)) by ring.
    rewrite F1, F2, F3, F4, E1, E2, E3, E4.
    generalize dependent (e * t * (1 # 100)). intros y. intros. lra.
Qed.

Lemma ladder_shape_witness :
  map positionPercent (calculateMultipleTakeProfits "buy" 100 5) = [25; 25; 25; 25].
Proof.
  apply (proj1 (ladder_shape "buy" 100 5 eq_refl eq_refl)).
Defined.

End ExitProps.

(** ** Entry tick and the monitor's exit *)
Module MonitorProps.

Import RiskAdvanced OrderManager OrderManagerProps PositionTableProps
       PositionLifecycleProps ExitProps.
Local Open Scope Q_scope.

Lemma untouched_at_entry (side : string) (e s t : Q) :
  0 < e -> 0 < s -> 0 < t ->
  isStopLossHit side e (calculateStopLoss side e s) = false
  /\ isTakeProfitHit side e (calculateTakeProfit side e t) = false.
Proof.
  intros He Hs Ht. unfold isStopLossHit, isTakeProfitHit.
  destruct (is_buy side) eqn:Eb.
  - apply String.eqb_eq in Eb. subst side.
    destruct (long_levels e s t He Hs Ht) as [H1 H2].
    unfold Js.leb, Js.geb. rewrite <- !not_true_iff_false, !Qle_bool_iff.
    split; lra.
  - destruct (short_levels side e s t Eb He Hs Ht) as [H1 H2].
    unfold Js.leb, Js.geb. rewrite <- !not_true_iff_false, !Qle_bool_iff.
    split; lra.
Qed.

Lemma flat_at_entry (p : Position) :
  ~ entryPrice p == 0 ->
  Js.gtb (unrealizedPnlPercent (mark p (entryPrice p))) 0 = false.
Proof.
  intros He. apply JsFacts.gtb_false. cbn.
  assert (E : (entryPrice p - entryPrice p) / entryPrice p * 100 == 0)
    by (field; exact He).
  destruct (is_buy (side p)); rewrite E; apply Qle_refl.
Qed.

(** A position opened at a positive price with positive stop-loss and
    take-profit percentages does not exit on a tick at its entry price:
    nothing triggers, the stop stays where it was set and no rung is
    marked. *)
Theorem no_exit_at_entry_price :
  forall (store : Store) (now : Z) (trade : TradeFill) (riskConfig : RiskConfig),
    0 < t_price trade ->
    0 < stopLossPercent riskConfig ->
    0 < takeProfitPercent riskConfig ->
    let opened := createPosition store now trade riskConfig in
    let u := updatePosition opened.2 (t_id trade) (t_price trade) in
    triggered u.1 = false
    /\ (stopLossPrice <$> u.2 !! t_id trade) = Some (stopLossPrice opened.1)
    /\ (takeProfitsHit <$> u.2 !! t_id trade) = Some [].
Proof.
  intros store now trade riskConfig He Hs Ht opened u.
  set (p := opened.1).
  assert (Ho : opened.2 !! t_id trade = Some p)
    by (subst opened p; cbn; apply lookup_insert_eq).
  assert (Hq : refresh p (t_price trade) = mark p (t_price trade)).
  { unfold refresh, trail.
    assert (F : Js.gtb (unrealizedPnlPercent (mark p (t_price trade))) 0 = false).
    { apply (flat_at_entry p). subst p opened. cbn. lra. }
    rewrite F, andb_false_r. reflexivity. }
  destruct (untouched_at_entry (t_side trade) (t_price trade)
              (stopLossPercent riskConfig) (takeProfitPercent riskConfig)
              He Hs Ht) as [Hsl Htp].
  assert (Hrung : first_rung (t_side trade) (t_price trade) [] 0
                    (multipleTakeProfits p) = None).
  { apply first_rung_none. intros i tp Hi. unfold fires. cbn [existsb negb andb].
    subst p opened. cbn in Hi.
    destruct (useMultipleTakeProfits riskConfig); [| discriminate].
    assert (Hk : forall k, 0 < k ->
              isTakeProfitHit (t_side trade) (t_price trade)
                (calculateTakeProfit (t_side trade) (t_price trade)
                   (takeProfitPercent riskConfig * k)) = false).
    { intros k Hk. apply untouched_at_entry with (s := 1); try lra.
      apply Qmult_lt_0_compat; assumption. }
    destruct i as [| [| [| [| i]]]]; cbn in Hi; try discriminate;
      injection Hi as <-; cbn [price].
    - apply Hk. lra.
    - apply Hk. lra.
    - apply untouched_at_entry with (s := 1); lra.
    - apply Hk. lra. }
  assert (Hu : u = ({| position := Some (mark p (t_price trade));
                       triggered := false; action := None; level := None;
                       percentToClose := None; r_exitPrice := None;
                       pnl := None; pnlPercent := None |},
                    <[ t_id trade := mark p (t_price trade) ]> opened.2)).
  { subst u. unfold updatePosition. rewrite Ho, Hq. unfold check_exits.
    change (side (mark p (t_price trade))) with (t_side trade).
    change (stopLossPrice (mark p (t_price trade)))
      with (calculateStopLoss (t_side trade) (t_price trade)
              (stopLossPercent riskConfig)).
    change (takeProfitPrice (mark p (t_price trade)))
      with (calculateTakeProfit (t_side trade) (t_price trade)
              (takeProfitPercent riskConfig)).
    change (takeProfitsHit (mark p (t_price trade))) with (@nil nat).
    change (multipleTakeProfits (mark p (t_price trade)))
      with (multipleTakeProfits p).
    rewrite Hsl, Htp, Hrung. reflexivity. }
  rewrite Hu. cbn [fst snd triggered]. rewrite lookup_insert_eq.
  repeat split.
Qed.

Lemma no_exit_at_entry_price_witness :
  triggered (updatePosition book "S1" 100).1 = false.
Proof.
  apply (no_exit_at_entry_price
           (createPosition ∅ 0 long_fill DEFAULT_RISK_CONFIG).2 0 short_fill
           DEFAULT_RISK_CONFIG); reflexivity.
Defined.

(** What the monitor loop does with a trigger.  For a position stored
    under its own id, whenever an update triggers (stop-loss,
    take-profit or a partial take-profit alike) the exit that follows
    removes the position from the table and returns it closed, with the
    trigger's action as exit reason, the tick price as exit price and the
    P&L of the whole quantity as realized P&L; for a partial take-profit
    the trigger itself reports only the rung's share of that P&L. *)
Theorem monitor_closes_whole_position :
  forall (store : Store) (pid : string) (p : Position) (x : Q) (now : Z),
    store !! pid = Some p ->
    id p = pid ->
    let u := updatePosition store pid x in
    let whole := unrealizedPnl (mark p x) in
    triggered u.1 = true ->
    (exists c,
        exit_on_trigger u.2 now u.1 = (Some c, delete pid u.2)
        /\ status c = "closed"
        /\ exitReason c = action u.1
        /\ exitPrice c = Some x
        /\ realizedPnl c = Some whole)
    /\ (exit_on_trigger u.2 now u.1).2 !! pid = None
    /\ (action u.1 = Some "partial-take-profit" ->
        exists pct, percentToClose u.1 = Some pct
                    /\ pnl u.1 = Some (whole * (pct / 100)))
    /\ (action u.1 <> Some "partial-take-profit" -> pnl u.1 = Some whole).
Proof.
  intros store pid p x now Hp Hid u whole Htrig.
  pose proof (updatePosition_stored store pid p x Hp) as Hstored. fold u in Hstored.
  pose proof (tick_static p x) as Hst. unfold static in Hst.
  injection Hst as Hid' Hside Hentry Hqty _ _ _ _.
  assert (Hwhole : unrealizedPnl (refresh p x) = whole).
  { subst whole. unfold refresh, trail.
    destruct (trailingStopEnabled _ && _); [destruct (trailingActivated _) |];
      reflexivity. }
  assert (Hres : position u.1 = Some (tick p x)
                 /\ r_exitPrice u.1 = Some x
                 /\ (exists a, action u.1 = Some a)
                 /\ (action u.1 = Some "partial-take-profit" ->
                     exists pct, percentToClose u.1 = Some pct
                                 /\ pnl u.1 = Some (whole * (pct / 100)))
                 /\ (action u.1 <> Some "partial-take-profit" ->
                     pnl u.1 = Some whole)).
  { subst u. unfold updatePosition in *. rewrite Hp in *. unfold tick.
    rewrite <- Hwhole. unfold check_exits in *.
    destruct (isStopLossHit _ _ _).
    { cbn. repeat split; eauto. intros [=]. }
    destruct (isTakeProfitHit _ _ _).
    { cbn. repeat split; eauto. intros [=]. }
    destruct (first_rung _ _ _ _ _) as [[i tp] |].
    { cbn. repeat split; eauto. intros H. contradiction. }
    cbn in Htrig. discriminate. }
  destruct Hres as (Hpos & Hexit & (a & Ha) & Hpart & Hfull).
  assert (Hclose : exit_on_trigger u.2 now u.1
                   = closePosition u.2 now pid x a).
  { unfold exit_on_trigger. rewrite Htrig, Hpos, Hexit, Ha, Hid', Hid.
    reflexivity. }
  rewrite Hclose. unfold closePosition. rewrite Hstored. cbn [fst snd].
  refine (conj _ (conj _ (conj Hpart Hfull))).
  - eexists. split; [reflexivity |]. cbn.
    rewrite Hside, Hentry, Hqty, Ha. repeat split.
  - apply lookup_delete_eq.
Qed.

Lemma monitor_closes_whole_position_witness :
  (exit_on_trigger (updatePosition book "L1" 103).2 9 (updatePosition book "L1" 103).1).2
    !! "L1" = None
  /\ action (updatePosition book "L1" 103).1 = Some "partial-take-profit".
Proof.
  destruct (monitor_closes_whole_position book "L1" long_position 103 9
              book_long eq_refl eq_refl) as (_ & Hgone & _).
  split; [exact Hgone | reflexivity].
Defined.

End MonitorProps.

(** ** Position sizing and parameter validation *)
Module RiskSizingProps.

Import RiskAdvanced.
Local Open Scope Q_scope.

Lemma abs_pos (x : Q) : ~ x == 0 -> 0 < Js.Math_abs x.
Proof.
  intros H. unfold Js.Math_abs. destruct (Qle_bool 0 x) eqn:E.
  - apply Qle_bool_iff in E. destruct (Qlt_le_dec 0 x); [assumption |].
    exfalso. apply H. lra.
  - apply not_true_iff_false in E. rewrite Qle_bool_iff in E. lra.
Qed.



(** A budget of 0.2% at the same prices is not capped: 1000 at risk 20. *)
Example uncapped_size :
  let r := calculateRiskBasedPositionSize 10000 100 98 (Some (2 # 10)) in
  (capped r, Qred (ps_notional r), Qred (riskDollar r)) = (false, 1000, 20).
Proof. vm_compute. reflexivity. Qed.

End RiskSizingProps.

(** ** Validation of risk parameters over binary64 *)
Module RiskParameterProps.

Import PrimFloat DoubleFacts RiskAdvancedDouble.
Local Open Scope float_scope.

(** Truthy and not at or below 0: greater than 0. *)
Lemma truthy_positive (x : float) :
  Double.truthy x && negb (x <=? 0) = (0 <? x).
Proof.
  unfold Double.truthy.
  destruct (compare_order x 0) as [U L1 L2 E1 E2 B1 B2 | N1 N2 L1 L2 E1 E2 B1 B2
                                  | N1 N2 L1 L2 E1 E2 B1 B2
                                  | N1 N2 L1 L2 E1 E2 B1 B2];
    rewrite ?L1, ?L2, ?E1, ?E2, ?B1, ?B2, ?N1; try reflexivity.
  change (is_nan 0) with false in U. rewrite orb_false_r in U. rewrite U.
  reflexivity.
Qed.

Lemma positive_not_nan (x : float) : (0 <? x) = true -> is_nan x = false.
Proof.
  intros H.
  destruct (compare_order 0 x) as [_ L _ _ _ _ _ | _ N _ _ _ _ _ _
                                  | _ N _ _ _ _ _ _ | _ N _ _ _ _ _ _];
    try exact N. rewrite H in L. discriminate L.
Qed.

Lemma not_above (x y : float) :
  is_nan x = false -> is_nan y = false -> negb (y <? x) = (x <=? y).
Proof.
  intros Nx Ny.
  destruct (compare_order x y) as [U _ _ _ _ _ _ | _ _ _ L _ _ B _
                                  | _ _ _ L _ _ B _ | _ _ _ L _ _ B _];
    rewrite ?L, ?B; try reflexivity.
  rewrite Nx, Ny in U. discriminate U.
Qed.

(** The parameters are accepted exactly when the stop-loss percentage is
    in (0, 50], the take-profit percentage is greater than 0, their
    ratio as the doubles give it is not below 1.5, and the trailing
    percentage, when given and truthy, is in (0, stop-loss]; a trailing
    percentage equal to the stop-loss one is accepted.  Missing
    stop-loss or take-profit is rejected. *)
Theorem risk_parameters_accepted_iff :
  forall params : RiskParams,
    valid (validateRiskParameters params) = true
    <-> match stopLossPercent params, takeProfitPercent params with
        | Some s, Some t =>
            (0 <? s) = true /\ (s <=? 50) = true /\ (0 <? t) = true
            /\ (t / s <? 1.5) = false
            /\ match trailingStopPercent params with
               | Some r =>
                   Double.truthy r = false
                   \/ ((0 <? r) = true /\ (r <=? s) = true)
               | None => True
               end
        | _, _ => False
        end.
Proof.
  intros [sl tp tr]. unfold validateRiskParameters.
  cbn [stopLossPercent takeProfitPercent trailingStopPercent].
  destruct sl as [s |], tp as [t |]; cbn [truthy cmp negb orb andb app];
    try (split; [| intros []]; intros H; exfalso; cbn [valid] in H;
         repeat match type of H with
                | context [if ?b then _ else _] =>
                    match type of b with bool => destruct b end
                end; cbn in H; discriminate H).
  unfold Double.gtb.
  pose proof (truthy_positive s) as Ps. pose proof (truthy_positive t) as Pt.
  destruct (0 <? s) eqn:S0.
  2:{ split; [intros H; exfalso | intros [H _]; discriminate H].
      destruct (Double.truthy s), (s <=? 0); cbn in Ps; try discriminate Ps;
        cbn in H; discriminate H. }
  destruct (0 <? t) eqn:T0.
  2:{ split; [intros H; exfalso | intros (_ & _ & H & _); discriminate H].
      destruct (Double.truthy t), (t <=? 0); cbn in Pt; try discriminate Pt;
        destruct (Double.truthy s), (s <=? 0), (50 <? s); cbn in H;
        discriminate H. }
  pose proof (positive_not_nan s S0) as Ns.
  pose proof (not_above s 50 Ns eq_refl) as Bs.
  destruct (Double.truthy s), (s <=? 0); cbn in Ps; try discriminate Ps.
  destruct (Double.truthy t), (t <=? 0); cbn in Pt; try discriminate Pt.
  cbn [negb orb andb].
  destruct (50 <? s), (s <=? 50); cbn in Bs; try discriminate Bs.
  { split; [intros H; destruct (t / s <? 1.5), tr; discriminate H
           | intros (_ & H & _); discriminate H]. }
  destruct (t / s <? 1.5).
  { split; [intros H; destruct tr; discriminate H
           | intros (_ & _ & _ & H & _); discriminate H]. }
  cbn [app].
  destruct tr as [r |]; cbn [truthy cmp]; [| split; [intros _ | reflexivity]; tauto].
  pose proof (truthy_positive r) as Pr.
  destruct (Double.truthy r) eqn:Tr; cbn [andb];
    [| split; [intros _ | reflexivity]; repeat split; auto].
  assert (Nr : is_nan r = false).
  { unfold Double.truthy in Tr. apply andb_true_iff in Tr. destruct Tr as [Tr _].
    apply negb_true_iff in Tr. exact Tr. }
  pose proof (not_above r s Nr Ns) as Br.
  destruct (r <=? 0), (0 <? r); cbn in Pr; try discriminate Pr; cbn [orb].
  - split; [intros H; discriminate H | intros (_ & _ & _ & _ & [H | [H _]]);
                                        discriminate H].
  - destruct (s <? r), (r <=? s); cbn in Br; try discriminate Br.
    + split; [intros H; discriminate H
             | intros (_ & _ & _ & _ & [H | [_ H]]); discriminate H].
    + split; [intros _ | reflexivity]. repeat split; auto.
Qed.

(** The percentages 2.2 and 3.3 are a ratio of 1.5 on paper; the doubles
    give 1.4999999999999998, which is below 1.5 and prints as 1.50. *)
Example ratio_just_below :
  validateRiskParameters
    {| stopLossPercent := Some (Double.of_Q (22 # 10));
       takeProfitPercent := Some (Double.of_Q (33 # 10));
       trailingStopPercent := None |}
  = {| valid := false;
       errors := ["Risk/reward ratio 1.50 is too low (minimum 1.5:1)"] |}
  /\ valid (validateRiskParameters
              {| stopLossPercent := Some 2; takeProfitPercent := Some 3;
                 trailingStopPercent := Some 2 |}) = true
  /\ valid (validateRiskParameters
              {| stopLossPercent := Some 2; takeProfitPercent := Some 5;
                 trailingStopPercent := Some 1.5 |}) = true.
Proof. repeat split; vm_compute; reflexivity. Qed.

End RiskParameterProps.

(** ** The circuit breaker over runs of closes *)
Module BreakerRunProps.

Import AdvancedRisk CircuitBreakerProps.

Definition losing (e : Z * Q) : Prop := (e.2 < 0)%Q.
Definition not_losing (e : Z * Q) : Prop := (0 <= e.2)%Q.

Lemma loss_step (st : CircuitBreakerState) (now : Z) (pnl : Q) :
  (pnl < 0)%Q ->
  let st' := (updateCircuitBreaker st now pnl).2 in
  consecutiveLosses st' = consecutiveLosses st + 1
  /\ isTripped st'
     = (isTripped st || (maxConsecutiveLosses st <=? consecutiveLosses st + 1))
  /\ maxConsecutiveLosses st' = maxConsecutiveLosses st
  /\ cooldownPeriod st' = cooldownPeriod st.
Proof.
  intros H. apply JsFacts.ltb_true in H. unfold updateCircuitBreaker. rewrite H.
  destruct (maxConsecutiveLosses st <=? consecutiveLosses st + 1); cbn.
  - rewrite orb_true_r. repeat split.
  - rewrite orb_false_r. repeat split.
Qed.

Lemma losses_run (events : list (Z * Q)) :
  forall st : CircuitBreakerState,
    Forall losing events ->
    let st' := after_closes st events in
    let n := Z.of_nat (length events) in
    consecutiveLosses st' = consecutiveLosses st + n
    /\ isTripped st'
       = (isTripped st
          || ((0 <? n) && (maxConsecutiveLosses st <=? consecutiveLosses st + n)))
    /\ maxConsecutiveLosses st' = maxConsecutiveLosses st
    /\ cooldownPeriod st' = cooldownPeriod st.
Proof.
  induction events as [| [t pnl] rest IH]; intros st Hall.
  - cbn. rewrite Z.add_0_r, orb_false_r. repeat split.
  - inversion Hall as [| ? ? Hl Hrest]; subst. unfold losing in Hl. cbn in Hl.
    destruct (loss_step st t pnl Hl) as (Hc & Ht & Hm & Hp).
    destruct (IH (updateCircuitBreaker st t pnl).2 Hrest) as (Ic & It & Im & Ip).
    cbn zeta in *.
    change (after_closes st ((t, pnl) :: rest))
      with (after_closes (updateCircuitBreaker st t pnl).2 rest).
    rewrite Ic, It, Im, Ip, Hc, Ht, Hm, Hp.
    change (length ((t, pnl) :: rest)) with (S (length rest)).
    rewrite Nat2Z.inj_succ.
    set (k := Z.of_nat (length rest)).
    assert (Hk : 0 <= k) by (subst k; apply Nat2Z.is_nonneg).
    replace (consecutiveLosses st + 1 + k)
      with (consecutiveLosses st + Z.succ k) by lia.
    refine (conj eq_refl (conj _ (conj eq_refl eq_refl))).
    assert (E0 : (0 <? Z.succ k) = true) by (apply Z.ltb_lt; lia).
    rewrite E0. cbn [andb].
    destruct (isTripped st); [reflexivity |]. cbn [orb].
    destruct (maxConsecutiveLosses st <=? consecutiveLosses st + 1) eqn:E1.
    + apply Z.leb_le in E1. cbn [orb]. symmetry. apply Z.leb_le. lia.
    + cbn [orb]. destruct (0 <? k) eqn:E2; [reflexivity |].
      apply Z.ltb_ge in E2. assert (k = 0) as -> by lia.
      cbn [andb]. symmetry. exact E1.
Qed.

(** Starting from a breaker that is not tripped, after a run of one or
    more losing closes the counter has grown by the length of the run and
    the breaker is tripped exactly when the counter has reached the
    threshold; threshold and cooldown are as they were. *)
Theorem losses_trip_at_threshold :
  forall (st : CircuitBreakerState) (events : list (Z * Q)),
    isTripped st = false ->
    events <> [] ->
    Forall losing events ->
    let st' := after_closes st events in
    consecutiveLosses st'
    = consecutiveLosses st + Z.of_nat (length events)
    /\ (isTripped st' = true
        <-> maxConsecutiveLosses st
            <= consecutiveLosses st + Z.of_nat (length events))
    /\ maxConsecutiveLosses st' = maxConsecutiveLosses st
    /\ cooldownPeriod st' = cooldownPeriod st.
Proof.
  intros st events Hnt Hne Hall st'.
  destruct (losses_run events st Hall) as (Hc & Ht & Hm & Hp).
  fold st' in Hc, Ht, Hm, Hp.
  refine (conj Hc (conj _ (conj Hm Hp))).
  rewrite Ht, Hnt. cbn [orb].
  assert (E : (0 <? Z.of_nat (length events)) = true).
  { apply Z.ltb_lt. destruct events; [contradiction | cbn; lia]. }
  rewrite E. cbn [andb]. apply Z.leb_le.
Qed.

Lemma losses_trip_at_threshold_witness :
  isTripped (after_closes circuitBreakerState0
               [(10, (-1)%Q); (20, (-2)%Q)]) <> true
  /\ isTripped (after_closes circuitBreakerState0
                  [(10, (-1)%Q); (20, (-2)%Q); (30, (-(1 # 2))%Q)]) = true.
Proof.
  split.
  - intros H.
    apply (proj1 (proj2 (losses_trip_at_threshold circuitBreakerState0
                           [(10, (-1)%Q); (20, (-2)%Q)] eq_refl
                           ltac:(discriminate)
                           ltac:(repeat constructor)))) in H.
    cbn in H. lia.
  - apply (proj1 (proj2 (losses_trip_at_threshold circuitBreakerState0
                           [(10, (-1)%Q); (20, (-2)%Q); (30, (-(1 # 2))%Q)]
                           eq_refl ltac:(discriminate)
                           ltac:(repeat constructor)))).
    cbn. lia.
Defined.

(** *** What closes cannot do *)

Lemma update_latch (st : CircuitBreakerState) (now : Z) (pnl : Q) :
  let st' := (updateCircuitBreaker st now pnl).2 in
  (isTripped st = true -> isTripped st' = true)
  /\ ((0 <= pnl)%Q -> isTripped st' = isTripped st /\ tripTime st' = tripTime st)
  /\ maxConsecutiveLosses st' = maxConsecutiveLosses st
  /\ cooldownPeriod st' = cooldownPeriod st.
Proof.
  unfold updateCircuitBreaker.
  destruct (Js.ltb pnl 0) eqn:E1.
  - apply JsFacts.ltb_true in E1.
    destruct (maxConsecutiveLosses st <=? consecutiveLosses st + 1); cbn;
      repeat split; auto; intros; lra.
  - destruct (Js.gtb pnl 0); cbn; repeat split; auto.
Qed.

(** No close clears a tripped breaker, whatever its P&L and whenever it
    is booked; a run without a losing close neither trips the breaker nor
    moves its trip time; and no close changes threshold or cooldown. *)
Theorem closes_never_untrip :
  forall (st : CircuitBreakerState) (events : list (Z * Q)),
    let st' := after_closes st events in
    (isTripped st = true -> isTripped st' = true)
    /\ (Forall not_losing events ->
        isTripped st' = isTripped st /\ tripTime st' = tripTime st)
    /\ maxConsecutiveLosses st' = maxConsecutiveLosses st
    /\ cooldownPeriod st' = cooldownPeriod st.
Proof.
  intros st events. revert st.
  induction events as [| [t pnl] rest IH]; intros st; cbn zeta.
  - cbn. repeat split; auto.
  - change (after_closes st ((t, pnl) :: rest))
      with (after_closes (updateCircuitBreaker st t pnl).2 rest).
    destruct (update_latch st t pnl) as (U1 & U2 & U3 & U4).
    destruct (IH (updateCircuitBreaker st t pnl).2) as (I1 & I2 & I3 & I4).
    cbn zeta in *.
    refine (conj _ (conj _ (conj _ _))).
    + intros H. apply I1, U1, H.
    + intros Hall. inversion Hall as [| ? ? Hn Hrest]; subst.
      destruct (I2 Hrest) as [J1 J2]. destruct (U2 Hn) as [K1 K2].
      split; congruence.
    + congruence.
    + congruence.
Qed.

Lemma closes_never_untrip_witness :
  isTripped (after_closes tripped_at_1000 [(2000, 5%Q); (3000, 0%Q); (4000, 9%Q)])
  = true
  /\ isTripped (after_closes two_losses [(2000, 5%Q); (3000, 0%Q)]) = false.
Proof.
  destruct (closes_never_untrip tripped_at_1000
              [(2000, 5%Q); (3000, 0%Q); (4000, 9%Q)]) as (H1 & _).
  destruct (closes_never_untrip two_losses [(2000, 5%Q); (3000, 0%Q)])
    as (_ & H2 & _).
  split.
  - apply H1. reflexivity.
  - rewrite (proj1 (H2 ltac:(repeat constructor; unfold not_losing; cbn;
                              discriminate))). reflexivity.
Defined.

(** *** The states the breaker can be in *)

(** A tripped breaker has a trip time, and the counter is not negative. *)
Definition sound (st : CircuitBreakerState) : Prop :=
  0 <= consecutiveLosses st
  /\ (isTripped st = true -> exists t, tripTime st = Some t).

(** The initial state is sound and every operation keeps soundness, so
    a tripped breaker always has its trip time to measure the cooldown
    from; then a check is halted exactly when less than the cooldown has
    passed since that time. *)
Theorem breaker_stays_sound :
  forall (st : CircuitBreakerState) (now : Z) (pnl : Q) (config : BreakerConfig),
    sound st ->
    sound circuitBreakerState0
    /\ sound (updateCircuitBreaker st now pnl).2
    /\ sound (checkCircuitBreaker st now).2
    /\ sound (resetCircuitBreaker st)
    /\ sound (updateCircuitBreakerConfig st config)
    /\ (isTripped st = true ->
        exists t, tripTime st = Some t
                  /\ (halted (checkCircuitBreaker st now).1 = true
                      <-> now - t < cooldownPeriod st)).
Proof.
  intros st now pnl config [Hc Ht].
  refine (conj _ (conj _ (conj _ (conj _ (conj _ _))))).
  - split; [cbn; lia | cbn; discriminate].
  - unfold updateCircuitBreaker.
    destruct (Js.ltb pnl 0);
      [destruct (maxConsecutiveLosses st <=? consecutiveLosses st + 1) |
       destruct (Js.gtb pnl 0)]; split; cbn; try lia; eauto.
  - unfold checkCircuitBreaker.
    destruct (isTripped st) eqn:E;
      [destruct (cooldownPeriod st <=? timeSince now (tripTime st)) |];
      split; cbn; try lia; try discriminate; auto.
    rewrite E. discriminate.
  - split; cbn; [lia | discriminate].
  - split; cbn; assumption.
  - intros E. destruct (Ht E) as [t Et]. exists t. split; [exact Et |].
    unfold checkCircuitBreaker, timeSince. rewrite E, Et.
    destruct (cooldownPeriod st <=? now - t) eqn:C; cbn.
    + apply Z.leb_le in C. split; [discriminate | lia].
    + apply Z.leb_gt in C. split; [intros _; exact C | reflexivity].
Qed.

Lemma breaker_stays_sound_witness :
  sound (updateCircuitBreaker two_losses 1000 (-5)%Q).2
  /\ halted (checkCircuitBreaker tripped_at_1000 2000).1 = true.
Proof.
  assert (S2 : sound two_losses) by (split; cbn; [lia | discriminate]).
  assert (S3 : sound tripped_at_1000) by (split; cbn; [lia | eauto]).
  destruct (breaker_stays_sound two_losses 1000 (-5)%Q
              {| cfg_maxConsecutiveLosses := None; cfg_cooldownMinutes := None |} S2)
    as (_ & Hu & _).
  destruct (breaker_stays_sound tripped_at_1000 2000 0%Q
              {| cfg_maxConsecutiveLosses := None; cfg_cooldownMinutes := None |} S3)
    as (_ & _ & _ & _ & _ & Hh).
  split; [exact Hu |].
  destruct (Hh eq_refl) as (t & Et & Hiff).
  apply Hiff. cbn in Et. injection Et as <-. cbn. lia.
Defined.

(** *** Reconfiguring *)

(** Changing the configuration neither trips nor clears the breaker and
    keeps the counter: after the threshold is lowered to a value the
    counter has already reached, a check still reports not halted, and
    the very next losing close trips it.  A cooldown given in minutes is
    read back as the same number of minutes. *)
Theorem lowered_threshold_trips_on_next_loss :
  forall (st : CircuitBreakerState) (n m now : Z) (pnl : Q),
    isTripped st = false ->
    n <= consecutiveLosses st ->
    (pnl < 0)%Q ->
    let st' := updateCircuitBreakerConfig st
                 {| cfg_maxConsecutiveLosses := Some n;
                    cfg_cooldownMinutes := Some m |} in
    isTripped st' = false
    /\ consecutiveLosses st' = consecutiveLosses st
    /\ halted (checkCircuitBreaker st' now).1 = false
    /\ isTripped (updateCircuitBreaker st' now pnl).2 = true
    /\ tripTime (updateCircuitBreaker st' now pnl).2 = Some now
    /\ (getCooldownMinutes st' == inject_Z m)%Q.
Proof.
  intros st n m now pnl Hnt Hn Hl st'. subst st'.
  refine (conj Hnt (conj eq_refl (conj _ (conj _ (conj _ _))))).
  - unfold checkCircuitBreaker. cbn. rewrite Hnt. reflexivity.
  - apply JsFacts.ltb_true in Hl. unfold updateCircuitBreaker. rewrite Hl. cbn.
    assert (E : (n <=? consecutiveLosses st + 1) = true) by (apply Z.leb_le; lia).
    rewrite E. reflexivity.
  - apply JsFacts.ltb_true in Hl. unfold updateCircuitBreaker. rewrite Hl. cbn.
    assert (E : (n <=? consecutiveLosses st + 1) = true) by (apply Z.leb_le; lia).
    rewrite E. reflexivity.
  - unfold getCooldownMinutes. cbn.
    rewrite !inject_Z_mult. change (inject_Z 60) with 60%Q.
    change (inject_Z 1000) with 1000%Q. field.
Qed.

Lemma lowered_threshold_trips_on_next_loss_witness :
  let st' := updateCircuitBreakerConfig two_losses
               {| cfg_maxConsecutiveLosses := Some 2;
                  cfg_cooldownMinutes := Some 30 |} in
  halted (checkCircuitBreaker st' 50).1 = false
  /\ isTripped (updateCircuitBreaker st' 50 (-1)%Q).2 = true.
Proof.
  destruct (lowered_threshold_trips_on_next_loss two_losses 2 30 50 (-1)%Q
              eq_refl ltac:(cbn; lia) eq_refl) as (_ & _ & H1 & H2 & _).
  exact (conj H1 H2).
Defined.

End BreakerRunProps.

(** ** Indicators: range and shape *)
Module IndicatorProps.

Import Indicators IndicatorsAdvanced RsiProps.
Local Open Scope Q_scope.

(** *** RSI *)

Lemma of_nat_pos (n : nat) : (1 <= n)%nat -> 0 < of_nat n.
Proof.
  intros H. unfold of_nat. change 0 with (inject_Z 0). rewrite <- Zlt_Qlt. lia.
Qed.

Lemma of_nat_ge_1 (n : nat) : (1 <= n)%nat -> 1 <= of_nat n.
Proof.
  intros H. unfold of_nat. change 1 with (inject_Z 1). rewrite <- Zle_Qle. lia.
Qed.

Lemma sum_over_nonneg (f : Q -> Q) (closes : list Q) (idx : list nat) :
  (forall c, 0 <= f c) -> 0 <= sum_over f closes idx.
Proof.
  intros Hf. unfold sum_over.
  induction idx as [| i rest IH]; cbn [fold_right]; [apply Qle_refl |].
  pose proof (Hf (change closes i)) as Hc.
  revert Hc IH. generalize (f (change closes i)).
  generalize (fold_right (fun i acc => f (change closes i) + acc) 0 rest).
  intros; lra.
Qed.

Lemma gain_of_nonneg (c : Q) : 0 <= gain_of c.
Proof. unfold gain_of. apply Q.le_max_r. Qed.

Lemma loss_of_nonneg' (c : Q) : 0 <= loss_of c.
Proof. unfold loss_of. apply Q.le_max_r. Qed.

Lemma averages_nonneg (closes : list Q) (period k : nat) :
  (1 <= period)%nat ->
  0 <= (averages closes period k).1 /\ 0 <= (averages closes period k).2.
Proof.
  intros Hp. pose proof (of_nat_pos period Hp) as Hpos.
  pose proof (of_nat_ge_1 period Hp) as Hge.
  induction k as [| k IH].
  - cbn [averages]. destruct (seed_is_average closes period) as [H1 H2].
    rewrite H1, H2. split; apply Qle_shift_div_l; try exact Hpos;
      rewrite Qmult_0_l; apply sum_over_nonneg;
      [apply gain_of_nonneg | apply loss_of_nonneg'].
  - cbn [averages].
    destruct (smooth_is_wilder closes period (averages closes period k)
                (period + S k)) as [H1 H2].
    rewrite H1, H2. destruct IH as [I1 I2].
    pose proof (gain_of_nonneg (change closes (period + S k))).
    pose proof (loss_of_nonneg' (change closes (period + S k))).
    split; apply Qle_shift_div_l; try exact Hpos; rewrite Qmult_0_l.
    + assert (0 <= (averages closes period k).1 * (of_nat period - 1))
        by (apply Qmult_le_0_compat; lra). lra.
    + assert (0 <= (averages closes period k).2 * (of_nat period - 1))
        by (apply Qmult_le_0_compat; lra). lra.
Qed.

Lemma rsi_value_range (avg : Q * Q) :
  0 <= avg.1 -> 0 <= avg.2 -> 0 <= rsi_value avg /\ rsi_value avg < 100.
Proof.
  destruct avg as [g l]. cbn [fst snd]. intros Hg Hl. unfold rsi_value.
  assert (Hrange : forall rs, 0 <= rs ->
            0 <= 100 - 100 / (1 + rs) /\ 100 - 100 / (1 + rs) < 100).
  { intros rs Hrs.
    assert (H1 : 100 / (1 + rs) <= 100) by (apply Qle_shift_div_r; lra).
    assert (H2 : 0 < 100 / (1 + rs)) by (apply Qlt_shift_div_l; lra).
    lra. }
  destruct (Js.eqb l 0) eqn:E.
  - apply Hrange. lra.
  - apply JsFacts.eqb_false in E. apply Hrange.
    apply Qle_shift_div_l; [| lra].
    destruct (Qlt_le_dec 0 l); [assumption |]. exfalso. apply E. lra.
Qed.

Lemma rsi_entry (closes : list Q) (period i : nat) (v : Q) :
  opt_at (rsi closes period) i = Some v ->
  exists k, i = (period + k)%nat /\ (period + k < length closes)%nat
            /\ v = rsi_value (averages closes period k).
Proof.
  intros H.
  destruct (Nat.lt_ge_cases i period) as [Hlt | Hge].
  { rewrite (rsi_null_before closes period i Hlt) in H. discriminate. }
  destruct (Nat.lt_ge_cases i (length closes)) as [Hin | Hout].
  - exists (i - period)%nat.
    replace (period + (i - period))%nat with i by lia.
    refine (conj eq_refl (conj Hin _)).
    pose proof (rsi_written closes period (i - period)) as Hw.
    replace (period + (i - period))%nat with i in Hw by lia.
    rewrite (Hw Hin) in H. injection H as <-. reflexivity.
  - exfalso. unfold rsi, opt_at in H.
    destruct (length closes <? period + 1)%nat.
    + rewrite nth_overflow in H by (rewrite repeat_length; exact Hout).
      discriminate.
    + rewrite nth_overflow in H; [discriminate |].
      rewrite length_app, repeat_length, length_map, length_seq. lia.
Qed.

(** For a period of at least 1, every number in the RSI array lies
    between 0 and 100.  (In exact arithmetic the upper bound is never
    reached; a double can round up to it.) *)
Theorem rsi_within_0_100 :
  forall (closes : list Q) (period i : nat) (v : Q),
    (1 <= period)%nat ->
    opt_at (rsi closes period) i = Some v ->
    0 <= v /\ v <= 100.
Proof.
  intros closes period i v Hp Hv.
  destruct (rsi_entry closes period i v Hv) as (k & _ & _ & ->).
  destruct (averages_nonneg closes period k Hp) as [Hg Hl].
  destruct (rsi_value_range (averages closes period k) Hg Hl) as [H0 H100].
  split; [exact H0 | apply Qlt_le_weak; exact H100].
Qed.

Lemma rsi_within_0_100_witness :
  exists v, opt_at (rsi [1; 2; 3; 2; 5] 2) 4 = Some v /\ 0 <= v /\ v <= 100.
Proof.
  eexists. split; [reflexivity |].
  apply (rsi_within_0_100 [1; 2; 3; 2; 5] 2 4); [lia | reflexivity].
Defined.

(** The RSI array is as long as the closes; it is all [null] when there
    are not more closes than the period, and otherwise [null] exactly on
    the first [period] indices. *)
Theorem rsi_array_shape :
  forall (closes : list Q) (period : nat),
    length (rsi closes period) = length closes
    /\ ((length closes <= period)%nat ->
        rsi closes period = repeat None (length closes))
    /\ ((period < length closes)%nat ->
        forall i, (i < length closes)%nat ->
                  (opt_at (rsi closes period) i = None <-> (i < period)%nat)).
Proof.
  intros closes period. refine (conj _ (conj _ _)).
  - unfold rsi. destruct (length closes <? period + 1)%nat eqn:E.
    + apply repeat_length.
    + apply Nat.ltb_ge in E.
      rewrite length_app, repeat_length, length_map, length_seq. lia.
  - intros H. unfold rsi.
    assert (E : (length closes <? period + 1)%nat = true)
      by (apply Nat.ltb_lt; lia).
    rewrite E. reflexivity.
  - intros H i Hi. split.
    + intros Hn. destruct (Nat.lt_ge_cases i period) as [Hlt | Hge]; [exact Hlt |].
      pose proof (rsi_written closes period (i - period)) as Hw.
      replace (period + (i - period))%nat with i in Hw by lia.
      rewrite (Hw Hi) in Hn. discriminate.
    + apply rsi_null_before.
Qed.

Lemma rsi_array_shape_witness :
  rsi [1; 2] 2 = [None; None]
  /\ (opt_at (rsi [1; 2; 3; 2; 5] 2) 1 = None).
Proof.
  destruct (rsi_array_shape [1; 2] 2) as (_ & H1 & _).
  destruct (rsi_array_shape [1; 2; 3; 2; 5] 2) as (_ & _ & H2).
  split.
  - apply H1. cbn. lia.
  - apply (H2 ltac:(cbn; lia) 1%nat ltac:(cbn; lia)). lia.
Defined.

(** *** Readings *)

Definition reading_ok (it : Interpretation) : Prop :=
  (i_signal it = "buy" \/ i_signal it = "sell" \/ i_signal it = "neutral")
  /\ 0 <= strength it /\ strength it <= 1
  /\ (i_signal it = "neutral" -> strength it = 0)
  /\ (i_signal it <> "neutral" -> 0 < strength it).

Lemma min_pos (x y : Q) : 0 < x -> 0 < y -> 0 < Js.Math_min x y.
Proof. intros. unfold Js.Math_min. destruct (Qle_bool x y); assumption. Qed.

Lemma min_le_cap (x y : Q) : Js.Math_min x y <= y.
Proof. apply JsFacts.min_le_r. Qed.

Ltac reading :=
  solve [ unfold reading_ok; cbn [i_signal strength];
          repeat split;
          first [ tauto | lra | intros; discriminate
                | intros H; exfalso; apply H; reflexivity ] ].

Lemma interpretRSI_reading (rsiValue : option Q) :
  reading_ok (interpretRSI rsiValue).
Proof.
  unfold interpretRSI. destruct rsiValue as [r |]; [| reading].
  destruct (Js.gtb r 70) eqn:E1.
  { apply JsFacts.gtb_true in E1.
    assert (0 < (r - 70) / 30) by (apply Qlt_shift_div_l; lra).
    pose proof (min_pos ((r - 70) / 30) 1 H ltac:(lra)).
    pose proof (min_le_cap ((r - 70) / 30) 1). reading. }
  destruct (Js.ltb r 30) eqn:E2.
  { apply JsFacts.ltb_true in E2.
    assert (0 < (30 - r) / 30) by (apply Qlt_shift_div_l; lra).
    pose proof (min_pos ((30 - r) / 30) 1 H ltac:(lra)).
    pose proof (min_le_cap ((30 - r) / 30) 1). reading. }
  destruct (Js.gtb r 60); [reading |]. destruct (Js.ltb r 40); reading.
Qed.

Lemma interpretMACD_reading (macdData : MacdPoint) (prevHistogram : option Q) :
  reading_ok (interpretMACD macdData prevHistogram).
Proof.
  unfold interpretMACD.
  destruct (m_macd macdData), (m_signal macdData),
    (m_histogram macdData) as [h |]; try reading.
  assert (Hmin : ~ h == 0 -> 0 < Js.Math_min (Js.Math_abs h / 100) (5 # 10)).
  { intros Hh. apply min_pos; [| lra]. apply Qlt_shift_div_l; [lra |].
    pose proof (RiskSizingProps.abs_pos h Hh). lra. }
  pose proof (min_le_cap (Js.Math_abs h / 100) (5 # 10)) as Hcap.
  destruct (Js.gtb h 0 && Js.leb (or0 prevHistogram) 0); [reading |].
  destruct (Js.ltb h 0 && Js.geb (or0 prevHistogram) 0); [reading |].
  destruct (Js.gtb h 0) eqn:E1.
  { apply JsFacts.gtb_true in E1. specialize (Hmin ltac:(lra)). reading. }
  destruct (Js.ltb h 0) eqn:E2.
  { apply JsFacts.ltb_true in E2. specialize (Hmin ltac:(lra)). reading. }
  reading.
Qed.

Lemma interpretBollingerBands_reading (currentPrice : Q) (bbData : BandPoint) :
  reading_ok (interpretBollingerBands currentPrice bbData).
Proof.
  unfold interpretBollingerBands.
  destruct (upper bbData), (middle bbData), (lower bbData); try reading.
  destruct (Js.eqb _ 0).
  { destruct (Js.ltb _ 0); [reading |]. destruct (Js.gtb _ 0); reading. }
  destruct (Js.leb _ (1 # 10)); [reading |].
  destruct (Js.geb _ (9 # 10)); [reading |].
  destruct (Js.geb _ (4 # 10) && Js.leb _ (6 # 10)); [reading |].
  destruct (Js.gtb _ (5 # 10)); reading.
Qed.

(** Every reading of the three interpretation functions has a signal
    among 'buy', 'sell' and 'neutral' and a strength between 0 and 1; a
    neutral reading has strength 0 and a buy or sell reading a strictly
    positive one. *)
Theorem readings_are_well_formed :
  forall (rsiValue : option Q) (macdData : MacdPoint) (prevHistogram : option Q)
         (currentPrice : Q) (bbData : BandPoint),
    reading_ok (interpretRSI rsiValue)
    /\ reading_ok (interpretMACD macdData prevHistogram)
    /\ reading_ok (interpretBollingerBands currentPrice bbData).
Proof.
  intros rsiValue macdData prevHistogram currentPrice bbData.
  refine (conj _ (conj _ _)).
  - apply interpretRSI_reading.
  - apply interpretMACD_reading.
  - apply interpretBollingerBands_reading.
Qed.

End IndicatorProps.

(** ** Moving averages and their crossover *)
Module MovingAverageProps.

Import Indicators IndicatorProps.
Local Open Scope Q_scope.

(** The sum of [k] values from index [a] on. *)
Fixpoint sum_from (values : list Q) (a k : nat) : Q :=
  match k with
  | O => 0
  | S k' => at_ values a + sum_from values (S a) k'
  end.

Lemma sum_from_snoc (values : list Q) (k : nat) :
  forall a, sum_from values a (S k) == sum_from values a k + at_ values (a + k).
Proof.
  induction k as [| k IH]; intros a.
  - cbn. rewrite Nat.add_0_r. ring.
  - change (sum_from values a (S (S k)))
      with (at_ values a + sum_from values (S a) (S k)).
    rewrite (IH (S a)).
    change (sum_from values a (S k)) with (at_ values a + sum_from values (S a) k).
    replace (S a + k)%nat with (a + S k)%nat by lia. ring.
Qed.

Definition sma_loop (values : list Q) (n m : nat) : Q * list (option Q) :=
  fold_left (sma_step values n) (seq 0 m) (0, []).

Lemma sma_loop_S (values : list Q) (n m : nat) :
  sma_loop values n (S m) = sma_step values n (sma_loop values n m) m.
Proof.
  unfold sma_loop. rewrite seq_S, fold_left_app. reflexivity.
Qed.

(** What one entry of the output must be: [null] while fewer than [n]
    values have been seen, the mean of the last [n] values afterwards. *)
Definition window_mean (values : list Q) (n i : nat) (entry : option Q) : Prop :=
  match entry with
  | Some v => (n <= i + 1)%nat
              /\ v == sum_from values (i + 1 - n) n / of_nat n
  | None => (i + 1 < n)%nat
  end.

Lemma sma_loop_inv (values : list Q) (n : nat) :
  forall m,
    length (sma_loop values n m).2 = m
    /\ (sma_loop values n m).1 == sum_from values (m - n) (Nat.min m n)
    /\ forall i, (i < m)%nat ->
                 window_mean values n i (nth i (sma_loop values n m).2 None).
Proof.
  induction m as [| m (Hlen & Hsum & Hout)].
  - cbn. refine (conj eq_refl (conj (Qeq_refl _) _)). intros i Hi. lia.
  - rewrite sma_loop_S.
    destruct (sma_loop values n m) as [s out]. cbn [fst snd] in *.
    unfold sma_step.
    set (s2 := if (n <=? m)%nat then s + at_ values m - at_ values (m - n)
               else s + at_ values m).
    assert (Hs2 : s2 == sum_from values (S m - n) (Nat.min (S m) n)).
    { subst s2. destruct (n <=? m)%nat eqn:E.
      - apply Nat.leb_le in E.
        rewrite Nat.min_r in Hsum by lia. rewrite Nat.min_r by lia.
        replace (S m - n)%nat with (S (m - n)) by lia.
        pose proof (sum_from_snoc values n (m - n)) as Hsn.
        replace (m - n + n)%nat with m in Hsn by lia.
        change (sum_from values (m - n) (S n))
          with (at_ values (m - n) + sum_from values (S (m - n)) n) in Hsn.
        rewrite <- Hsum in Hsn. lra.
      - apply Nat.leb_gt in E.
        rewrite Nat.min_l in Hsum by lia. rewrite Nat.min_l by lia.
        replace (m - n)%nat with 0%nat in Hsum by lia.
        replace (S m - n)%nat with 0%nat by lia.
        rewrite (sum_from_snoc values m 0), <- Hsum. reflexivity. }
    cbn [fst snd]. refine (conj _ (conj Hs2 _)).
    + rewrite length_app, Hlen. cbn. lia.
    + intros i Hi. destruct (Nat.eq_dec i m) as [-> | Hne].
      * rewrite app_nth2 by lia. rewrite Hlen, Nat.sub_diag. cbn [nth].
        destruct (n <=? m + 1)%nat eqn:E.
        -- apply Nat.leb_le in E. split; [exact E |].
           rewrite Hs2. rewrite Nat.min_r by lia.
           replace (m + 1 - n)%nat with (S m - n)%nat by lia. reflexivity.
        -- apply Nat.leb_gt in E. exact E.
      * rewrite app_nth1 by lia. apply Hout. lia.
Qed.

(** The running-sum moving average is the windowed mean: the output is
    as long as the input, [null] on the first [n - 1] indices, and from
    index [n - 1] on the sum of the last [n] values divided by [n]. *)
Theorem sma_is_window_mean :
  forall (values : list Q) (n : nat),
    (1 <= n)%nat ->
    length (sma values n) = length values
    /\ forall i, (i < length values)%nat ->
                 window_mean values n i (opt_at (sma values n) i).
Proof.
  intros values n Hn.
  destruct (sma_loop_inv values n (length values)) as (Hlen & _ & Hout).
  split; [exact Hlen | exact Hout].
Qed.

Lemma sma_is_window_mean_witness :
  opt_at (sma [1; 2; 3; 4; 5] 2) 0 = None
  /\ exists v, opt_at (sma [1; 2; 3; 4; 5] 2) 3 = Some v /\ v == 7 # 2.
Proof.
  destruct (sma_is_window_mean [1; 2; 3; 4; 5] 2 ltac:(lia)) as [_ H].
  split; [reflexivity |].
  pose proof (H 3%nat ltac:(cbn; lia)) as H3.
  destruct (opt_at (sma [1; 2; 3; 4; 5] 2) 3) as [v |] eqn:E.
  - exists v. split; [reflexivity |]. destruct H3 as [_ ->]. reflexivity.
  - cbn in H3. lia.
Defined.

(** *** The last crossover *)

Section Crossover.

Variables a b : list (option Q).

(** The short average was at or below the long one at [i - 1] and is
    above it at [i]; and the mirror image. *)
Definition crossed_up (i : nat) : Prop :=
  exists a0 b0 a1 b1,
    opt_at a (i - 1) = Some a0 /\ opt_at b (i - 1) = Some b0
    /\ opt_at a i = Some a1 /\ opt_at b i = Some b1
    /\ a0 - b0 <= 0 /\ 0 < a1 - b1.

Definition crossed_down (i : nat) : Prop :=
  exists a0 b0 a1 b1,
    opt_at a (i - 1) = Some a0 /\ opt_at b (i - 1) = Some b0
    /\ opt_at a i = Some a1 /\ opt_at b i = Some b1
    /\ 0 <= a0 - b0 /\ a1 - b1 < 0.

Lemma cross_step_cases (acc : string * Z) (i : nat) :
  (crossed_up i /\ cross_step a b acc i = ("buy", Z.of_nat i))
  \/ (crossed_down i /\ cross_step a b acc i = ("sell", Z.of_nat i))
  \/ (~ crossed_up i /\ ~ crossed_down i /\ cross_step a b acc i = acc).
Proof.
  unfold cross_step.
  destruct (opt_at a (i - 1)) as [a0 |] eqn:E1;
    [| right; right; repeat split; auto; intros (? & ? & ? & ? & H & _); congruence].
  destruct (opt_at b (i - 1)) as [b0 |] eqn:E2;
    [| right; right; repeat split; auto; intros (? & ? & ? & ? & _ & H & _); congruence].
  destruct (opt_at a i) as [a1 |] eqn:E3;
    [| right; right; repeat split; auto;
       intros (? & ? & ? & ? & _ & _ & H & _); congruence].
  destruct (opt_at b i) as [b1 |] eqn:E4;
    [| right; right; repeat split; auto;
       intros (? & ? & ? & ? & _ & _ & _ & H & _); congruence].
  destruct (Js.geb (a0 - b0) 0 && Js.ltb (a1 - b1) 0) eqn:D.
  - apply andb_true_iff in D. destruct D as [D1 D2].
    apply JsFacts.geb_true in D1. apply JsFacts.ltb_true in D2.
    right. left. split; [| reflexivity].
    exists a0, b0, a1, b1. repeat split; auto.
  - destruct (Js.leb (a0 - b0) 0 && Js.gtb (a1 - b1) 0) eqn:U.
    + apply andb_true_iff in U. destruct U as [U1 U2].
      apply JsFacts.leb_true in U1. apply JsFacts.gtb_true in U2.
      left. split; [| reflexivity].
      exists a0, b0, a1, b1. repeat split; auto.
    + right. right. refine (conj _ (conj _ eq_refl)).
      * intros (x0 & y0 & x1 & y1 & H1 & H2 & H3 & H4 & H5 & H6).
        assert (x0 = a0) by congruence. assert (y0 = b0) by congruence.
        assert (x1 = a1) by congruence. assert (y1 = b1) by congruence. subst.
        apply JsFacts.leb_true in H5. apply JsFacts.gtb_true in H6.
        rewrite H5, H6 in U. discriminate.
      * intros (x0 & y0 & x1 & y1 & H1 & H2 & H3 & H4 & H5 & H6).
        assert (x0 = a0) by congruence. assert (y0 = b0) by congruence.
        assert (x1 = a1) by congruence. assert (y1 = b1) by congruence. subst.
        apply JsFacts.geb_true in H5. apply JsFacts.ltb_true in H6.
        rewrite H5, H6 in D. discriminate.
Qed.

(** The state of the scan after indices 1..k. *)
Definition last_cross (k : nat) (acc : string * Z) : Prop :=
  (acc = ("hold", (-1)%Z)
   /\ forall i, (1 <= i <= k)%nat -> ~ crossed_up i /\ ~ crossed_down i)
  \/ exists i, (1 <= i <= k)%nat
               /\ ((acc = ("buy", Z.of_nat i) /\ crossed_up i)
                   \/ (acc = ("sell", Z.of_nat i) /\ crossed_down i))
               /\ forall j, (i < j <= k)%nat -> ~ crossed_up j /\ ~ crossed_down j.

Lemma scan_inv (k : nat) :
  last_cross k (fold_left (cross_step a b) (seq 1 k) ("hold", (-1)%Z)).
Proof.
  induction k as [| k IH].
  - left. split; [reflexivity |]. intros i Hi. lia.
  - rewrite seq_S, fold_left_app. cbn [fold_left].
    set (acc := fold_left (cross_step a b) (seq 1 k) ("hold", (-1)%Z)) in *.
    replace (1 + k)%nat with (S k) by lia.
    destruct (cross_step_cases acc (S k)) as [[Hu E] | [[Hd E] | (Hu & Hd & E)]];
      rewrite E.
    + right. exists (S k). split; [lia | split].
      * left. split; [reflexivity | exact Hu].
      * intros j Hj. lia.
    + right. exists (S k). split; [lia | split].
      * right. split; [reflexivity | exact Hd].
      * intros j Hj. lia.
    + destruct IH as [[Eh Hnone] | (i & Hi & Hc & Hafter)].
      * left. split; [exact Eh |]. intros i Hi.
        destruct (Nat.eq_dec i (S k)) as [-> | Hne]; [tauto | apply Hnone; lia].
      * right. exists i. split; [lia | split; [exact Hc |]].
        intros j Hj.
        destruct (Nat.eq_dec j (S k)) as [-> | Hne]; [tauto | apply Hafter; lia].
Qed.

End Crossover.

(** [lastSmaSignal] reports the last crossover of the two averages:
    either there is none at any index and it answers 'hold' with index
    -1, or it answers 'buy' (or 'sell') with the index of an upward (or
    downward) crossover after which no further crossover occurs. *)
Theorem last_sma_signal_is_last_crossover :
  forall (closes : list Q) (shortN longN : nat),
    let r := lastSmaSignal closes shortN longN in
    let a := sma closes shortN in
    let b := sma closes longN in
    let n := length closes in
    (signal r = "hold" /\ lastIdx r = (-1)%Z
     /\ forall i, (1 <= i < n)%nat -> ~ crossed_up a b i /\ ~ crossed_down a b i)
    \/ exists i, (1 <= i < n)%nat
                 /\ lastIdx r = Z.of_nat i
                 /\ ((signal r = "buy" /\ crossed_up a b i)
                     \/ (signal r = "sell" /\ crossed_down a b i))
                 /\ forall j, (i < j < n)%nat ->
                              ~ crossed_up a b j /\ ~ crossed_down a b j.
Proof.
  intros closes shortN longN r a b n. subst r. unfold lastSmaSignal.
  fold a b. pose proof (scan_inv a b (n - 1)) as H. fold n.
  destruct (fold_left (cross_step a b) (seq 1 (n - 1)) ("hold", (-1)%Z))
    as [sig idx].
  cbn [signal lastIdx].
  destruct H as [[E Hnone] | (i & Hi & Hc & Hafter)].
  - injection E as -> ->. left. refine (conj eq_refl (conj eq_refl _)).
    intros i Hi. apply Hnone. lia.
  - right. exists i. split; [lia |].
    destruct Hc as [[E Hu] | [E Hd]]; injection E as -> ->.
    + refine (conj eq_refl (conj (or_introl (conj eq_refl Hu)) _)).
      intros j Hj. apply Hafter. lia.
    + refine (conj eq_refl (conj (or_intror (conj eq_refl Hd)) _)).
      intros j Hj. apply Hafter. lia.
Qed.

(** Short 2 and long 3: the averages first cross upwards at index 5,
    touch at index 8 (both are 110) and part again at index 9; the touch
    counts as being at or below, so the last crossover is at index 9. *)
Example crossover_example :
  let r := lastSmaSignal [100; 100; 100; 100; 100; 105; 110; 108; 112; 120] 2 3 in
  (signal r, lastIdx r) = ("buy", 9%Z).
Proof. vm_compute. reflexivity. Qed.

End MovingAverageProps.

(** ** The weighted vote of the composer *)
Module ComposerProps.

Import Indicators IndicatorsAdvanced SignalComposer SignalProps IndicatorProps.
Local Open Scope Q_scope.

(** The weight a list of votes gives one side. *)
Fixpoint side_sum (side : string) (l : list Vote) : Q :=
  match l with
  | [] => 0
  | s :: rest => (if is_vote side s then weight s else 0) + side_sum side rest
  end.

Definition positive (s : Vote) : Prop := 0 < weight s.

Lemma buy_is_not_sell (s : Vote) : is_vote "buy" s = true -> is_vote "sell" s = false.
Proof.
  unfold is_vote. intros H. apply String.eqb_eq in H. rewrite H. reflexivity.
Qed.

Lemma tally_fold (l : list Vote) :
  forall acc : Q * Q,
    let t := fold_left
               (fun (acc : Q * Q) (sig : Vote) =>
                  if is_vote "buy" sig then (acc.1 + weight sig, acc.2)
                  else if is_vote "sell" sig then (acc.1, acc.2 + weight sig)
                  else acc) l acc in
    t.1 == acc.1 + side_sum "buy" l /\ t.2 == acc.2 + side_sum "sell" l.
Proof.
  induction l as [| s rest IH]; intros acc; cbn [fold_left side_sum].
  - cbn. split; ring.
  - destruct (is_vote "buy" s) eqn:B.
    + rewrite (buy_is_not_sell s B).
      destruct (IH (acc.1 + weight s, acc.2)) as [H1 H2]. cbn [fst snd] in *.
      split; [rewrite H1 | rewrite H2]; ring.
    + destruct (is_vote "sell" s) eqn:S.
      * destruct (IH (acc.1, acc.2 + weight s)) as [H1 H2]. cbn [fst snd] in *.
        split; [rewrite H1 | rewrite H2]; ring.
      * destruct (IH acc) as [H1 H2]. split; [rewrite H1 | rewrite H2]; ring.
Qed.

Lemma tally_sums (l : list Vote) :
  (tally l).1 == side_sum "buy" l /\ (tally l).2 == side_sum "sell" l.
Proof.
  destruct (tally_fold l (0, 0)) as [H1 H2]. cbn [fst snd] in *.
  unfold tally. split; [rewrite H1 | rewrite H2]; ring.
Qed.

Lemma side_sum_app (side : string) (l : list Vote) (x : Vote) :
  side_sum side (l ++ [x])
  == side_sum side l + (if is_vote side x then weight x else 0).
Proof.
  induction l as [| s rest IH]; cbn [app side_sum].
  - ring.
  - rewrite IH. ring.
Qed.

Lemma side_sum_none (side : string) (l : list Vote) :
  existsb (is_vote side) l = false -> side_sum side l == 0.
Proof.
  induction l as [| s rest IH]; cbn [existsb side_sum]; intros H.
  - reflexivity.
  - apply orb_false_iff in H. destruct H as [H1 H2].
    rewrite H1, (IH H2). ring.
Qed.

Lemma side_sum_nonneg (side : string) (l : list Vote) :
  Forall positive l -> 0 <= side_sum side l.
Proof.
  induction 1 as [| s rest Hs _ IH]; cbn [side_sum]; [lra |].
  unfold positive in Hs. destruct (is_vote side s); lra.
Qed.

Lemma side_sum_some (side : string) (l : list Vote) :
  Forall positive l -> existsb (is_vote side) l = true -> 0 < side_sum side l.
Proof.
  induction 1 as [| s rest Hs Hrest IH]; cbn [existsb side_sum]; intros H.
  - discriminate.
  - unfold positive in Hs. pose proof (side_sum_nonneg side rest Hrest).
    destruct (is_vote side s); [lra |]. cbn in H. specialize (IH H). lra.
Qed.

(** What the volume block adds to a side: half a vote if the side has a
    voter already, nothing otherwise. *)
Definition boost (side : string) (l : list Vote) : Q :=
  if existsb (is_vote side) l then 1 # 2 else 0.

Lemma volume_effect (candles : list Candle) (l : list Vote) :
  (side_sum "buy" (volume_votes candles l) == side_sum "buy" l
   /\ side_sum "sell" (volume_votes candles l) == side_sum "sell" l)
  \/ (side_sum "buy" (volume_votes candles l) == side_sum "buy" l + boost "buy" l
      /\ side_sum "sell" (volume_votes candles l)
         == side_sum "sell" l + boost "sell" l).
Proof.
  unfold volume_votes, boost.
  destruct (aboveAverage _); [right | left; split; reflexivity].
  destruct (existsb (is_vote "buy") l) eqn:B.
  - rewrite existsb_app. cbn [existsb is_vote vote String.eqb Ascii.eqb Bool.eqb].
    rewrite !orb_false_r.
    destruct (existsb (is_vote "sell") l) eqn:S.
    + rewrite !side_sum_app. cbn. split; ring.
    + rewrite !side_sum_app. cbn. split; ring.
  - destruct (existsb (is_vote "sell") l) eqn:S.
    + rewrite !side_sum_app. cbn. split; ring.
    + split; ring.
Qed.

Lemma round_mono (x y : Q) : x <= y -> (Js.Math_round x <= Js.Math_round y)%Z.
Proof. intros H. unfold Js.Math_round. apply Qfloor_resp_le. lra. Qed.

(** Adding half a vote to the winner, and to the loser if it has any
    weight, cannot raise the winner's share. *)
Lemma share_shrinks (w l w' l' t t' : Q) :
  0 <= l -> l < w ->
  t == w + l -> t' == w' + l' ->
  w' == w + (1 # 2) ->
  (l' == l + (1 # 2) \/ (l == 0 /\ l' == 0)) ->
  w' / t' <= w / t.
Proof.
  intros Hl Hw Ht Ht' Hw' Hcase.
  assert (Hq : 1 # 2 <= w / t) by (apply Qle_shift_div_l; lra).
  assert (Hq1 : w / t <= 1) by (apply Qle_shift_div_r; lra).
  assert (Hmul : w / t * t == w) by (field; lra).
  apply Qle_shift_div_r; [destruct Hcase as [H | [H1 H2]]; lra |].
  destruct Hcase as [H | [H1 H2]].
  - assert (E : w / t * t' == w / t * t + w / t).
    { assert (t' == t + 1) as -> by lra. ring. }
    rewrite E, Hmul. lra.
  - assert (Et : t' == w + (1 # 2)) by lra.
    assert (E1 : w / t == 1).
    { assert (t == w) as -> by lra. field. lra. }
    rewrite E1. lra.
Qed.

Section Volume.

Variable macd : list Q -> nat -> nat -> nat -> MacdSeries.
Variable bollingerBands : list Q -> nat -> Q -> BandSeries.

(** The same configuration with the volume block switched off. *)
Definition without_volume (cfg : Config) : Config :=
  {| useSMA := useSMA cfg; useRSI := useRSI cfg; useMACD := useMACD cfg;
     useBollingerBands := useBollingerBands cfg; useVolume := false;
     rsiPeriod := rsiPeriod cfg; macdFast := macdFast cfg;
     macdSlow := macdSlow cfg; macdSignal := macdSignal cfg;
     bbPeriod := bbPeriod cfg; bbStdDev := bbStdDev cfg |}.

Lemma collect_volume (candles : list Candle) (cfg : Config) :
  collect macd bollingerBands candles cfg
  = if useVolume cfg
    then volume_votes candles
           (collect macd bollingerBands candles (without_volume cfg))
    else collect macd bollingerBands candles (without_volume cfg).
Proof. destruct cfg. reflexivity. Qed.

Lemma interp_votes_positive (w : Q) (src : string) (it : Interpretation) :
  0 < w -> reading_ok it -> Forall positive (interp_votes w src it).
Proof.
  intros Hw (_ & _ & _ & _ & Hpos). unfold interp_votes.
  destruct (String.eqb (i_signal it) "neutral") eqn:E; constructor; [| constructor].
  apply String.eqb_neq in E. specialize (Hpos E).
  unfold positive; cbn. apply Qmult_lt_0_compat; assumption.
Qed.

Lemma indicators_positive (candles : list Candle) (cfg : Config) :
  Forall positive (collect macd bollingerBands candles (without_volume cfg)).
Proof.
  unfold collect. cbn [useSMA useRSI useMACD useBollingerBands useVolume
                        without_volume].
  assert (H1 : Forall positive
                 (if useSMA cfg then sma_votes (map close candles) else [])).
  { destruct (useSMA cfg); [| constructor]. unfold sma_votes.
    destruct (String.eqb _ "buy");
      [| destruct (String.eqb _ "sell")];
      repeat constructor; unfold positive; cbn; lra. }
  set (s1 := if useSMA cfg then _ else _) in *.
  assert (H2 : Forall positive
                 (if useRSI cfg
                  then (s1 ++ rsi_votes (map close candles) (without_volume cfg))%list
                  else s1)).
  { destruct (useRSI cfg); [| exact H1]. apply Forall_app. split; [exact H1 |].
    apply interp_votes_positive; [lra | apply interpretRSI_reading]. }
  set (s2 := if useRSI cfg then _ else _) in *.
  assert (H3 : Forall positive
                 (if useMACD cfg
                  then (s2 ++ macd_votes macd (map close candles)
                                (without_volume cfg))%list
                  else s2)).
  { destruct (useMACD cfg); [| exact H2]. apply Forall_app. split; [exact H2 |].
    apply interp_votes_positive; [lra | apply interpretMACD_reading]. }
  set (s3 := if useMACD cfg then _ else _) in *.
  destruct (useBollingerBands cfg); [| exact H3].
  apply Forall_app. split; [exact H3 |].
  apply interp_votes_positive; [lra | apply interpretBollingerBands_reading].
Qed.

Lemma composed (now : Z) (candles : list Candle) (cfg : Config) :
  (100 <= length candles)%nat ->
  let r := composeSignal macd bollingerBands now candles cfg in
  let t := tally (collect macd bollingerBands candles cfg) in
  c_signal r = (decide_vote t.1 t.2).1
  /\ confidence r = Js.Math_round ((decide_vote t.1 t.2).2 * 100).
Proof.
  intros Hlen. cbn zeta. unfold composeSignal.
  assert (Hn : (length candles <? 100)%nat = false) by (apply Nat.ltb_ge; lia).
  rewrite Hn.
  destruct (tally (collect macd bollingerBands candles cfg)) as [buy sell].
  cbn [fst snd]. destruct (decide_vote buy sell) as [sig conf].
  split; reflexivity.
Qed.

(** Switching the volume block on never changes the composed signal and
    never raises its confidence: the block adds half a vote to each side
    that already has a voter, so the order of the two totals is kept and
    the winner's share can only move towards one half. *)
Theorem volume_keeps_signal_and_never_raises_confidence :
  forall (now : Z) (candles : list Candle) (cfg : Config),
    let r := composeSignal macd bollingerBands now candles cfg in
    let r0 := composeSignal macd bollingerBands now candles (without_volume cfg) in
    c_signal r = c_signal r0 /\ (confidence r <= confidence r0)%Z.
Proof.
  intros now candles cfg r r0. subst r r0.
  destruct (Nat.ltb_spec (length candles) 100) as [Hshort | Hlong].
  { unfold composeSignal.
    assert (Hn : (length candles <? 100)%nat = true) by (apply Nat.ltb_lt; lia).
    rewrite Hn. cbn. split; [reflexivity | lia]. }
  destruct (composed now candles cfg Hlong) as [-> ->].
  destruct (composed now candles (without_volume cfg) Hlong) as [-> ->].
  rewrite (collect_volume candles cfg).
  pose proof (indicators_positive candles cfg) as Hpos.
  set (l := collect macd bollingerBands candles (without_volume cfg)) in *.
  destruct (useVolume cfg); [| split; [reflexivity | lia]].
  destruct (tally_sums l) as [Hb Hs].
  destruct (tally_sums (volume_votes candles l)) as [Hb' Hs'].
  pose proof (side_sum_nonneg "buy" l Hpos) as Nb.
  pose proof (side_sum_nonneg "sell" l Hpos) as Ns.
  assert (Kb : 0 <= boost "buy" l /\ 0 <= boost "sell" l).
  { unfold boost. destruct (existsb _ l), (existsb _ l); split; lra. }
  assert (Pb : 0 < side_sum "buy" l -> boost "buy" l == 1 # 2).
  { intros H. unfold boost. destruct (existsb (is_vote "buy") l) eqn:E;
      [reflexivity |]. rewrite (side_sum_none "buy" l E) in H. lra. }
  assert (Ps : 0 < side_sum "sell" l -> boost "sell" l == 1 # 2).
  { intros H. unfold boost. destruct (existsb (is_vote "sell") l) eqn:E;
      [reflexivity |]. rewrite (side_sum_none "sell" l E) in H. lra. }
  assert (Zb : side_sum "buy" l == 0 -> boost "buy" l == 0).
  { intros H. unfold boost. destruct (existsb (is_vote "buy") l) eqn:E;
      [| reflexivity]. pose proof (side_sum_some "buy" l Hpos E). lra. }
  assert (Zs : side_sum "sell" l == 0 -> boost "sell" l == 0).
  { intros H. unfold boost. destruct (existsb (is_vote "sell") l) eqn:E;
      [| reflexivity]. pose proof (side_sum_some "sell" l Hpos E). lra. }
  rewrite <- Hb in Nb, Pb, Zb. rewrite <- Hs in Ns, Ps, Zs.
  pose proof (volume_effect candles l) as Hv.
  rewrite <- Hb, <- Hs, <- Hb', <- Hs' in Hv.
  clear Hb Hs Hb' Hs' Hpos.
  destruct (tally l) as [b s].
  destruct (tally (volume_votes candles l)) as [b' s'].
  cbn [fst snd] in *.
  destruct Kb as [Kb Ks].
  assert (Nb' : 0 <= b') by (destruct Hv as [[H1 H2] | [H1 H2]]; lra).
  assert (Ns' : 0 <= s') by (destruct Hv as [[H1 H2] | [H1 H2]]; lra).
  destruct (decide_vote_cases b s Nb Ns) as (Tie & Buy & Sell).
  destruct (decide_vote_cases b' s' Nb' Ns') as (Tie' & Buy' & Sell').
  destruct (Q_dec b s) as [[Hlt | Hgt] | Heq].
  - (* the sell side wins *)
    specialize (Ps ltac:(lra)).
    assert (Hlt' : b' < s').
    { destruct Hv as [[H1 H2] | [H1 H2]]; [lra |].
      destruct (Qlt_le_dec 0 b) as [P | P];
        [specialize (Pb P) | specialize (Zb ltac:(lra))]; lra. }
    rewrite (Sell Hlt), (Sell' Hlt'). cbn [fst snd].
    split; [reflexivity |]. apply round_mono.
    apply Qmult_le_compat_r; [| lra].
    destruct Hv as [[H1 H2] | [H1 H2]].
    + assert (s' / (b' + s') == s / (b + s)) as ->; [| lra].
      rewrite H1, H2. reflexivity.
    + apply (share_shrinks s b s' b'); lra.
  - (* the buy side wins *)
    specialize (Pb ltac:(lra)).
    assert (Hgt' : s' < b').
    { destruct Hv as [[H1 H2] | [H1 H2]]; [lra |].
      destruct (Qlt_le_dec 0 s) as [P | P];
        [specialize (Ps P) | specialize (Zs ltac:(lra))]; lra. }
    rewrite (Buy Hgt), (Buy' Hgt'). cbn [fst snd].
    split; [reflexivity |]. apply round_mono.
    apply Qmult_le_compat_r; [| lra].
    destruct Hv as [[H1 H2] | [H1 H2]].
    + assert (b' / (b' + s') == b / (b + s)) as ->; [| lra].
      rewrite H1, H2. reflexivity.
    + apply (share_shrinks b s b' s'); lra.
  - (* a tie *)
    assert (Heq' : b' == s').
    { destruct Hv as [[H1 H2] | [H1 H2]]; [lra |].
      destruct (Qlt_le_dec 0 b) as [P | P].
      - specialize (Pb P). specialize (Ps ltac:(lra)). lra.
      - specialize (Zb ltac:(lra)). specialize (Zs ltac:(lra)). lra. }
    rewrite (Tie Heq), (Tie' Heq'). cbn. split; [reflexivity | lia].
Qed.

(** A composed 'hold' carries confidence 0 and is never strong, whatever
    threshold is asked for; a composed 'buy' or 'sell' carries a
    confidence between 50 and 100, is never graded 'Very Weak', and is
    strong at the default threshold exactly when its grade is not
    'Weak'. *)
Theorem composed_signal_grades :
  forall (now : Z) (candles : list Candle) (cfg : Config)
         (minConfidence : option Z),
    let r := composeSignal macd bollingerBands now candles cfg in
    (c_signal r = "hold" /\ confidence r = 0%Z
     /\ isSignalStrong r minConfidence = false)
    \/ ((c_signal r = "buy" \/ c_signal r = "sell")
        /\ (50 <= confidence r <= 100)%Z
        /\ getSignalStrength (confidence r) <> "Very Weak"
        /\ (isSignalStrong r None = true
            <-> getSignalStrength (confidence r) <> "Weak")).
Proof.
  intros now candles cfg minConfidence r. subst r.
  destruct (Nat.ltb_spec (length candles) 100) as [Hshort | Hlong].
  { left. unfold composeSignal.
    assert (Hn : (length candles <? 100)%nat = true) by (apply Nat.ltb_lt; lia).
    rewrite Hn. cbn. repeat split. }
  destruct (composed now candles cfg Hlong) as [Es Ec].
  assert (Hpos : Forall nonneg (collect macd bollingerBands candles cfg))
    by apply collect_nonneg.
  destruct (tally_nonneg _ Hpos) as [Nb Ns].
  destruct (tally (collect macd bollingerBands candles cfg)) as [b s].
  cbn [fst snd] in *.
  destruct (decide_vote_cases b s Nb Ns) as (Tie & Buy & Sell).
  assert (Grade : forall c : Z,
             (50 <= c <= 100)%Z ->
             getSignalStrength c <> "Very Weak"
             /\ ((60 <=? c)%Z = true <-> getSignalStrength c <> "Weak")).
  { intros c Hc. unfold getSignalStrength.
    destruct (80 <=? c)%Z eqn:E80; [split; [discriminate |]; split;
      [discriminate | intros _; apply Z.leb_le; apply Z.leb_le in E80; lia] |].
    destruct (70 <=? c)%Z eqn:E70; [split; [discriminate |]; split;
      [discriminate | intros _; apply Z.leb_le; apply Z.leb_le in E70; lia] |].
    destruct (60 <=? c)%Z eqn:E60; [split; [discriminate |]; split;
      [discriminate | reflexivity] |].
    destruct (50 <=? c)%Z eqn:E50.
    - split; [discriminate |]. split; [discriminate | intros H; congruence].
    - apply Z.leb_gt in E50. lia. }
  destruct (Q_dec b s) as [[Hlt | Hgt] | Heq].
  - right. rewrite (Sell Hlt) in Es, Ec. cbn [fst snd] in Es, Ec.
    assert (Hc : (50 <= confidence
                          (composeSignal macd bollingerBands now candles cfg)
                  <= 100)%Z).
    { rewrite Ec.
      assert (E : Js.Math_round (s / (b + s) * 100)
                  = Js.Math_round (s / (s + b) * 100)).
      { unfold Js.Math_round. apply Qfloor_comp.
        assert (b + s == s + b) as -> by ring. reflexivity. }
      rewrite E. apply winner_confidence; assumption. }
    destruct (Grade _ Hc) as [G1 G2].
    refine (conj (or_intror Es) (conj Hc (conj G1 _))).
    unfold isSignalStrong. rewrite Es. cbn [String.eqb Ascii.eqb Bool.eqb negb andb].
    exact G2.
  - right. rewrite (Buy Hgt) in Es, Ec. cbn [fst snd] in Es, Ec.
    assert (Hc : (50 <= confidence
                          (composeSignal macd bollingerBands now candles cfg)
                  <= 100)%Z).
    { rewrite Ec. apply winner_confidence; assumption. }
    destruct (Grade _ Hc) as [G1 G2].
    refine (conj (or_introl Es) (conj Hc (conj G1 _))).
    unfold isSignalStrong. rewrite Es. cbn [String.eqb Ascii.eqb Bool.eqb negb andb].
    exact G2.
  - left. rewrite (Tie Heq) in Es, Ec. cbn [fst snd] in Es, Ec.
    refine (conj Es (conj _ _)).
    + rewrite Ec. reflexivity.
    + unfold isSignalStrong. rewrite Es. reflexivity.
Qed.

End Volume.

End ComposerProps.

(** ** The regime cache and the choice of strategy *)
Module StrategyProps.

Import MarketRegime StrategyManager.
Local Open Scope Q_scope.

(** The five regimes with the strategy the table gives each; a choppy
    regime carries confidence 0 (short window) or 30. *)
Definition known_regime (r : Regime) : Prop :=
  ((regime r = "trending-up" \/ regime r = "trending-down")
   /\ recommendedStrategy r = "momentum")
  \/ (regime r = "ranging" /\ recommendedStrategy r = "mean-reversion")
  \/ (regime r = "volatile" /\ recommendedStrategy r = "grid-trading")
  \/ (regime r = "choppy" /\ recommendedStrategy r = "hold"
      /\ (r_confidence r = 0 \/ r_confidence r = 30)%Z).

Section Managed.

Variable macd : list Q -> nat -> nat -> nat -> IndicatorsAdvanced.MacdSeries.
Variable bollingerBands : list Q -> nat -> Q -> IndicatorsAdvanced.BandSeries.
Variable analyzeTrend : list Q -> TrendAnalysis.
Variable analyzeVolatility : list Candle -> VolatilityAnalysis.
Variable analyzeRange : list Q -> RangeAnalysis.
Variable analyzeMeanReversion : list Candle -> Options -> StrategySignal.
Variable analyzeMomentum : list Candle -> Options -> StrategySignal.
Variable analyzeGridTrading : list Candle -> Options -> StrategySignal.
Variable analyzeDayTrading : list Candle -> Options -> StrategySignal.

Definition detect := detectMarketRegime analyzeTrend analyzeVolatility analyzeRange.

Definition analyze :=
  analyzeWithOptimalStrategy macd bollingerBands analyzeTrend analyzeVolatility
    analyzeRange analyzeMeanReversion analyzeMomentum analyzeGridTrading
    analyzeDayTrading.

Lemma detect_known (now : Z) (candles : list Candle) :
  known_regime (detect now candles).
Proof.
  unfold detect, detectMarketRegime, known_regime.
  destruct (length candles <? 100)%nat.
  { cbn. right. right. right. repeat split. left. reflexivity. }
  unfold classify, trend_regime.
  destruct (trending _ && (70 <? _)%Z).
  { cbn. left. destruct (String.eqb _ "up"); split; auto. }
  destruct (v_high _ && ranging _).
  { cbn. right. right. left. split; reflexivity. }
  destruct (ranging _ && negb (v_high _)).
  { cbn. right. left. split; reflexivity. }
  destruct (trending _ && (50 <? _)%Z).
  { cbn. left. destruct (String.eqb _ "up"); split; auto. }
  cbn. right. right. right. repeat split. right. reflexivity.
Qed.

Lemma select_known (ar : bool) (reg : Regime) :
  known_regime reg ->
  let s := select ar None reg in
  s = "multi-indicator" \/ s = "momentum" \/ s = "mean-reversion"
  \/ s = "grid-trading".
Proof.
  intros H. unfold select. cbn [truthy_string].
  destruct ar; cbn [negb]; [| left; reflexivity].
  destruct (r_confidence reg <? minRegimeConfidence)%Z eqn:E; [left; reflexivity |].
  destruct H as [[_ ->] | [[_ ->] | [[_ ->] | (_ & _ & Hc)]]]; auto.
  apply Z.ltb_ge in E. unfold minRegimeConfidence in E. lia.
Qed.

(** The selection step of lines 509-524, on any regime that
    [detectMarketRegime] returns: when no strategy is forced ([None]
    stands for a falsy [forceStrategy], the caller's or the module
    configuration's), the strategy selected is one of 'multi-indicator',
    'momentum', 'mean-reversion' and 'grid-trading'.  The table's 'hold'
    entry for a choppy market is never selected, because a choppy regime
    never reaches the confidence of 60 the manager asks for, and
    'day-trading' is selected only when forced.  (Whether the strategy
    then run returns is no part of the statement.) *)
Theorem auto_selection_never_holds :
  forall (autoSwitch : bool) (now : Z) (candles : list Candle),
    let s := select autoSwitch None (detect now candles) in
    s = "multi-indicator" \/ s = "momentum" \/ s = "mean-reversion"
    \/ s = "grid-trading".
Proof.
  intros autoSwitch now candles. apply select_known, detect_known.
Qed.

(** The regime is detected at most once per five minutes.  After a call
    on 100 candles or more the manager holds a regime; a later call no
    more than 300000 ms after the stored check reuses it, whatever
    window it is given, and leaves the state as it is; a call later than
    that detects the regime afresh on its own window and stores it with
    its own clock reading. *)
Theorem regime_is_cached_for_five_minutes :
  forall (st : ManagerState) (now0 now1 : Z) (candles0 candles1 : list Candle)
         (opts0 opts1 : Options),
    (100 <= length candles0)%nat ->
    (100 <= length candles1)%nat ->
    let first := analyze st now0 candles0 opts0 in
    let second := analyze first.2 now1 candles1 opts1 in
    d_regime first.1 = currentRegime first.2
    /\ currentRegime first.2 <> None
    /\ ((now1 - lastRegimeCheck first.2 <= 300000)%Z ->
        second.2 = first.2 /\ d_regime second.1 = d_regime first.1)
    /\ ((300000 < now1 - lastRegimeCheck first.2)%Z ->
        d_regime second.1 = Some (detect now1 candles1)
        /\ second.2 = {| currentRegime := Some (detect now1 candles1);
                         lastRegimeCheck := now1 |}).
Proof.
  intros st now0 now1 candles0 candles1 opts0 opts1 H0 H1 first second.
  assert (Hfirst : exists r, d_regime first.1 = Some r
                             /\ currentRegime first.2 = Some r).
  { subst first. unfold analyze, analyzeWithOptimalStrategy.
    assert (Hn : (length candles0 <? 100)%nat = false) by (apply Nat.ltb_ge; lia).
    rewrite Hn. cbn [fst snd d_regime].
    destruct (currentRegime st) as [r |] eqn:E.
    - destruct (REGIME_CHECK_INTERVAL <? now0 - lastRegimeCheck st)%Z.
      + eexists. split; reflexivity.
      + exists r. split; [reflexivity | exact E].
    - eexists. split; reflexivity. }
  destruct Hfirst as (r & Hd & Hc).
  subst second. set (st1 := first.2) in *.
  assert (Hn : (length candles1 <? 100)%nat = false) by (apply Nat.ltb_ge; lia).
  refine (conj _ (conj _ (conj _ _))).
  - rewrite Hd, Hc. reflexivity.
  - rewrite Hc. discriminate.
  - intros Hsoon. unfold analyze, analyzeWithOptimalStrategy.
    rewrite Hn, Hc. cbn [fst snd d_regime].
    assert (E : (REGIME_CHECK_INTERVAL <? now1 - lastRegimeCheck st1)%Z = false)
      by (apply Z.ltb_ge; unfold REGIME_CHECK_INTERVAL; lia).
    rewrite E. split; [reflexivity | symmetry; exact Hd].
  - intros Hlate. unfold analyze, analyzeWithOptimalStrategy.
    rewrite Hn, Hc. cbn [fst snd d_regime].
    assert (E : (REGIME_CHECK_INTERVAL <? now1 - lastRegimeCheck st1)%Z = true)
      by (apply Z.ltb_lt; unfold REGIME_CHECK_INTERVAL; lia).
    rewrite E. split; reflexivity.
Qed.

End Managed.

(** A manager over constant analyses: a strong up-trend of strength 80. *)
Definition up_trend (_ : list Q) : TrendAnalysis :=
  {| trending := true; direction := "up"; t_strength := 80;
     emaSeparation := "2.00" |}.
Definition calm (_ : list Candle) : VolatilityAnalysis :=
  {| v_high := false; v_score := 0; atrPercent := "1.00" |}.
Definition no_range (_ : list Q) : RangeAnalysis :=
  {| ranging := false; r_score := 0; oscillations := 0 |}.
Definition holds (name : string) (_ : list Candle) (_ : Options) : StrategySignal :=
  {| ss_signal := "hold"; ss_confidence := 0; ss_reason := name;
     ss_strategy := Some name |}.
Definition no_options : Options := {| autoSwitch := None; forceStrategy := None |}.

Lemma regime_is_cached_for_five_minutes_witness :
  let run := analyze SignalProps.macd_24 SignalProps.bands_90_110 up_trend calm
               no_range (holds "mean-reversion") (holds "momentum")
               (holds "grid-trading") (holds "day-trading") in
  let first := run manager0 1000%Z SignalProps.flat_window no_options in
  let second := run first.2 301000%Z SignalProps.flat_window no_options in
  d_regime first.1 = currentRegime first.2
  /\ currentRegime first.2 <> None
  /\ ((301000 - lastRegimeCheck first.2 <= 300000)%Z ->
      second.2 = first.2 /\ d_regime second.1 = d_regime first.1)
  /\ ((300000 < 301000 - lastRegimeCheck first.2)%Z ->
      d_regime second.1
      = Some (detect up_trend calm no_range 301000 SignalProps.flat_window)
      /\ second.2
         = {| currentRegime :=
                Some (detect up_trend calm no_range 301000 SignalProps.flat_window);
              lastRegimeCheck := 301000 |}).
Proof.
  exact (regime_is_cached_for_five_minutes SignalProps.macd_24
           SignalProps.bands_90_110 up_trend calm no_range
           (holds "mean-reversion") (holds "momentum") (holds "grid-trading")
           (holds "day-trading") manager0 1000 301000
           SignalProps.flat_window SignalProps.flat_window no_options no_options
           ltac:(vm_compute; lia) ltac:(vm_compute; lia)).
Defined.

(** The second call of the witness falls exactly on the boundary: 300000
    ms after the check is still inside the interval. *)
Example boundary_call_reuses_the_regime :
  let run := analyze SignalProps.macd_24 SignalProps.bands_90_110 up_trend calm
               no_range (holds "mean-reversion") (holds "momentum")
               (holds "grid-trading") (holds "day-trading") in
  let first := run manager0 1000%Z SignalProps.flat_window no_options in
  lastRegimeCheck first.2 = 1000%Z
  /\ lastRegimeCheck (run first.2 301000%Z SignalProps.flat_window no_options).2
     = 1000%Z
  /\ lastRegimeCheck (run first.2 301001%Z SignalProps.flat_window no_options).2
     = 301001%Z.
Proof. vm_compute. repeat split. Qed.

End StrategyProps.

(** ** The books of a backtest *)
Module BacktestRunProps.

Import Indicators Backtest.
Local Open Scope Q_scope.

(** The sum of the trades' profit and loss. *)
Definition sum_pnl (l : list Trade) : Q :=
  fold_right (fun t acc => pnl t + acc) 0 l.

Lemma sum_pnl_app (l : list Trade) (t : Trade) :
  sum_pnl (l ++ [t]) == sum_pnl l + pnl t.
Proof.
  induction l as [| x rest IH]; cbn.
  - ring.
  - fold (sum_pnl (rest ++ [t])). fold (sum_pnl rest). rewrite IH. ring.
Qed.

Lemma fold_left_inv {S I : Type} (P : S -> Prop) (f : S -> I -> S) (l : list I) :
  (forall s i, P s -> P (f s i)) -> forall s, P s -> P (fold_left f l s).
Proof.
  intros Hstep. induction l as [| i rest IH]; intros s Hs; cbn; auto.
Qed.

Lemma parseFloat_toFixed_comp (x y : Q) (d : nat) :
  x == y -> Js.parseFloat_toFixed x d = Js.parseFloat_toFixed y d.
Proof.
  intros H. unfold Js.parseFloat_toFixed, Js.ltb.
  rewrite (AdvancedRiskProps.scaled_comp x y d H),
    (AdvancedRiskProps.Qle_bool_comp 0 x y H).
  reflexivity.
Qed.

Section Books.

Variable Math_sqrt : Q -> Q.
Variable Math_pow : Q -> Q -> Q.
Variable Metrics : Type.
Variable calculatePerformanceMetrics : list Trade -> Q -> Metrics.

Variables sym strat : string.
Variables capital0 size feeRate slip : Q.
Variable candles : list Candle.

Definition loop_step := step Math_sqrt sym strat size feeRate slip candles.

Definition loop_start : Sim :=
  {| trades := []; cash := capital0; position := None;
     equityCurve :=
       [ {| e_time := match candles !! 0%nat with
                      | Some c => time c | None => 0%Z end;
            capital := capital0; e_trades := 0; lastPnl := None |} ] |}.

Definition loop_end : Sim :=
  fold_left loop_step (seq 50 (length candles - 50)) loop_start.

Lemma simulate_unfold :
  simulate Math_sqrt sym strat capital0 size feeRate slip candles
  = force_close sym strat feeRate slip candles loop_end.
Proof. reflexivity. Qed.

(** *** Cash *)

(** What is tied up in the open position: the stake and the entry fee. *)
Definition committed (s : Sim) : Q :=
  match position s with
  | Some p => amount p + fee p
  | None => 0
  end.

Definition balanced (s : Sim) : Prop :=
  cash s + committed s == capital0 + sum_pnl (trades s).

Lemma step_balanced (s : Sim) (i : nat) : balanced s -> balanced (loop_step s i).
Proof.
  unfold balanced, committed, loop_step, step. intros H.
  destruct (candles !! i) as [candle |]; [| exact H].
  destruct (position s) as [p |] eqn:E.
  - destruct (String.eqb _ "sell" && String.eqb (side p) "buy").
    + unfold close_trade; cbn [cash position trades pnl amount fee].
      rewrite sum_pnl_app.
      unfold close_trade; cbn [cash position trades pnl amount fee]. lra.
    + rewrite E. exact H.
  - destruct (String.eqb _ "buy" && Js.geb (cash s) size).
    + cbn [cash position trades amount fee]. lra.
    + rewrite E. exact H.
Qed.

Lemma loop_balanced : balanced loop_end.
Proof.
  unfold loop_end. apply (fold_left_inv balanced); [apply step_balanced |].
  unfold balanced, committed. cbn [cash position trades loop_start sum_pnl fold_right].
  ring.
Qed.

Lemma step_position_needs_candles (s : Sim) (i : nat) :
  (position s <> None -> candles <> []) ->
  position (loop_step s i) <> None -> candles <> [].
Proof.
  unfold loop_step, step. intros H.
  destruct (candles !! i) as [candle |] eqn:C; [| exact H].
  intros _ ->. discriminate C.
Qed.

Lemma loop_position_needs_candles : position loop_end <> None -> candles <> [].
Proof.
  unfold loop_end.
  apply (fold_left_inv (fun s => position s <> None -> candles <> [])).
  - apply step_position_needs_candles.
  - cbn. congruence.
Qed.

(** The books of a simulation add up: every dollar that leaves or enters
    the cash is accounted to a trade, the force-closed one included, so
    the final capital is the initial capital plus the profit and loss of
    the listed trades.  (The identity is one of exact arithmetic; the
    doubles of the code satisfy it up to rounding error, so that the two
    sides, each rounded to cents, can differ in the last cent.) *)
Theorem final_cash_is_capital_plus_pnl :
  let s := simulate Math_sqrt sym strat capital0 size feeRate slip candles in
  cash s == capital0 + sum_pnl (trades s).
Proof.
  cbn zeta. rewrite simulate_unfold.
  pose proof loop_balanced as H. pose proof loop_position_needs_candles as Hc.
  unfold balanced, committed in H. unfold force_close.
  destruct (position loop_end) as [p |].
  - destruct (last candles) as [lastCandle |] eqn:L.
    + unfold close_trade; cbn [cash position trades pnl amount fee].
      rewrite sum_pnl_app.
      unfold close_trade; cbn [cash position trades pnl amount fee]. lra.
    + exfalso. apply Hc; [discriminate |].
      destruct candles as [| c rest]; [reflexivity |].
      apply last_None in L. discriminate L.
  - lra.
Qed.

(** *** The shape of the trade list and of the equity curve *)

Definition round_trip (t : Trade) : Prop :=
  status t = "closed" /\ t_side t = "buy" /\ t_symbol t = sym
  /\ t_strategy t = strat /\ t_amount t = size.

Definition numbered (l : list Trade) : Prop :=
  map id l = map Z.of_nat (seq 1 (length l)).

Definition tidy (s : Sim) : Prop :=
  numbered (trades s)
  /\ Forall round_trip (trades s)
  /\ Forall (fun t => note t = None) (trades s)
  /\ map e_trades (equityCurve s)
     = map Z.of_nat (seq 0 (S (length (trades s))))
  /\ match position s with
     | Some p => side p = "buy" /\ amount p = size
     | None => True
     end.

Lemma numbered_snoc (l : list Trade) (t : Trade) :
  numbered l -> id t = (Z.of_nat (length l) + 1)%Z -> numbered (l ++ [t]).
Proof.
  unfold numbered. intros H E.
  rewrite map_app, length_app, H. cbn [length map].
  replace (length l + 1)%nat with (S (length l)) by lia.
  rewrite seq_S, map_app. cbn [map]. rewrite E. do 3 f_equal. lia.
Qed.

Lemma step_tidy (s : Sim) (i : nat) : tidy s -> tidy (loop_step s i).
Proof.
  unfold tidy, loop_step, step. intros (Hn & Hr & Hnote & Hcurve & Hpos).
  destruct (candles !! i) as [candle |]; [| tauto].
  destruct (position s) as [p |] eqn:E.
  - destruct (String.eqb _ "sell" && String.eqb (side p) "buy").
    + destruct Hpos as [Hside Hamount]. cbn.
      refine (conj _ (conj _ (conj _ (conj _ I)))).
      * apply numbered_snoc; [exact Hn | reflexivity].
      * apply Forall_app. split; [exact Hr |]. constructor; [| constructor].
        unfold round_trip. cbn. tauto.
      * apply Forall_app. split; [exact Hnote |]. repeat constructor.
      * rewrite map_app, Hcurve, length_app. cbn [length map e_trades].
        replace (length (trades s) + 1)%nat with (S (length (trades s))) by lia.
        change (Z.of_nat 0 :: map Z.of_nat (seq 1 (S (length (trades s)))))
          with (map Z.of_nat (seq 0 (S (S (length (trades s)))))).
        rewrite (seq_S (S (length (trades s))) 0), map_app. reflexivity.
    + rewrite E. tauto.
  - destruct (String.eqb _ "buy" && Js.geb (cash s) size).
    + cbn. tauto.
    + rewrite E. tauto.
Qed.

Lemma loop_tidy : tidy loop_end.
Proof.
  unfold loop_end. apply (fold_left_inv tidy); [apply step_tidy |].
  unfold tidy, numbered. cbn. repeat split; constructor.
Qed.

(** The trades of a simulation are numbered 1, 2, ... in order; each is a
    closed long trade of the configured stake.  Only the last one can be
    a forced close, and it is the one trade without a point on the equity
    curve: the curve has its opening point and one point for each trade
    closed by a signal, the k-th of them counting k trades. *)
Theorem trade_list_shape :
  let s := simulate Math_sqrt sym strat capital0 size feeRate slip candles in
  exists (signalled forced : list Trade),
    trades s = (signalled ++ forced)%list
    /\ map id (trades s) = map Z.of_nat (seq 1 (length (trades s)))
    /\ Forall round_trip (trades s)
    /\ Forall (fun t => note t = None) signalled
    /\ (forced = []
        \/ exists t, forced = [t]
                     /\ note t = Some "Force closed at end of backtest")
    /\ map e_trades (equityCurve s)
       = map Z.of_nat (seq 0 (S (length signalled))).
Proof.
  cbn zeta. rewrite simulate_unfold.
  destruct loop_tidy as (Hn & Hr & Hnote & Hcurve & Hpos).
  unfold force_close.
  destruct (position loop_end) as [p |].
  - destruct (last candles) as [lastCandle |].
    + destruct Hpos as [Hside Hamount]. cbn.
      exists (trades loop_end). eexists.
      refine (conj eq_refl (conj _ (conj _ (conj Hnote (conj _ Hcurve))))).
      * apply numbered_snoc; [exact Hn | reflexivity].
      * apply Forall_app. split; [exact Hr |]. constructor; [| constructor].
        unfold round_trip. cbn. tauto.
      * right. eexists. split; reflexivity.
    + exists (trades loop_end), [].
      rewrite app_nil_r. refine (conj eq_refl (conj Hn (conj Hr (conj Hnote _)))).
      split; [left; reflexivity | exact Hcurve].
  - exists (trades loop_end), [].
    rewrite app_nil_r.
    refine (conj eq_refl (conj Hn (conj Hr (conj Hnote _)))).
    split; [left; reflexivity | exact Hcurve].
Qed.

(** *** A strategy that never says 'buy' *)

Definition idle (s : Sim) : Prop := s = loop_start.

Lemma step_idle (s : Sim) (i : nat) :
  (forall closes, getStrategySignal Math_sqrt strat closes <> "buy") ->
  idle s -> idle (loop_step s i).
Proof.
  unfold idle, loop_step, step. intros Hnever ->.
  destruct (candles !! i) as [candle |]; [| reflexivity].
  cbn [position loop_start].
  destruct (String.eqb _ "buy") eqn:E; [| reflexivity].
  apply String.eqb_eq in E. exfalso. exact (Hnever _ E).
Qed.

Lemma unknown_strategy_holds (closes : list Q) :
  strat <> "momentum" -> strat <> "sma-crossover" -> strat <> "mean-reversion" ->
  strat <> "multi-indicator" -> strat <> "multi-indicator-conservative" ->
  strat <> "multi-indicator-optimized" ->
  getStrategySignal Math_sqrt strat closes = "hold".
Proof.
  intros H1 H2 H3 H4 H5 H6. unfold getStrategySignal.
  apply String.eqb_neq in H1, H2, H3, H4, H5, H6.
  rewrite H1, H2, H3, H4, H5, H6. reflexivity.
Qed.

End Books.

Section Runs.

Variable Math_sqrt : Q -> Q.
Variable Math_pow : Q -> Q -> Q.
Variable Metrics : Type.
Variable calculatePerformanceMetrics : list Trade -> Q -> Metrics.

Definition run := runBacktest Math_sqrt Math_pow Metrics calculatePerformanceMetrics.

Lemma run_returns (clock : Clock) (candles : list Candle) (config : Config) :
  or_default (positionSize config) 1000 <= or_default (initialCapital config) 10000 ->
  (50 <= length candles)%nat ->
  exists r,
    run clock (Some candles) config = inr r
    /\ r_trades Metrics r
       = trades (simulate Math_sqrt (or_default (symbol config) "BTCUSD")
                   (or_default (strategy config) "momentum")
                   (or_default (initialCapital config) 10000)
                   (or_default (positionSize config) 1000)
                   (or_default (feeRate config) (26 # 10000))
                   (or_default (slippage config) (1 # 1000)) candles)
    /\ r_equityCurve Metrics r
       = equityCurve (simulate Math_sqrt (or_default (symbol config) "BTCUSD")
                        (or_default (strategy config) "momentum")
                        (or_default (initialCapital config) 10000)
                        (or_default (positionSize config) 1000)
                        (or_default (feeRate config) (26 # 10000))
                        (or_default (slippage config) (1 # 1000)) candles)
    /\ totalTrades (summary Metrics r) = Z.of_nat (length (r_trades Metrics r))
    /\ finalCapital (summary Metrics r)
       = Js.parseFloat_toFixed
           (cash (simulate Math_sqrt (or_default (symbol config) "BTCUSD")
                    (or_default (strategy config) "momentum")
                    (or_default (initialCapital config) 10000)
                    (or_default (positionSize config) 1000)
                    (or_default (feeRate config) (26 # 10000))
                    (or_default (slippage config) (1 # 1000)) candles)) 2
    /\ totalReturn (summary Metrics r)
       = Js.parseFloat_toFixed
           (cash (simulate Math_sqrt (or_default (symbol config) "BTCUSD")
                    (or_default (strategy config) "momentum")
                    (or_default (initialCapital config) 10000)
                    (or_default (positionSize config) 1000)
                    (or_default (feeRate config) (26 # 10000))
                    (or_default (slippage config) (1 # 1000)) candles)
            - or_default (initialCapital config) 10000) 2.
Proof.
  intros Hsize Hlen. unfold run, runBacktest.
  assert (E1 : Js.gtb (or_default (positionSize config) 1000)
                      (or_default (initialCapital config) 10000) = false)
    by (apply JsFacts.gtb_false; exact Hsize).
  assert (E2 : (length candles <? 50)%nat = false) by (apply Nat.ltb_ge; lia).
  rewrite E1, E2. eexists. split; [reflexivity |]. cbn. repeat split.
Qed.

(** A strategy name outside the six the engine knows is not refused: the
    run goes through every candle, never trades, and reports no trade, a
    one-point equity curve and a return of zero. *)
Theorem unknown_strategy_never_trades :
  forall (clock : Clock) (candles : list Candle) (config : Config) (name : string),
    strategy config = Some name ->
    name <> "momentum" -> name <> "sma-crossover" -> name <> "mean-reversion" ->
    name <> "multi-indicator" -> name <> "multi-indicator-conservative" ->
    name <> "multi-indicator-optimized" ->
    or_default (positionSize config) 1000
    <= or_default (initialCapital config) 10000 ->
    (50 <= length candles)%nat ->
    exists r,
      run clock (Some candles) config = inr r
      /\ r_trades Metrics r = []
      /\ length (r_equityCurve Metrics r) = 1%nat
      /\ totalTrades (summary Metrics r) = 0%Z
      /\ totalReturn (summary Metrics r) == 0
      /\ finalCapital (summary Metrics r)
         = Js.parseFloat_toFixed (or_default (initialCapital config) 10000) 2.
Proof.
  intros clock candles config name Hname H1 H2 H3 H4 H5 H6 Hsize Hlen.
  destruct (run_returns clock candles config Hsize Hlen)
    as (r & Hr & Ht & Hc & Hn & Hf & Hret).
  exists r. rewrite Hname in *. cbn [or_default] in *.
  assert (Hidle :
            simulate Math_sqrt (or_default (symbol config) "BTCUSD") name
              (or_default (initialCapital config) 10000)
              (or_default (positionSize config) 1000)
              (or_default (feeRate config) (26 # 10000))
              (or_default (slippage config) (1 # 1000)) candles
            = loop_start (or_default (initialCapital config) 10000) candles).
  { rewrite simulate_unfold.
    assert (E : loop_end Math_sqrt (or_default (symbol config) "BTCUSD") name
                  (or_default (initialCapital config) 10000)
                  (or_default (positionSize config) 1000)
                  (or_default (feeRate config) (26 # 10000))
                  (or_default (slippage config) (1 # 1000)) candles
                = loop_start (or_default (initialCapital config) 10000) candles).
    { unfold loop_end.
      apply (fold_left_inv
               (idle (or_default (initialCapital config) 10000) candles));
        [| reflexivity].
      intros s i. apply step_idle. intros closes.
      rewrite (unknown_strategy_holds Math_sqrt name closes H1 H2 H3 H4 H5 H6).
      discriminate. }
    rewrite E. unfold force_close. cbn [position loop_start].
    destruct (last candles); reflexivity. }
  rewrite Hidle in Ht, Hc, Hf, Hret. cbn [trades equityCurve cash loop_start] in *.
  refine (conj Hr (conj Ht (conj _ (conj _ (conj _ Hf))))).
  - rewrite Hc. reflexivity.
  - rewrite Hn, Ht. reflexivity.
  - rewrite Hret.
    rewrite (parseFloat_toFixed_comp _ 0 2) by ring. reflexivity.
Qed.

(** A configuration that [validateBacktestConfig] accepts and that names
    both the stake and the capital is not refused by [runBacktest]
    either: on 50 candles or more the run returns its report. *)
Theorem validated_config_runs :
  forall (clock : Clock) (candles : list Candle) (config : Config) (stake funds : Q),
    positionSize config = Some stake ->
    initialCapital config = Some funds ->
    valid (validateBacktestConfig config) = true ->
    (50 <= length candles)%nat ->
    exists r, run clock (Some candles) config = inr r.
Proof.
  intros clock candles config stake funds Hs Hf Hv Hlen.
  assert (Hle : stake <= funds).
  { unfold validateBacktestConfig in Hv. rewrite Hs, Hf in Hv.
    cbn [compare valid] in Hv.
    destruct (Js.gtb stake funds) eqn:E; [| apply JsFacts.gtb_false; exact E].
    exfalso. apply Nat.eqb_eq in Hv.
    repeat match type of Hv with
           | context [if ?b then _ else _] => destruct b
           end;
      rewrite ?length_app in Hv; cbn in Hv; lia. }
  destruct (run_returns clock candles config) as (r & Hr & _);
    [rewrite Hs, Hf; exact Hle | exact Hlen |].
  exists r. exact Hr.
Qed.

End Runs.

(** The host functions of the examples: no square root or power is
    needed by the momentum strategy, and the analytics are left out. *)
Definition sqrt0 (x : Q) : Q := x.
Definition pow0 (x _ : Q) : Q := x.
Definition no_metrics (_ : list Trade) (_ : Q) : unit := tt.
Definition clock0 : Clock :=
  {| at_startDate := 1; at_endDate := 2; at_generated := 3 |}.

Definition scalping_run : Config :=
  {| symbol := None; strategy := Some "scalping"; startDate := None;
     endDate := None; initialCapital := None; positionSize := None;
     feeRate := None; slippage := None; interval := None |}.

Definition full_config : Config :=
  {| symbol := Some "BTCUSD"; strategy := Some "momentum";
     startDate := Some 0%Z; endDate := Some 86400000%Z;
     initialCapital := Some 10000; positionSize := Some 1000;
     feeRate := Some (26 # 10000); slippage := Some (1 # 1000);
     interval := Some "1h" |}.

Definition small_account : Config :=
  {| symbol := Some "BTCUSD"; strategy := Some "momentum";
     startDate := Some 0%Z; endDate := Some 86400000%Z;
     initialCapital := Some 500; positionSize := None;
     feeRate := None; slippage := None; interval := None |}.

Lemma unknown_strategy_never_trades_witness :
  exists r,
    run sqrt0 pow0 unit no_metrics clock0 (Some BacktestProps.climb_and_slide)
      scalping_run = inr r
    /\ r_trades unit r = []
    /\ length (r_equityCurve unit r) = 1%nat
    /\ totalTrades (summary unit r) = 0%Z
    /\ totalReturn (summary unit r) == 0
    /\ finalCapital (summary unit r)
       = Js.parseFloat_toFixed (or_default (initialCapital scalping_run) 10000) 2.
Proof.
  exact (unknown_strategy_never_trades sqrt0 pow0 unit no_metrics clock0
           BacktestProps.climb_and_slide scalping_run "scalping"
           ltac:(reflexivity) ltac:(discriminate) ltac:(discriminate)
           ltac:(discriminate) ltac:(discriminate) ltac:(discriminate)
           ltac:(discriminate) ltac:(cbn; lra) ltac:(vm_compute; lia)).
Defined.

Lemma validated_config_runs_witness :
  exists r,
    run sqrt0 pow0 unit no_metrics clock0 (Some BacktestProps.climb_and_slide)
      full_config = inr r.
Proof.
  exact (validated_config_runs sqrt0 pow0 unit no_metrics clock0
           BacktestProps.climb_and_slide full_config 1000 10000
           ltac:(reflexivity) ltac:(reflexivity) ltac:(reflexivity)
           ltac:(vm_compute; lia)).
Defined.

(** Both amounts have to be named: with the stake left out the
    validation has nothing to compare and accepts, and the run then
    refuses its default stake of 1000 against a capital of 500. *)
Example validation_skips_an_absent_stake :
  valid (validateBacktestConfig small_account) = true
  /\ run sqrt0 pow0 unit no_metrics clock0 (Some BacktestProps.climb_and_slide)
       small_account
     = inl "Position size cannot exceed initial capital".
Proof. split; vm_compute; reflexivity. Qed.

End BacktestRunProps.

(** ** Portfolio limits *)
Module RiskLimitProps.

Import AdvancedRisk AdvancedRiskProps.
Local Open Scope Q_scope.

(** With a positive portfolio value the check is monotone in the amount:
    an entry that is accepted stays accepted when its amount is made
    smaller, the book of open trades being the same. *)
Theorem smaller_entry_is_accepted :
  forall (limits : PortfolioLimits) (sym : string) (amt smaller : Q)
         (openTrades : list Trade) (pv : Q),
    0 < pv ->
    smaller <= amt ->
    ok (validatePortfolioLimits limits sym amt openTrades pv) = true ->
    validatePortfolioLimits limits sym smaller openTrades pv
    = {| ok := true; v_reason := None; currentExposure := None; limit := None |}.
Proof.
  intros limits sym amt smaller openTrades pv Hpv Hle Hok.
  destruct (validate_decision limits sym amt openTrades pv) as (A & B & _).
  destruct (validate_decision limits sym smaller openTrades pv) as (_ & _ & C).
  assert (Hmono : forall base, (base + smaller) / pv <= (base + amt) / pv).
  { intros base. unfold Qdiv. apply Qmult_le_compat_r; [lra |].
    apply Qinv_le_0_compat. lra. }
  destruct (Qlt_le_dec (maxTotalExposure limits)
              ((reported_total openTrades + amt) / pv)) as [H1 | H1].
  { destruct (A H1) as [E _]. rewrite E in Hok. discriminate. }
  destruct (Qlt_le_dec (maxExposurePerSymbol limits)
              ((symbol_total sym openTrades + amt) / pv)) as [H2 | H2].
  { destruct (B H1 H2) as [E _]. rewrite E in Hok. discriminate. }
  apply C.
  - apply Qle_trans with ((reported_total openTrades + amt) / pv);
      [apply Hmono | exact H1].
  - apply Qle_trans with ((symbol_total sym openTrades + amt) / pv);
      [apply Hmono | exact H2].
Qed.

Definition one_btc_trade : Trade :=
  {| symbol := Some "BTCUSD"; amount := Some 1000; status := "open" |}.

Lemma smaller_entry_is_accepted_witness :
  validatePortfolioLimits portfolioLimits0 "BTCUSD" 500 [one_btc_trade] 10000
  = {| ok := true; v_reason := None; currentExposure := None; limit := None |}.
Proof.
  exact (smaller_entry_is_accepted portfolioLimits0 "BTCUSD" 1000 500
           [one_btc_trade] 10000 ltac:(lra) ltac:(lra) ltac:(reflexivity)).
Defined.

End RiskLimitProps.
